(** * Sudoku-Solver: the Z3 encoding, the two-round solve protocol and the
      HTTP boundary

    Embedded from [main.ts] (the in-process server: [handleSolveRequest],
    [solveSudoku]), from the process-isolated server ([handleSolveRequest],
    [solveSudokuInProcess]) and from the solver it spawns ([q.ts]:
    [solveSudoku], [main]).  The copy of [main.ts] that logs every step
    differs from the first one in its logging and in building the blocking
    loop from [z3.Int(cellNames[i])], which is the same term as [cells[i]].

    Z3 is reached through a Python bridge and is not part of the
    repository.  Its terms are a syntax here, with the usual meaning under
    an interpretation of the integer constants; [solver.check()] and
    [solver.model()] are the variables [check] and [model] of a section,
    functions of the assertions the solver holds when they are called, and
    the contract of the backend ([satSound], [unsatSound]) is a hypothesis
    wherever a result needs it.  The answer "unknown" is part of the
    interface.

    The state threaded through a run is the list of assertions of the
    solver and the list of calls made to the decision procedure, so that
    "never invoked" is a statement about that list.  Exceptions are the
    left summand of a result.  A JavaScript number that reached Z3 is an
    integer ([Z]); a JSON number of a request is [Integral z] or
    [NonIntegral]; reading an array out of range yields [undefined], which
    the bridge cannot hand to Z3. *)

From Stdlib Require Import ZArith List String Ascii Lia Bool Arith DecimalString.
Import ListNotations.
Local Open Scope string_scope.
Local Open Scope Z_scope.
Local Open Scope list_scope.
Set Warnings "-register-all".

(* ================================================================== *)
(** ** JavaScript helpers *)

Module JS.

(** Template-literal interpolation of a small non-negative integer:
    [`${n}`] is the decimal numeral of [n]. *)
Definition natToString (n : nat) : string :=
  NilZero.string_of_uint (Nat.to_uint n).

(** [String(v)] of an integer, also how Z3 prints an integer numeral. *)
Definition intToString (v : Z) : string :=
  NilZero.string_of_int (Z.to_int v).

(** White space skipped by [parseInt] (the ASCII members of StrWhiteSpaceChar). *)
Definition isWhiteSpace (c : ascii) : bool :=
  let n := nat_of_ascii c in
  ((n =? 9) || (n =? 10) || (n =? 11) || (n =? 12) || (n =? 13) || (n =? 32))%nat.

Fixpoint trimStart (s : string) : string :=
  match s with
  | String c s' => if isWhiteSpace c then trimStart s' else s
  | EmptyString => s
  end.

Definition digitOf (c : ascii) : option Z :=
  let n := nat_of_ascii c in
  if ((48 <=? n) && (n <=? 57))%nat then Some (Z.of_nat (n - 48)) else None.

(** The longest prefix of decimal digits, as a number; [None] when that
    prefix is empty. *)
Fixpoint digits (s : string) (acc : option Z) : option Z :=
  match s with
  | String c s' =>
      match digitOf c with
      | Some d =>
          digits s' (Some (10 * match acc with Some a => a | None => 0 end + d))
      | None => acc
      end
  | EmptyString => acc
  end.

(** [Number.parseInt(s, 10)].  [None] is NaN, the only non-finite result
    reachable with fewer than 309 digits; the rounding of integers beyond
    2^53 to a double is not modelled (the values read back from a model are
    single digits). *)
Definition parseInt (s : string) : option Z :=
  match trimStart s with
  | String "-" s' => option_map Z.opp (digits s' None)
  | String "+" s' => digits s' None
  | s' => digits s' None
  end.

(** [Number.isFinite] on the result of [parseInt]. *)
Definition isFinite (v : option Z) : bool :=
  match v with Some _ => true | None => false end.

End JS.

(* ================================================================== *)
(** ** The Z3 interface used by the solver *)

(** Integer terms: [z3.Int(name)] and [z3.IntVal(value)]. *)
Inductive Z3Int : Type :=
| Int (name : string)
| IntVal (value : Z).

(** Boolean terms: [a.__ge__(b)], [a.__le__(b)], [a.__eq__(b)],
    [z3.Distinct(...)], [z3.Or(...)], [z3.Not(e)]. *)
Inductive Z3Bool : Type :=
| Ge (a b : Z3Int)
| Le (a b : Z3Int)
| Eq (a b : Z3Int)
| Distinct (args : list Z3Int)
| Or (args : list Z3Bool)
| Not (e : Z3Bool).

(** The answer of [solver.check()]. *)
Inductive Z3CheckResult : Type := sat | unsat | unknown.

Module Z3.

(** [toString()] of a check result, as Z3 prints it. *)
Definition checkToString (r : Z3CheckResult) : string :=
  match r with
  | sat => "sat"
  | unsat => "unsat"
  | unknown => "unknown"
  end.

(** [toString()] of an integer term: a constant prints as its name, a
    numeral in decimal. *)
Definition toString (e : Z3Int) : string :=
  match e with
  | Int name => name
  | IntVal v => JS.intToString v
  end.

(** An interpretation gives every integer constant, identified by its
    name, a value. *)
Definition Interp : Type := string -> Z.

Definition evalInt (I : Interp) (e : Z3Int) : Z :=
  match e with
  | Int name => I name
  | IntVal v => v
  end.

(** All members pairwise different. *)
Fixpoint distinctb (l : list Z) : bool :=
  match l with
  | [] => true
  | x :: t => negb (existsb (Z.eqb x) t) && distinctb t
  end.

Fixpoint holds (I : Interp) (b : Z3Bool) : bool :=
  match b with
  | Ge x y => evalInt I y <=? evalInt I x
  | Le x y => evalInt I x <=? evalInt I y
  | Eq x y => evalInt I x =? evalInt I y
  | Distinct args => distinctb (map (evalInt I) args)
  | Or args => existsb (holds I) args
  | Not e => negb (holds I e)
  end.

(** [I] satisfies a conjunction of assertions. *)
Definition satisfies (I : Interp) (cs : list Z3Bool) : Prop :=
  forall c, In c cs -> holds I c = true.

Definition satisfiesb (I : Interp) (cs : list Z3Bool) : bool :=
  forallb (holds I) cs.

(** What a model gives back for a term: [model.evaluate(expr)]. *)
Definition Z3Model : Type := Z3Int -> Z3Int.

End Z3.

(** A call that reaches the decision procedure or its model. *)
Inductive Z3Call : Type :=
| CheckCall (assertions : list Z3Bool)
| ModelCall (assertions : list Z3Bool).

(* ================================================================== *)
(** ** Exceptions and the state of one run *)

Inductive exn : Type :=
| SudokuUnsolvableError (message : string)
| Error (message : string)
| TypeError (message : string)
| AbortError (message : string).

Definition exnMessage (e : exn) : string :=
  match e with
  | SudokuUnsolvableError m | Error m | TypeError m | AbortError m => m
  end.

(** The solver object ([assertions], in the order they were added) and the
    calls made to the decision procedure so far. *)
Record Z3State : Type := mkState {
  assertions : list Z3Bool;
  calls : list Z3Call
}.

Definition M (A : Type) : Type := Z3State -> (exn + A) * Z3State.

Definition ret {A} (a : A) : M A := fun st => (inr a, st).

Definition bind {A B} (m : M A) (k : A -> M B) : M B :=
  fun st =>
    match m st with
    | (inr a, st') => k a st'
    | (inl e, st') => (inl e, st')
    end.

Definition throw {A} (e : exn) : M A := fun st => (inl e, st).

Notation "x <- m ;; k" := (bind m (fun x => k))
  (at level 61, m at next level, right associativity).
Notation "m ;;; k" := (bind m (fun _ => k))
  (at level 61, right associativity).

(** [for (const i of l) acc = body(acc, i)], with the arrays a loop pushes
    to as its accumulator. *)
Fixpoint foldM {A I} (body : A -> I -> M A) (l : list I) (acc : A) : M A :=
  match l with
  | [] => ret acc
  | i :: l' => acc' <- body acc i ;; foldM body l' acc'
  end.

(** [for (let i = 0; i < n; i++)]. *)
Definition range (n : nat) : list nat := seq 0 n.

(** [z3.Solver()]: a solver with no assertion. *)
Definition Solver : M unit :=
  fun st => (inr tt, mkState [] (calls st)).

(** [solver.add(c)]. *)
Definition add (c : Z3Bool) : M unit :=
  fun st => (inr tt, mkState (assertions st ++ [c]) (calls st)).

(** [a[i]] where the value is handed to Z3 next: an index out of range
    reads [undefined], which is no Z3 term or numeral, and the bridge call
    that receives it raises. *)
Definition at_ {A} (a : list A) (i : nat) : M A :=
  match nth_error a i with
  | Some v => ret v
  | None => throw (Error "undefined is not a Z3 value")
  end.

(** [try { m } catch (error) { handler(error) }] *)
Definition tryCatch {A} (m : M A) (handler : exn -> M A) : M A :=
  fun st =>
    match m st with
    | (inl error, st') => handler error st'
    | (inr a, st') => (inr a, st')
    end.

(** The state a request starts from: no solver yet, no call made. *)
Definition initial : Z3State := mkState [] [].

(* ================================================================== *)
(** ** Request payloads and responses *)

Module Json.

(** A JSON number as the board check observes it: [Number.isInteger]
    holds of [Integral z] only; [NonIntegral] stands for every other
    number (a fraction, or an overflow to Infinity). *)
Inductive number : Type :=
| Integral (z : Z)
| NonIntegral.

Inductive value : Type :=
| Null
| Boolean (b : bool)
| Number (n : number)
| Str (s : string)
| Array (items : list value)
| Object (fields : list (string * value)).

(** The property [key] of a parsed object (its keys are unique); [None]
    is [undefined]. *)
Fixpoint lookup (key : string) (fields : list (string * value)) : option value :=
  match fields with
  | [] => None
  | (k, v) :: rest => if (k =? key)%string then Some v else lookup key rest
  end.

End Json.

(** [payload.board]: reading a property of [null] throws a TypeError; a
    value without that property reads [undefined] ([None]). *)
Definition getBoard (payload : Json.value) : M (option Json.value) :=
  match payload with
  | Json.Null =>
      throw (TypeError "Cannot read properties of null (reading 'board')")
  | Json.Object fields => ret (Json.lookup "board" fields)
  | _ => ret None
  end.

Inductive SolveResponse : Type :=
| SolutionBody (solution : list Z) (solutionCount : Z)
| ErrorBody (error : string).

Record Response : Type := mkResponse {
  status : Z;
  body : SolveResponse
}.

Definition jsonResponse (data : SolveResponse) (status : Z) : Response :=
  mkResponse status data.

Definition jsonError (message : string) (status : Z) : Response :=
  jsonResponse (ErrorBody message) status.

(* ================================================================== *)
(** ** [solveSudoku] *)

Definition GRID_SIZE : nat := 9.
Definition BOARD_SIZE : nat := GRID_SIZE * GRID_SIZE.
Definition BOX_SIZE : nat := 3.

(** [`x_${row}_${col}`] *)
Definition cellName (row col : nat) : string :=
  ("x_" ++ JS.natToString row ++ "_" ++ JS.natToString col)%string.

Section Backend.

(** The decision procedure and the model it offers after [sat], both as
    functions of the assertions the solver holds at the call. *)
Variable check : list Z3Bool -> Z3CheckResult.
Variable model : list Z3Bool -> Z3.Z3Model.

(** [solver.check()] *)
Definition solverCheck : M Z3CheckResult :=
  fun st =>
    (inr (check (assertions st)),
     mkState (assertions st) (calls st ++ [CheckCall (assertions st)])).

(** [solver.model()] *)
Definition solverModel : M Z3.Z3Model :=
  fun st =>
    (inr (model (assertions st)),
     mkState (assertions st) (calls st ++ [ModelCall (assertions st)])).

(** One variable per position, its domain bounds, and the clue when the
    board gives one. *)
Definition declareCells (board : list Z) : M (list Z3Int) :=
  foldM (fun cells row =>
    foldM (fun cells col =>
      let cell := Int (cellName row col) in
      let cells := cells ++ [cell] in
      add (Ge cell (IntVal 1)) ;;;
      add (Le cell (IntVal 9)) ;;;
      given <- at_ board (row * GRID_SIZE + col) ;;
      if negb (given =? 0)
      then add (Eq cell (IntVal given)) ;;; ret cells
      else ret cells)
    (range GRID_SIZE) cells)
  (range GRID_SIZE) [].

(** Row constraints. *)
Definition rowConstraints (cells : list Z3Int) : M unit :=
  foldM (fun _ row =>
    rowCells <- foldM (fun rowCells col =>
                  cell <- at_ cells (row * GRID_SIZE + col) ;;
                  ret (rowCells ++ [cell]))
                (range GRID_SIZE) [] ;;
    add (Distinct rowCells))
  (range GRID_SIZE) tt.

(** Column constraints. *)
Definition colConstraints (cells : list Z3Int) : M unit :=
  foldM (fun _ col =>
    colCells <- foldM (fun colCells row =>
                  cell <- at_ cells (row * GRID_SIZE + col) ;;
                  ret (colCells ++ [cell]))
                (range GRID_SIZE) [] ;;
    add (Distinct colCells))
  (range GRID_SIZE) tt.

(** Subgrid constraints. *)
Definition boxConstraints (cells : list Z3Int) : M unit :=
  foldM (fun _ boxRow =>
    foldM (fun _ boxCol =>
      boxCells <- foldM (fun boxCells row =>
                    foldM (fun boxCells col =>
                      let r := (boxRow * BOX_SIZE + row)%nat in
                      let c := (boxCol * BOX_SIZE + col)%nat in
                      cell <- at_ cells (r * GRID_SIZE + c) ;;
                      ret (boxCells ++ [cell]))
                    (range BOX_SIZE) boxCells)
                  (range BOX_SIZE) [] ;;
      add (Distinct boxCells))
    (range BOX_SIZE) tt)
  (range BOX_SIZE) tt.

(** The constraint-construction part: a fresh solver, then the cells and
    the 27 groups. *)
Definition encode (board : list Z) : M (list Z3Int) :=
  Solver ;;;
  cells <- declareCells board ;;
  rowConstraints cells ;;;
  colConstraints cells ;;;
  boxConstraints cells ;;;
  ret cells.

(** Reading the model back, cell by cell. *)
Definition readSolution (m : Z3.Z3Model) (cells : list Z3Int) : M (list Z) :=
  foldM (fun solution cell =>
    let raw := m cell in
    let value := JS.parseInt (Z3.toString raw) in
    match value with
    | None (* !Number.isFinite(value) *) =>
        throw (Error ("Failed to parse solver value: " ++ Z3.toString raw)%string)
    | Some v => ret (solution ++ [v])
    end)
  cells [].

(** [cell != value] for every cell. *)
Definition blockSolution (cells : list Z3Int) (solution : list Z)
  : M (list Z3Bool) :=
  foldM (fun blockConstraints i =>
    cell <- at_ cells i ;;
    value <- at_ solution i ;;
    let notEqual := Not (Eq cell (IntVal value)) in
    ret (blockConstraints ++ [notEqual]))
  (range (List.length cells)) [].

(** The body shared by [main.ts] and [q.ts]; they differ in the class of
    the exception thrown when the first check is not "sat". *)
Definition solveWith (noSolution : string -> exn) (board : list Z)
  : M (list Z * Z) :=
  cells <- encode board ;;
  result <- solverCheck ;;
  if negb (Z3.checkToString result =? "sat")%string
  then throw (noSolution "Sudoku has no solution.")
  else
    m <- solverModel ;;
    solution <- readSolution m cells ;;
    blockConstraints <- blockSolution cells solution ;;
    add (Or blockConstraints) ;;;
    nextResult <- solverCheck ;;
    let hasMultipleSolutions := (Z3.checkToString nextResult =? "sat")%string in
    let solutionCount := if hasMultipleSolutions then 2 else 1 in
    ret (solution, solutionCount).

(** [solveSudoku] of [main.ts]. *)
Definition solveSudoku (board : list Z) : M (list Z * Z) :=
  solveWith SudokuUnsolvableError board.

(** The entry check of [handleSolveRequest] on the members of
    [payload.board]: the first member that is not an integer in 0..9 ends
    the request. *)
Fixpoint readBoard (entries : list Json.value) (board : list Z)
  : Response + list Z :=
  match entries with
  | [] => inr board
  | value :: rest =>
      match value with
      | Json.Number (Json.Integral v) =>
          if (v <? 0) || (v >? 9)
          then inl (jsonError "Board entries must be integers in the range 0-9." 400)
          else readBoard rest (board ++ [v])
      | _ => inl (jsonError "Board entries must be integers in the range 0-9." 400)
      end
  end.

(** [handleSolveRequest] of [main.ts]; [req] is [None] when [req.json()]
    throws. *)
Definition handleSolveRequest (req : option Json.value) : M Response :=
  match req with
  | None => ret (jsonError "Invalid JSON payload." 400)
  | Some payload =>
      board <- getBoard payload ;;
      match board with
      | Some (Json.Array entries) =>
          if negb (List.length entries =? BOARD_SIZE)%nat
          then ret (jsonError
                      ("Expected board length " ++ JS.natToString BOARD_SIZE ++ ".")%string
                      400)
          else
            match readBoard entries [] with
            | inl response => ret response
            | inr board =>
                tryCatch
                  (result <- solveSudoku board ;;
                   ret (jsonResponse (SolutionBody (fst result) (snd result)) 200))
                  (fun error =>
                     match error with
                     | SudokuUnsolvableError _ =>
                         ret (jsonError "The provided Sudoku board is unsatisfiable." 422)
                     | _ => ret (jsonError "Internal solver error." 500)
                     end)
            end
      | _ => ret (jsonError "Expected `board` to be an array of numbers." 400)
      end
  end.

End Backend.

(* ================================================================== *)
(** ** The solver subprocess ([q.ts]) *)

Inductive SolverOutput : Type :=
| Success (solution : list Z) (solutionCount : Z)
| Failure (error : string).

Module SolverProcess.
Section Backend.

Variable check : list Z3Bool -> Z3CheckResult.
Variable model : list Z3Bool -> Z3.Z3Model.

(** Same body as in [main.ts], with a plain [Error] when the first check
    is not "sat". *)
Definition solveSudoku (board : list Z) : M (list Z * Z) :=
  solveWith check model Error board.

(** [main]: the board read from standard input, the outcome written to
    standard output; every exception becomes [{success: false, error}]. *)
Definition main (board : list Z) : M SolverOutput :=
  tryCatch
    (result <- solveSudoku board ;;
     ret (Success (fst result) (snd result)))
    (fun error => ret (Failure (exnMessage error))).

End Backend.
End SolverProcess.

(* ================================================================== *)
(** ** The process-isolated server ([main.ts], third variant) *)

(** [signal.aborted] at the two places it is read. *)
Record AbortSignal : Type := mkSignal {
  abortedOnEntry : bool;
  abortedAfterOutput : bool
}.

(** What [process.output()] resolves to, [stdout] already decoded. *)
Record ProcessOutput : Type := mkOutput {
  code : Z;
  stdout : SolverOutput
}.

Module Isolated.
Section Process.

(** The spawned solver, as a function of the board written to its
    standard input. *)
Variable process : list Z -> M ProcessOutput.

(** [solveSudokuInProcess], by its outcome. The process is spawned before
    [signal.aborted] is first read, and killed when the request is
    already aborted; a process that is given no board does nothing to the
    state. *)
Definition solveSudokuInProcess (board : list Z) (signal : AbortSignal)
  : M (list Z * Z) :=
  if abortedOnEntry signal
  then throw (AbortError "Request was aborted")
  else
    out <- process board ;;
    if abortedAfterOutput signal
    then throw (AbortError "Request was aborted")
    else if negb (code out =? 0)
    then throw (Error ("Solver process exited with code "
                         ++ JS.intToString (code out))%string)
    else
      match stdout out with
      | Failure error => throw (SudokuUnsolvableError error)
      | Success solution solutionCount => ret (solution, solutionCount)
      end.

Definition handleSolveRequest (req : option Json.value) (signal : AbortSignal)
  : M Response :=
  match req with
  | None => ret (jsonError "Invalid JSON payload." 400)
  | Some payload =>
      board <- getBoard payload ;;
      match board with
      | Some (Json.Array entries) =>
          if negb (List.length entries =? BOARD_SIZE)%nat
          then ret (jsonError
                      ("Expected board length " ++ JS.natToString BOARD_SIZE ++ ".")%string
                      400)
          else
            match readBoard entries [] with
            | inl response => ret response
            | inr board =>
                tryCatch
                  (result <- solveSudokuInProcess board signal ;;
                   ret (jsonResponse (SolutionBody (fst result) (snd result)) 200))
                  (fun error =>
                     match error with
                     | AbortError _ => ret (jsonError "Request was cancelled." 499)
                     | SudokuUnsolvableError _ =>
                         ret (jsonError "The provided Sudoku board is unsatisfiable." 422)
                     | _ => ret (jsonError "Internal solver error." 500)
                     end)
            end
      | _ => ret (jsonError "Expected `board` to be an array of numbers." 400)
      end
  end.

End Process.

(** The solver process when it runs to the end of [main]: exit code 0 and
    the one line [main] wrote. *)
Definition solverProcess (check : list Z3Bool -> Z3CheckResult)
    (model : list Z3Bool -> Z3.Z3Model) (board : list Z) : M ProcessOutput :=
  output <- SolverProcess.main check model board ;;
  ret (mkOutput 0 output).

End Isolated.

(* ================================================================== *)
(** ** What the encoder leaves in the solver, in closed form *)

(** The cell variables, in the order [declareCells] pushes them. *)
Definition allCells : list Z3Int :=
  flat_map (fun row => map (fun col => Int (cellName row col)) (range GRID_SIZE))
           (range GRID_SIZE).

(** The assertions added for one cell. *)
Definition cellAssertions (board : list Z) (row col : nat) : list Z3Bool :=
  let cell := Int (cellName row col) in
  [Ge cell (IntVal 1); Le cell (IntVal 9)]
  ++ match nth_error board (row * GRID_SIZE + col) with
     | Some given => if negb (given =? 0) then [Eq cell (IntVal given)] else []
     | None => []
     end.

(** The positions of the 27 groups, as the three loops enumerate them. *)
Definition rowIdx (row : nat) : list nat :=
  map (fun col => (row * GRID_SIZE + col)%nat) (range GRID_SIZE).

Definition colIdx (col : nat) : list nat :=
  map (fun row => (row * GRID_SIZE + col)%nat) (range GRID_SIZE).

Definition boxIdx (boxRow boxCol : nat) : list nat :=
  flat_map (fun row =>
    map (fun col =>
      ((boxRow * BOX_SIZE + row) * GRID_SIZE + (boxCol * BOX_SIZE + col))%nat)
      (range BOX_SIZE))
    (range BOX_SIZE).

Definition groupIdxs : list (list nat) :=
  map rowIdx (range GRID_SIZE)
  ++ map colIdx (range GRID_SIZE)
  ++ flat_map (fun boxRow => map (boxIdx boxRow) (range BOX_SIZE)) (range BOX_SIZE).

Definition cellVar (k : nat) : Z3Int := nth k allCells (Int "").

Definition groupAssertion (idx : list nat) : Z3Bool :=
  Distinct (map cellVar idx).

(** The constraint system of a board. *)
Definition constraints (board : list Z) : list Z3Bool :=
  flat_map (fun row => flat_map (cellAssertions board row) (range GRID_SIZE))
           (range GRID_SIZE)
  ++ map groupAssertion groupIdxs.

(** The blocking constraint for a solution. *)
Definition blockingConstraint (solution : list Z) : Z3Bool :=
  Or (map (fun k => Not (Eq (cellVar k) (IntVal (nth k solution 0))))
          (range BOARD_SIZE)).

(** The grid an interpretation gives to the cells, row-major. *)
Definition gridOf (I : Z3.Interp) : list Z := map (Z3.evalInt I) allCells.

(* ================================================================== *)
(** ** Sudoku rules on a grid of 81 values *)

Definition cellAt (g : list Z) (row col : nat) : Z :=
  nth (row * 9 + col) g 0.

Definition rowValues (g : list Z) (row : nat) : list Z :=
  map (fun col => cellAt g row col) (range 9).

Definition colValues (g : list Z) (col : nat) : list Z :=
  map (fun row => cellAt g row col) (range 9).

(** The box of a position is [(row / 3, col / 3)]. *)
Definition inBox (boxRow boxCol k : nat) : bool :=
  ((k / 9 / 3 =? boxRow) && (k mod 9 / 3 =? boxCol))%nat.

Definition boxValues (g : list Z) (boxRow boxCol : nat) : list Z :=
  map (fun k => nth k g 0) (filter (inBox boxRow boxCol) (range 81)).

(** Each value 1..9 exactly once. *)
Definition eachOnce (l : list Z) : Prop :=
  forall v, 1 <= v <= 9 -> count_occ Z.eq_dec l v = 1%nat.

Definition validGrid (g : list Z) : Prop :=
  List.length g = 81%nat
  /\ (forall row, (row < 9)%nat -> eachOnce (rowValues g row))
  /\ (forall col, (col < 9)%nat -> eachOnce (colValues g col))
  /\ (forall boxRow boxCol, (boxRow < 3)%nat -> (boxCol < 3)%nat ->
        eachOnce (boxValues g boxRow boxCol)).

(** The grid keeps every clue of the board. *)
Definition keepsClues (board g : list Z) : Prop :=
  forall k given, nth_error board k = Some given -> given <> 0 ->
                  nth_error g k = Some given.

Definition isSolutionOf (board g : list Z) : Prop :=
  validGrid g /\ keepsClues board g.

(* ================================================================== *)
(** ** The contract of the backend *)

Definition varsInt (e : Z3Int) : list string :=
  match e with Int x => [x] | IntVal _ => [] end.

Fixpoint vars (b : Z3Bool) : list string :=
  match b with
  | Ge x y | Le x y | Eq x y => varsInt x ++ varsInt y
  | Distinct args => flat_map varsInt args
  | Or args => flat_map vars args
  | Not e => vars e
  end.

Definition occursIn (x : string) (cs : list Z3Bool) : Prop :=
  exists c, In c cs /\ In x (vars c).

Section Contract.

Variable check : list Z3Bool -> Z3CheckResult.
Variable model : list Z3Bool -> Z3.Z3Model.

(** "sat" comes with a model: an interpretation that satisfies every
    assertion, and whose value is what [evaluate] returns, as a numeral,
    for every constant of the assertions. *)
Definition satSound : Prop :=
  forall cs, check cs = sat ->
    exists I, Z3.satisfies I cs
              /\ forall x, occursIn x cs -> model cs (Int x) = IntVal (I x).

(** "unsat" is only answered when no interpretation satisfies the
    assertions. *)
Definition unsatSound : Prop :=
  forall cs, check cs = unsat -> forall I, ~ Z3.satisfies I cs.

End Contract.

(* ================================================================== *)
(** ** Grids as interpretations, and a small backend that meets the contract *)

(** A grid read as an interpretation of the cell variables: the value of
    [x_r_c] is the entry at the position of that name among the cells. *)
Fixpoint indexOf (x : string) (l : list Z3Int) (k : nat) : option nat :=
  match l with
  | [] => None
  | Int y :: t => if (x =? y)%string then Some k else indexOf x t (S k)
  | IntVal _ :: t => indexOf x t (S k)
  end.

Definition interpOf (g : list Z) : Z3.Interp :=
  fun x => match indexOf x allCells 0 with
           | Some k => nth k g 0
           | None => 0
           end.

Module Toy.

Definition isClue (x : string) (v : Z) (c : Z3Bool) : bool :=
  match c with
  | Eq (Int y) (IntVal w) => (x =? y)%string && (v =? w)
  | _ => false
  end.

(** A disjunction of [cell != value] each of whose members is denied by
    an asserted [cell == value]. *)
Definition refuted (cs : list Z3Bool) (c : Z3Bool) : bool :=
  match c with
  | Or ds =>
      forallb (fun d => match d with
                        | Not (Eq (Int x) (IntVal v)) => existsb (isClue x v) cs
                        | _ => false
                        end) ds
  | _ => false
  end.

(** Tries the candidate grids in turn; gives up unless one of them works
    or a disjunction is refuted by the clues. *)
Definition check (candidates : list (list Z)) (cs : list Z3Bool)
  : Z3CheckResult :=
  match find (fun g => Z3.satisfiesb (interpOf g) cs) candidates with
  | Some _ => sat
  | None => if existsb (refuted cs) cs then unsat else unknown
  end.

Definition model (candidates : list (list Z)) (cs : list Z3Bool) : Z3.Z3Model :=
  fun e =>
    match find (fun g => Z3.satisfiesb (interpOf g) cs) candidates with
    | Some g => IntVal (Z3.evalInt (interpOf g) e)
    | None => e
    end.

(** A backend that always gives up. *)
Definition giveUp (cs : list Z3Bool) : Z3CheckResult := unknown.

(** A backend outside the contract: "sat" with a model that evaluates
    nothing. *)
Definition alwaysSat (cs : list Z3Bool) : Z3CheckResult := sat.
Definition emptyModel (cs : list Z3Bool) : Z3.Z3Model := fun e => e.

Definition solved : list Z :=
  [5;3;4;6;7;8;9;1;2;
   6;7;2;1;9;5;3;4;8;
   1;9;8;3;4;2;5;6;7;
   8;5;9;7;6;1;4;2;3;
   4;2;6;8;5;3;7;9;1;
   7;1;3;9;2;4;8;5;6;
   9;6;1;5;3;7;2;8;4;
   2;8;7;4;1;9;6;3;5;
   3;4;5;2;8;6;1;7;9].

(** The same grid with the values 1 and 2 exchanged. *)
Definition solved' : list Z :=
  map (fun v => if v =? 1 then 2 else if v =? 2 then 1 else v) solved.

Definition blank : list Z := repeat 0 81.

(** A puzzle whose solution is [solved]. *)
Definition puzzle : list Z :=
  [5;3;0;0;7;0;0;0;0;
   6;0;0;1;9;5;0;0;0;
   0;9;8;0;0;0;0;6;0;
   8;0;0;0;6;0;0;0;3;
   4;0;0;8;0;3;0;0;1;
   7;0;0;0;2;0;0;0;6;
   0;6;0;0;0;0;2;8;0;
   0;0;0;4;1;9;0;0;5;
   0;0;0;0;8;0;0;7;9].

(** Scenario D: a row starting 5, 5 and nothing else. *)
Definition twoFives : list Z := 5 :: 5 :: repeat 0 79.

End Toy.

(* ================================================================== *)
(** ** Auxiliary definitions for the proofs *)

(** The state after some assertions were added. *)
Definition addAll (cs : list Z3Bool) (st : Z3State) : Z3State :=
  mkState (assertions st ++ cs) (calls st).

(** What [readSolution] computes, without the state it leaves untouched. *)
Fixpoint readValues (m : Z3.Z3Model) (cells : list Z3Int) (solution : list Z)
  : exn + list Z :=
  match cells with
  | [] => inr solution
  | cell :: rest =>
      match JS.parseInt (Z3.toString (m cell)) with
      | None =>
          inl (Error ("Failed to parse solver value: " ++ Z3.toString (m cell))%string)
      | Some v => readValues m rest (solution ++ [v])
      end
  end.

(** The outcome of [solveWith] on a board of 81 entries, and the state it
    leaves: the assertions of the solver and the calls made. *)
Definition rounds (check : list Z3Bool -> Z3CheckResult)
    (model : list Z3Bool -> Z3.Z3Model)
    (noSolution : string -> exn) (board : list Z) (st : Z3State)
  : (exn + list Z * Z) * Z3State :=
  let cs := constraints board in
  match check cs with
  | sat =>
      match readValues (model cs) allCells [] with
      | inl e => (inl e, mkState cs (calls st ++ [CheckCall cs] ++ [ModelCall cs]))
      | inr solution =>
          let cs' := cs ++ [blockingConstraint solution] in
          (inr (solution, match check cs' with sat => 2 | _ => 1 end),
           mkState cs' ((calls st ++ [CheckCall cs] ++ [ModelCall cs])
                        ++ [CheckCall cs']))
      end
  | _ => (inl (noSolution "Sudoku has no solution."),
          mkState cs (calls st ++ [CheckCall cs]))
  end.

(** The assertions of the cell at position [k]. *)
Definition clueAssertion (board : list Z) (k : nat) : list Z3Bool :=
  match nth_error board k with
  | Some given => if negb (given =? 0) then [Eq (cellVar k) (IntVal given)] else []
  | None => []
  end.

Definition cellAssertionsAt (board : list Z) (k : nat) : list Z3Bool :=
  [Ge (cellVar k) (IntVal 1); Le (cellVar k) (IntVal 9)] ++ clueAssertion board k.

(** Every value is in 1..9. *)
Definition domainOk (g : list Z) : Prop :=
  forall k, (k < 81)%nat -> 1 <= nth k g 0 <= 9.

(** No value twice in a group. *)
Definition groupsDistinct (g : list Z) : Prop :=
  forall idx, In idx groupIdxs -> NoDup (map (fun k => nth k g 0) idx).

Definition digits19 : list Z := [1; 2; 3; 4; 5; 6; 7; 8; 9].


(** The Sudoku rules, decided. *)
Definition validGridb (g : list Z) : bool :=
  (List.length g =? 81)%nat
  && forallb (fun k => (1 <=? nth k g 0) && (nth k g 0 <=? 9)) (range 81)
  && forallb (fun idx => Z3.distinctb (map (fun k => nth k g 0) idx)) groupIdxs.

(** Two positions share a row, a column or a box. *)
Definition sameGroup (i j : nat) : Prop :=
  (i / 9 = j / 9)%nat
  \/ (i mod 9 = j mod 9)%nat
  \/ ((i / 9 / 3 = j / 9 / 3)%nat /\ (i mod 9 / 3 = j mod 9 / 3)%nat).

(* ================================================================== *)
(** ** Statements settled in the negative *)

(** The uniqueness flag is right on every successful run. *)
Definition flagCorrect (check : list Z3Bool -> Z3CheckResult)
    (model : list Z3Bool -> Z3.Z3Model) : Prop :=
  forall board st solution solutionCount st',
    List.length board = 81%nat ->
    solveSudoku check model board st = (inr (solution, solutionCount), st') ->
    (solutionCount = 1 -> forall g, isSolutionOf board g -> g = solution)
    /\ (solutionCount = 2 -> exists g, isSolutionOf board g /\ g <> solution).

(** "unknown" at the first round is not reported as unsolvable. *)
Definition firstUnknownDistinct (check : list Z3Bool -> Z3CheckResult)
    (model : list Z3Bool -> Z3.Z3Model) : Prop :=
  forall board st,
    List.length board = 81%nat ->
    check (constraints board) = unknown ->
    forall message,
      fst (solveSudoku check model board st) <> inl (SudokuUnsolvableError message).

(** "unknown" at the second round is not reported as "unique". *)
Definition secondUnknownDistinct (check : list Z3Bool -> Z3CheckResult)
    (model : list Z3Bool -> Z3.Z3Model) : Prop :=
  forall board st solution solutionCount st',
    List.length board = 81%nat ->
    solveSudoku check model board st = (inr (solution, solutionCount), st') ->
    check (constraints board ++ [blockingConstraint solution]) = unknown ->
    solutionCount <> 1.

(** A filled, consistent board is returned as it is, as "unique", the
    second round answering "unsat". *)
Definition filledBoardUnique (check : list Z3Bool -> Z3CheckResult)
    (model : list Z3Bool -> Z3.Z3Model) : Prop :=
  forall board st,
    validGrid board ->
    (exists st', solveSudoku check model board st = (inr (board, 1), st'))
    /\ check (constraints board ++ [blockingConstraint board]) = unsat.

(** The request body [{"board": [...]}] for a board of integers. *)
Definition boardPayload (board : list Z) : Json.value :=
  Json.Object
    [("board", Json.Array (map (fun v => Json.Number (Json.Integral v)) board))].

(** What [handleSolveRequest] answers once the board passed the entry
    check, from the outcome of [solveSudoku]. *)
Definition respond (outcome : (exn + list Z * Z) * Z3State)
  : (exn + Response) * Z3State :=
  match outcome with
  | (inr result, st') =>
      (inr (jsonResponse (SolutionBody (fst result) (snd result)) 200), st')
  | (inl (SudokuUnsolvableError _), st') =>
      (inr (jsonError "The provided Sudoku board is unsatisfiable." 422), st')
  | (inl _, st') => (inr (jsonError "Internal solver error." 500), st')
  end.

(** [payload.board] for a payload that is not [null]. *)
Definition boardOf (payload : Json.value) : option Json.value :=
  match payload with
  | Json.Object fields => Json.lookup "board" fields
  | _ => None
  end.

(** The shape and range precondition on [payload.board]: an array of
    exactly 81 integers, each in 0..9. *)
Definition wellFormedBoard (v : option Json.value) : Prop :=
  exists board,
    v = Some (Json.Array (map (fun x => Json.Number (Json.Integral x)) board))
    /\ List.length board = 81%nat
    /\ Forall (fun x => 0 <= x <= 9) board.

(** A computation whose result and added assertions do not depend on the
    state it starts from, and which makes no call to the backend. *)
Definition writesOnly {A} (m : M A) : Prop :=
  exists r added, forall st, m st = (r, addAll added st).

(** What the process-isolated handler answers once the board passed the
    entry check. *)
Definition respondIsolated (outcome : (exn + list Z * Z) * Z3State)
  : (exn + Response) * Z3State :=
  match outcome with
  | (inr result, st') =>
      (inr (jsonResponse (SolutionBody (fst result) (snd result)) 200), st')
  | (inl (AbortError _), st') =>
      (inr (jsonError "Request was cancelled." 499), st')
  | (inl (SudokuUnsolvableError _), st') =>
      (inr (jsonError "The provided Sudoku board is unsatisfiable." 422), st')
  | (inl _, st') => (inr (jsonError "Internal solver error." 500), st')
  end.

(* ================================================================== *)
(** ** The copy of [main.ts] that logs every step *)

(** [console.log] is not part of the state of a run and is left out; the
    calls to Z3 are kept in the order of the source. *)
Module Verbose.
Section Backend.

Variable check : list Z3Bool -> Z3CheckResult.
Variable model : list Z3Bool -> Z3.Z3Model.

(** The cells and, beside them, their names. *)
Definition declareCells (board : list Z) : M (list Z3Int * list string) :=
  foldM (fun acc row =>
    foldM (fun '(cells, cellNames) col =>
      let cellName := cellName row col in
      let cell := Int cellName in
      let cells := cells ++ [cell] in
      let cellNames := cellNames ++ [cellName] in
      let one := IntVal 1 in
      let geConstraint := Ge cell one in
      add geConstraint ;;;
      let nine := IntVal 9 in
      let leConstraint := Le cell nine in
      add leConstraint ;;;
      given <- at_ board (row * GRID_SIZE + col) ;;
      if negb (given =? 0)
      then
        let givenVal := IntVal given in
        let eqConstraint := Eq cell givenVal in
        add eqConstraint ;;; ret (cells, cellNames)
      else ret (cells, cellNames))
    (range GRID_SIZE) acc)
  (range GRID_SIZE) ([], []).

(** The model read back with an index loop. *)
Definition readSolution (m : Z3.Z3Model) (cells : list Z3Int) : M (list Z) :=
  foldM (fun solution i =>
    cell <- at_ cells i ;;
    let raw := m cell in
    let value := JS.parseInt (Z3.toString raw) in
    match value with
    | None (* !Number.isFinite(value) *) =>
        throw (Error ("Failed to parse solver value: " ++ Z3.toString raw)%string)
    | Some v => ret (solution ++ [v])
    end)
  (range (List.length cells)) [].

(** The blocking loop, over the names: each cell constant is made again
    from its name. *)
Definition blockSolution (cellNames : list string) (solution : list Z)
  : M (list Z3Bool) :=
  foldM (fun blockConstraints i =>
    name <- at_ cellNames i ;;
    let freshCell := Int name in
    value <- at_ solution i ;;
    let intVal := IntVal value in
    let eqResult := Eq freshCell intVal in
    let notEqual := Not eqResult in
    ret (blockConstraints ++ [notEqual]))
  (range (List.length cellNames)) [].

Definition solveSudoku (board : list Z) : M (list Z * Z) :=
  Solver ;;;
  declared <- declareCells board ;;
  let cells := fst declared in
  let cellNames := snd declared in
  rowConstraints cells ;;;
  colConstraints cells ;;;
  boxConstraints cells ;;;
  result <- solverCheck check ;;
  if negb (Z3.checkToString result =? "sat")%string
  then throw (SudokuUnsolvableError "Sudoku has no solution.")
  else
    m <- solverModel model ;;
    solution <- readSolution m cells ;;
    blockConstraints <- blockSolution cellNames solution ;;
    let orConstraint := Or blockConstraints in
    add orConstraint ;;;
    nextResult <- solverCheck check ;;
    let hasMultipleSolutions := (Z3.checkToString nextResult =? "sat")%string in
    let solutionCount := if hasMultipleSolutions then 2 else 1 in
    ret (solution, solutionCount).

Definition handleSolveRequest (req : option Json.value) : M Response :=
  match req with
  | None => ret (jsonError "Invalid JSON payload." 400)
  | Some payload =>
      board <- getBoard payload ;;
      match board with
      | Some (Json.Array entries) =>
          if negb (List.length entries =? BOARD_SIZE)%nat
          then ret (jsonError
                      ("Expected board length " ++ JS.natToString BOARD_SIZE ++ ".")%string
                      400)
          else
            match readBoard entries [] with
            | inl response => ret response
            | inr board =>
                tryCatch
                  (result <- solveSudoku board ;;
                   ret (jsonResponse (SolutionBody (fst result) (snd result)) 200))
                  (fun error =>
                     match error with
                     | SudokuUnsolvableError _ =>
                         ret (jsonError "The provided Sudoku board is unsatisfiable." 422)
                     | _ => ret (jsonError "Internal solver error." 500)
                     end)
            end
      | _ => ret (jsonError "Expected `board` to be an array of numbers." 400)
      end
  end.

End Backend.
End Verbose.

(** Two computations with the same outcome and final state from every
    state, their results related by [R]. *)
Definition simM {A B} (R : A -> B -> Prop) (m1 : M A) (m2 : M B) : Prop :=
  forall st,
    match m1 st, m2 st with
    | (inr a, s1), (inr b, s2) => R a b /\ s1 = s2
    | (inl e1, s1), (inl e2, s2) => e1 = e2 /\ s1 = s2
    | _, _ => False
    end.

(** A list of cells and the list of their names. *)
Definition namesOf (cells : list Z3Int) (p : list Z3Int * list string) : Prop :=
  fst p = cells /\ cells = map Int (snd p).

(* ================================================================== *)
(** ** Static assets and the dispatch of requests *)

Module JSString.

(** [s.replace(/^\/+/g, "")]: the leading slashes removed. *)
Fixpoint stripLeadingSlashes (s : string) : string :=
  match s with
  | String "/" s' => stripLeadingSlashes s'
  | _ => s
  end.

(** [s.startsWith(p)] *)
Definition startsWith (p s : string) : bool := String.prefix p s.

(** [s.includes(sub)] *)
Fixpoint includes (sub s : string) : bool :=
  String.prefix sub s
  || match s with
     | String _ s' => includes sub s'
     | EmptyString => false
     end.

(** [s.endsWith(suf)] *)
Fixpoint endsWith (suf s : string) : bool :=
  (s =? suf)%string
  || match s with
     | String _ s' => endsWith suf s'
     | EmptyString => false
     end.

End JSString.

(** What the server answers: a JSON response of the solver API, the plain
    "Not found", or a file. *)
Inductive HttpResponse (File : Type) : Type :=
| ApiResponse (r : Response)
| NotFound
| FileResponse (file : File).
Arguments ApiResponse {File} r.
Arguments NotFound {File}.
Arguments FileResponse {File} file.

Section Assets.

(** The directory of the frontend, [normalize(join(root, path))] and
    [serveFile] of the standard library ([None] when it throws). *)
Variable File : Type.
Variable FRONTEND_ROOT : string.
Variable normalizeJoin : string -> string -> string.
Variable serveFile : string -> option File.

(** The path looked up under the frontend directory: the index page for
    the root, otherwise the path without its leading slashes. *)
Definition relativePathOf (pathname : string) : string :=
  if (pathname =? "/")%string || (pathname =? "")%string
  then "index.html"
  else JSString.stripLeadingSlashes pathname.

(** [serveStaticAsset] of [main.ts]. *)
Definition serveStaticAsset (pathname : string) : HttpResponse File :=
  let relativePath := relativePathOf pathname in
  if JSString.includes ".." relativePath then NotFound
  else
    let filePath := normalizeJoin FRONTEND_ROOT relativePath in
    if negb (JSString.startsWith FRONTEND_ROOT filePath) then NotFound
    else
      match serveFile filePath with
      | Some file => FileResponse file
      | None => NotFound
      end.

Variable check : list Z3Bool -> Z3CheckResult.
Variable model : list Z3Bool -> Z3.Z3Model.

(** The handler given to [Deno.serve], from the point where [pathname]
    has been read off the URL: [method] and [pathname] of the request,
    and its body as [handleSolveRequest] reads it. *)
Definition serve (method pathname : string) (body : option Json.value)
  : M (HttpResponse File) :=
  if (method =? "POST")%string && (pathname =? "/api/solve")%string
  then response <- handleSolveRequest check model body ;; ret (ApiResponse response)
  else ret (serveStaticAsset pathname).

(** [new URL(req.url).pathname]: the URL parser of the platform, which
    resolves the "." and ".." segments of a path. *)
Variable pathnameOf : string -> string.

(** The handler given to [Deno.serve], on the method, the URL and the
    body of a request. *)
Definition serveRequest (method url : string) (body : option Json.value)
  : M (HttpResponse File) :=
  let pathname := pathnameOf url in
  serve method pathname body.

End Assets.

(** A file answered by the process-isolated server: the body fetched and
    the content type chosen for it. *)
Record FetchedFile (Body : Type) : Type := mkFetched {
  fetchedBody : Body;
  contentType : string
}.
Arguments mkFetched {Body} fetchedBody contentType.
Arguments fetchedBody {Body} f.
Arguments contentType {Body} f.

Module IsolatedAssets.
Section Assets.

(** [new URL(path, FRONTEND_ROOT).href] and [fetch] ([None] when it
    throws; otherwise the body and the content-type header, if any). *)
Variable Body : Type.
Variable FRONTEND_ROOT : string.
Variable resolve : string -> string -> string.
Variable fetch : string -> option (Body * option string).

Definition contentTypeOf (filePath : string) (header : option string) : string :=
  if JSString.endsWith ".html" filePath then "text/html; charset=utf-8"
  else if JSString.endsWith ".css" filePath then "text/css"
  else if JSString.endsWith ".js" filePath then "application/javascript"
  else match header with
       | Some h => if (h =? "")%string then "text/html; charset=utf-8" else h
       | None => "text/html; charset=utf-8"
       end.

Definition serveStaticAsset (pathname : string)
  : HttpResponse (FetchedFile Body) :=
  let relativePath := relativePathOf pathname in
  if JSString.includes ".." relativePath then NotFound
  else
    let filePath := resolve relativePath FRONTEND_ROOT in
    if negb (JSString.startsWith FRONTEND_ROOT filePath) then NotFound
    else
      match fetch filePath with
      | Some (body, header) =>
          FileResponse (mkFetched body (contentTypeOf filePath header))
      | None => NotFound
      end.

Variable process : list Z -> M ProcessOutput.

Definition serve (method pathname : string) (body : option Json.value)
    (signal : AbortSignal) : M (HttpResponse (FetchedFile Body)) :=
  if (method =? "POST")%string && (pathname =? "/api/solve")%string
  then response <- Isolated.handleSolveRequest process body signal ;;
       ret (ApiResponse response)
  else ret (serveStaticAsset pathname).

(** [new URL(req.url).pathname] *)
Variable pathnameOf : string -> string.

(** The handler given to [Deno.serve], on the method, the URL, the body
    and the abort signal of a request. *)
Definition serveRequest (method url : string) (body : option Json.value)
    (signal : AbortSignal) : M (HttpResponse (FetchedFile Body)) :=
  let pathname := pathnameOf url in
  serve method pathname body signal.

End Assets.
End IsolatedAssets.

(** A small URL parser for examples: the pathname of an http URL whose
    path is made of plain characters. The query and the fragment are cut
    off and the "." and ".." segments are resolved. *)
Module ToyUrl.

(** What follows the scheme and the authority: from the third slash on. *)
Fixpoint fromSlash (n : nat) (s : string) : string :=
  match s with
  | EmptyString => "/"
  | String c s' =>
      if Ascii.eqb c "/"
      then match n with
           | O => s
           | S n' => fromSlash n' s'
           end
      else fromSlash n s'
  end.

Fixpoint cutQuery (s : string) : string :=
  match s with
  | EmptyString => EmptyString
  | String c s' =>
      if Ascii.eqb c "?" || Ascii.eqb c "#" then EmptyString
      else String c (cutQuery s')
  end.

Fixpoint splitOn (sep : ascii) (s current : string) : list string :=
  match s with
  | EmptyString => [current]
  | String c s' =>
      if Ascii.eqb c sep then current :: splitOn sep s' ""
      else splitOn sep s' (current ++ String c "")%string
  end.

Definition resolveDots (segments : list string) : list string :=
  fold_left (fun stack segment =>
               if (segment =? "..")%string then removelast stack
               else if (segment =? ".")%string then stack
               else stack ++ [segment])
            segments [].

Definition pathnameOf (url : string) : string :=
  let path := cutQuery (fromSlash 2 url) in
  ("/" ++ String.concat "/" (resolveDots (tl (splitOn "/" path ""))))%string.

End ToyUrl.

(* ================================================================== *)
(** ** The solver process of a request, step by step *)

(** What [solveSudokuInProcess] does to the solver process, in the order
    of the source: [command.spawn()], [process.kill("SIGTERM")] for a
    request that is already aborted, the board written to the standard
    input, the standard input closed. The kill by the abort listener
    while the process runs comes at no fixed point of this order; what it
    does to the process shows in what the process outputs. *)
Inductive ProcessEvent : Type :=
| Spawned
| Killed
| InputWritten (board : list Z)
| InputClosed.

(** A computation and, beside its outcome, what it did to the solver
    process. *)
Definition Traced (A : Type) : Type :=
  Z3State -> list ProcessEvent * ((exn + A) * Z3State).

Module Trace.

Definition lift {A} (m : M A) : Traced A := fun st => ([], m st).

Definition emit (event : ProcessEvent) : Traced unit :=
  fun st => ([event], (inr tt, st)).

Definition bind {A B} (m : Traced A) (k : A -> Traced B) : Traced B :=
  fun st =>
    match m st with
    | (events, (inr a, st')) =>
        let (more, outcome) := k a st' in (events ++ more, outcome)
    | (events, (inl e, st')) => (events, (inl e, st'))
    end.

Definition tryCatch {A} (m : Traced A) (handler : exn -> Traced A) : Traced A :=
  fun st =>
    match m st with
    | (events, (inl error, st')) =>
        let (more, outcome) := handler error st' in (events ++ more, outcome)
    | (events, (inr a, st')) => (events, (inr a, st'))
    end.

End Trace.

Notation "x <~ m ;; k" := (Trace.bind m (fun x => k))
  (at level 61, m at next level, right associativity).
Notation "m ;;~ k" := (Trace.bind m (fun _ => k))
  (at level 61, right associativity).

Module IsolatedTrace.
Section Process.

(** The spawned solver, as a function of the board written to its
    standard input: a process that is given no board does nothing to the
    state. *)
Variable process : list Z -> M ProcessOutput.

(** [solveSudokuInProcess]: the process is spawned before
    [signal.aborted] is read. *)
Definition solveSudokuInProcess (board : list Z) (signal : AbortSignal)
  : Traced (list Z * Z) :=
  Trace.emit Spawned ;;~
  if abortedOnEntry signal
  then
    Trace.emit Killed ;;~
    Trace.lift (throw (AbortError "Request was aborted"))
  else
    Trace.emit (InputWritten board) ;;~
    Trace.emit InputClosed ;;~
    out <~ Trace.lift (process board) ;;
    if abortedAfterOutput signal
    then Trace.lift (throw (AbortError "Request was aborted"))
    else if negb (code out =? 0)
    then Trace.lift
           (throw (Error ("Solver process exited with code "
                            ++ JS.intToString (code out))%string))
    else
      match stdout out with
      | Failure error => Trace.lift (throw (SudokuUnsolvableError error))
      | Success solution solutionCount =>
          Trace.lift (ret (solution, solutionCount))
      end.

(** [handleSolveRequest] of the process-isolated server. *)
Definition handleSolveRequest (req : option Json.value) (signal : AbortSignal)
  : Traced Response :=
  match req with
  | None => Trace.lift (ret (jsonError "Invalid JSON payload." 400))
  | Some payload =>
      board <~ Trace.lift (getBoard payload) ;;
      match board with
      | Some (Json.Array entries) =>
          if negb (List.length entries =? BOARD_SIZE)%nat
          then Trace.lift
                 (ret (jsonError
                         ("Expected board length "
                          ++ JS.natToString BOARD_SIZE ++ ".")%string
                         400))
          else
            match readBoard entries [] with
            | inl response => Trace.lift (ret response)
            | inr board =>
                Trace.tryCatch
                  (result <~ solveSudokuInProcess board signal ;;
                   Trace.lift
                     (ret (jsonResponse
                             (SolutionBody (fst result) (snd result)) 200)))
                  (fun error =>
                     match error with
                     | AbortError _ =>
                         Trace.lift (ret (jsonError "Request was cancelled." 499))
                     | SudokuUnsolvableError _ =>
                         Trace.lift
                           (ret (jsonError
                                   "The provided Sudoku board is unsatisfiable."
                                   422))
                     | _ => Trace.lift (ret (jsonError "Internal solver error." 500))
                     end)
            end
      | _ =>
          Trace.lift
            (ret (jsonError "Expected `board` to be an array of numbers." 400))
      end
  end.

End Process.
End IsolatedTrace.

(* ================================================================== *)
(** ** The page script of the frontend *)

Module Frontend.

Definition GRID_SIZE : Z := 9.
Definition SUBGRID_SIZE : Z := 3.

(** What the script keeps in the page: the values and error marks of the
    81 input cells, the values of the solution cells, the status line and
    its class, the cell that has the focus, whether the page shows
    "loading", and whether a request is under way ([abortController]). *)
Record UI : Type := mkUI {
  inputValues : list string;
  inputErrors : list bool;
  solutionValues : list string;
  statusText : string;
  statusClass : string;
  focused : option nat;
  loading : bool;
  requestUnderWay : bool
}.

(** [a[i] = v] on an array that has an [i]th member. *)
Fixpoint setNth {A} (i : nat) (v : A) (a : list A) : list A :=
  match a, i with
  | [], _ => []
  | _ :: t, O => v :: t
  | x :: t, S i' => x :: setNth i' v t
  end.

(** The position [moveFocus] computes: [%] is the remainder of JavaScript,
    with the sign of the dividend. *)
Definition nextIndex (index rowDelta colDelta : Z) : Z :=
  let row := index / GRID_SIZE in
  let col := Z.rem index GRID_SIZE in
  let row := if negb (rowDelta =? 0)
             then Z.rem (row + rowDelta + GRID_SIZE) GRID_SIZE else row in
  let col := if negb (colDelta =? 0)
             then Z.rem (col + colDelta + GRID_SIZE) GRID_SIZE else col in
  row * GRID_SIZE + col.

(** The steps of the four arrow keys: up, down, left, right. *)
Definition arrowSteps : list (Z * Z) := [(-1, 0); (1, 0); (0, -1); (0, 1)].

(** [inputCells[i]] is an element. *)
Definition hasInput (ui : UI) (i : Z) : bool :=
  (0 <=? i) && (i <? Z.of_nat (List.length (inputValues ui))).

Definition withFocus (ui : UI) (i : nat) : UI :=
  mkUI (inputValues ui) (inputErrors ui) (solutionValues ui) (statusText ui)
       (statusClass ui) (Some i) (loading ui) (requestUnderWay ui).

Definition moveFocus (ui : UI) (index rowDelta colDelta : Z) : UI :=
  let next := nextIndex index rowDelta colDelta in
  if hasInput ui next then withFocus ui (Z.to_nat next) else ui.

Definition isDigit1to9 (c : ascii) : bool :=
  let n := nat_of_ascii c in ((49 <=? n) && (n <=? 57))%nat.

(** [value.replace(/[^1-9]/g, "")] *)
Fixpoint keepDigits (s : string) : string :=
  match s with
  | EmptyString => EmptyString
  | String c s' => if isDigit1to9 c then String c (keepDigits s') else keepDigits s'
  end.

(** [s.slice(-1)]: the last character, or the empty string. *)
Fixpoint lastChar (s : string) : string :=
  match s with
  | EmptyString => EmptyString
  | String c EmptyString => String c EmptyString
  | String _ s' => lastChar s'
  end.

(** [handleInput], for the input at [index] whose value the browser has
    just set to [value]. *)
Definition handleInput (ui : UI) (index : nat) (value : string) : UI :=
  let cleaned := keepDigits value in
  let value := lastChar cleaned in
  let ui := mkUI (setNth index value (inputValues ui))
                 (setNth index false (inputErrors ui))
                 (solutionValues ui) (statusText ui) (statusClass ui)
                 (focused ui) (loading ui) (requestUnderWay ui) in
  if negb (value =? "")%string
  then moveFocus ui (Z.of_nat index) 0 1
  else ui.

(** [handleNavigation], for a key pressed in the input at [current]. The
    default action of the browser for the key is not part of the script. *)
Definition handleNavigation (ui : UI) (key : string) (current : nat) : UI :=
  let value := nth current (inputValues ui) "" in
  let current := Z.of_nat current in
  if (key =? "ArrowUp")%string then moveFocus ui current (-1) 0
  else if (key =? "ArrowDown")%string then moveFocus ui current 1 0
  else if (key =? "ArrowLeft")%string then moveFocus ui current 0 (-1)
  else if (key =? "ArrowRight")%string || (key =? "Tab")%string
  then moveFocus ui current 0 1
  else if (key =? "Backspace")%string || (key =? "Delete")%string
  then if (value =? "")%string then moveFocus ui current 0 (-1) else ui
  else ui.

(** [s.trim()], for ASCII white space. *)
Fixpoint trimEnd (s : string) : string :=
  match s with
  | EmptyString => EmptyString
  | String c s' =>
      match trimEnd s' with
      | EmptyString => if JS.isWhiteSpace c then EmptyString
                       else String c EmptyString
      | t => String c t
      end
  end.

Definition trim (s : string) : string := trimEnd (JS.trimStart s).

Fixpoint allDigits (s : string) : bool :=
  match s with
  | EmptyString => true
  | String c s' =>
      match JS.digitOf c with Some _ => allDigits s' | None => false end
  end.

(** [Number(s)] for a string of decimal digits: the number it spells.
    [None]: not such a string; what [Number] makes of it (a fraction, a
    number in another notation, NaN) is not covered here. *)
Definition numberOfDigits (s : string) : option Z :=
  if allDigits s then JS.digits s None else None.

(** [readBoard]: 0 for an empty cell, otherwise the number in it. *)
Fixpoint readCells (values : list string) : option (list Z) :=
  match values with
  | [] => Some []
  | input :: rest =>
      let value := trim input in
      match (if (value =? "")%string then Some 0 else numberOfDigits value),
            readCells rest with
      | Some v, Some vs => Some (v :: vs)
      | _, _ => None
      end
  end.

Definition readBoard (ui : UI) : option (list Z) := readCells (inputValues ui).

(** [writeBoard(board, cellsArray)]: the cells after the loop, and whether
    it ran to its end ([false]: [cellsArray[index]] was [undefined] and the
    assignment threw). *)
Fixpoint writeBoardFrom (board : list Z) (index : nat) (cells : list string)
  : list string * bool :=
  match board with
  | [] => (cells, true)
  | value :: rest =>
      if (index <? List.length cells)%nat
      then writeBoardFrom rest (S index)
             (setNth index (if value =? 0 then "" else JS.intToString value) cells)
      else (cells, false)
  end.

Definition writeBoard (board : list Z) (cells : list string)
  : list string * bool :=
  writeBoardFrom board 0 cells.

(** A [Set] of indices and a [Map] from values to indices, both in
    insertion order. A value read out of the board is [None]
    ([undefined]). *)
Definition setAdd (x : nat) (s : list nat) : list nat :=
  if existsb (Nat.eqb x) s then s else s ++ [x].

Definition keyEqb (a b : option Z) : bool :=
  match a, b with
  | Some x, Some y => x =? y
  | None, None => true
  | _, _ => false
  end.

Fixpoint mapGet (key : option Z) (m : list (option Z * nat)) : option nat :=
  match m with
  | [] => None
  | (k, v) :: rest => if keyEqb k key then Some v else mapGet key rest
  end.

(** The body of the loop of [checkGroup], on [seen] and [conflicts]. *)
Definition checkStep (board : list Z) (st : list (option Z * nat) * list nat)
           (idx : nat) : list (option Z * nat) * list nat :=
  let '(seen, conflicts) := st in
  let value := nth_error board idx in
  if keyEqb value (Some 0) then (seen, conflicts)
  else
    match mapGet value seen with
    | Some first => (seen, setAdd first (setAdd idx conflicts))
    | None => (seen ++ [(value, idx)], conflicts)
    end.

(** [checkGroup(indices)] *)
Definition checkGroup (board : list Z) (indices : list nat) (conflicts : list nat)
  : list nat :=
  snd (fold_left (checkStep board) indices ([], conflicts)).

Definition findConflicts (board : list Z) : list nat :=
  let conflicts := [] in
  let conflicts :=
    fold_left (fun conflicts row =>
      let indices :=
        fold_left (fun indices col => indices ++ [(row * 9 + col)%nat])
                  (range 9) [] in
      checkGroup board indices conflicts)
    (range 9) conflicts in
  let conflicts :=
    fold_left (fun conflicts col =>
      let indices :=
        fold_left (fun indices row => indices ++ [(row * 9 + col)%nat])
                  (range 9) [] in
      checkGroup board indices conflicts)
    (range 9) conflicts in
  fold_left (fun conflicts boxRow =>
    fold_left (fun conflicts boxCol =>
      let indices :=
        fold_left (fun indices row =>
          fold_left (fun indices col =>
            let r := (boxRow * 3 + row)%nat in
            let c := (boxCol * 3 + col)%nat in
            indices ++ [(r * 9 + c)%nat])
          (range 3) indices)
        (range 3) [] in
      checkGroup board indices conflicts)
    (range 3) conflicts)
  (range 3) conflicts.

(** [highlightConflicts]: the error mark of every input is whether its
    index is in the set. *)
Definition highlightConflicts (ui : UI) (conflicts : list nat) : UI :=
  mkUI (inputValues ui)
       (map (fun index => existsb (Nat.eqb index) conflicts)
            (seq 0 (List.length (inputErrors ui))))
       (solutionValues ui) (statusText ui) (statusClass ui)
       (focused ui) (loading ui) (requestUnderWay ui).

(** [setStatus(message, type)]; [None] is [null]. *)
Definition setStatus (ui : UI) (message : string) (type : option string) : UI :=
  mkUI (inputValues ui) (inputErrors ui) (solutionValues ui) message
       (match type with
        | Some t => if (t =? "")%string then "status" else ("status " ++ t)%string
        | None => "status"
        end)
       (focused ui) (loading ui) (requestUnderWay ui).

(** [clearBoard] *)
Definition clearBoard (ui : UI) : UI :=
  let ui := mkUI (map (fun _ => "") (inputValues ui))
                 (map (fun _ => false) (inputErrors ui))
                 (map (fun _ => "") (solutionValues ui))
                 (statusText ui) (statusClass ui)
                 (focused ui) (loading ui) (requestUnderWay ui) in
  let ui := setStatus ui "" None in
  match inputValues ui with
  | [] => ui
  | _ :: _ => withFocus ui 0
  end.

(** What [createGrid] gives a cell and its input: the data attributes of
    the cell, the index and the label of the input, and whether the input
    is read-only. *)
Record GridCell : Type := mkCell {
  dataRow : string;
  dataCol : string;
  dataSubgridAccent : string;
  dataIndex : string;
  ariaLabel : string;
  readOnly : bool
}.

(** [createGrid(containerEl, isInput)]: the cells in the order of
    [cellsArray]. *)
Definition createGrid (isInput : bool) : list GridCell :=
  fold_left (fun cellsArray row =>
    fold_left (fun cellsArray col =>
      let subgridAccent := ((row / 3 + col / 3) mod 2)%nat in
      cellsArray
      ++ [mkCell (JS.natToString row) (JS.natToString col)
                 (if (subgridAccent =? 0)%nat then "0" else "1")
                 (JS.natToString (row * 9 + col))
                 ("Row " ++ JS.natToString (row + 1) ++ ", Column "
                  ++ JS.natToString (col + 1))%string
                 (negb isInput)])
      (range 9) cellsArray)
    (range 9) [].

(** The page once the script has run: two grids of 81 cells made by
    [createGrid], then [clearBoard]. *)
Definition start : UI :=
  clearBoard (mkUI (repeat "" 81) (repeat false 81) (repeat "" 81) "" ""
                   None false false).

(** [setLoading(isLoading)]: the label of the button and what is disabled
    follow the one flag. *)
Definition setLoading (ui : UI) (isLoading : bool) : UI :=
  mkUI (inputValues ui) (inputErrors ui) (solutionValues ui) (statusText ui)
       (statusClass ui) (focused ui) isLoading (requestUnderWay ui).

Definition withRequest (ui : UI) (underWay : bool) : UI :=
  mkUI (inputValues ui) (inputErrors ui) (solutionValues ui) (statusText ui)
       (statusClass ui) (focused ui) (loading ui) underWay.

(** [solveSudoku] of the page, up to the point where the request is sent:
    the page after it, and the board posted to /api/solve, if one is.
    [None]: [readBoard] met a cell it does not cover. *)
Definition solveClick (ui : UI) : option (UI * option (list Z)) :=
  if requestUnderWay ui
  then
    let ui := withRequest ui false in
    let ui := setLoading ui false in
    Some (setStatus ui "Cancelled" None, None)
  else
    match readBoard ui with
    | None => None
    | Some board =>
        let conflicts := findConflicts board in
        if (0 <? List.length conflicts)%nat
        then
          let ui := highlightConflicts ui conflicts in
          Some (setStatus ui "Please resolve highlighted conflicts before solving."
                          (Some "error"), None)
        else
          let ui := setStatus ui "Solving…" None in
          let ui := highlightConflicts ui [] in
          let ui := setLoading ui true in
          Some (withRequest ui true, Some board)
    end.

(** [response.ok] *)
Definition responseOk (r : Response) : bool :=
  (200 <=? status r) && (status r <=? 299).

(** [safeParseError(response)] for a response whose body is the JSON
    text of [{ error }]: the message. For another body the function
    returns the text of the body, which is not covered here ([None]). *)
Definition safeParseError (r : Response) : option string :=
  match body r with
  | ErrorBody message => Some message
  | SolutionBody _ _ => None
  end.

(** How [fetch] ends: with a response, with the rejection of an aborted
    request, or with another rejection, an [Error] with a message. *)
Inductive FetchOutcome : Type :=
| Responded (r : Response)
| Aborted
| Failed (message : string).

(** The [finally] block of [solveSudoku]. *)
Definition finish (ui : UI) : UI := setLoading (withRequest ui false) false.

(** The [catch] block, for an [Error] with a message that is not an
    abort. *)
Definition showError (ui : UI) (message : string) : UI :=
  finish (setStatus ui message (Some "error")).

(** [solveSudoku] of the page from the point where [fetch] ends. [None]:
    the message shown is not covered ([safeParseError] on a body that is
    not an error, a [TypeError] of the engine thrown by [writeBoard]). *)
Definition receive (ui : UI) (outcome : FetchOutcome) : option UI :=
  match outcome with
  | Aborted => Some (finish (setStatus ui "Cancelled" None))
  | Failed message => Some (showError ui message)
  | Responded response =>
      if negb (responseOk response)
      then
        match safeParseError response with
        | Some detail =>
            Some (showError ui
                    (if (detail =? "")%string
                     then ("Solver request failed ("
                           ++ JS.intToString (status response) ++ ").")%string
                     else detail))
        | None => None
        end
      else
        match body response with
        | SolutionBody solution solutionCount =>
            if negb (Z.of_nat (List.length solution) =? GRID_SIZE * GRID_SIZE)
            then Some (showError ui "Solver returned an unexpected response format.")
            else
              let (cells, written) := writeBoard solution (solutionValues ui) in
              if written
              then
                let ui := mkUI (inputValues ui) (inputErrors ui) cells
                               (statusText ui) (statusClass ui) (focused ui)
                               (loading ui) (requestUnderWay ui) in
                let solutionCount :=
                  if solutionCount =? 0 then 1 else solutionCount in
                Some (finish
                        (if solutionCount =? 1
                         then setStatus ui
                                "Solved! This puzzle has a unique solution."
                                (Some "success")
                         else setStatus ui
                                "Solved! This puzzle has multiple solutions. Showing one example."
                                (Some "success")))
              else None
        | ErrorBody _ =>
            Some (showError ui "Solver returned an unexpected response format.")
        end
  end.

(** What can happen to the page between two requests. *)
Inductive Event : Type :=
| Input (index : nat) (value : string)
| KeyDown (key : string) (current : nat)
| ClickClear
| ClickSolve.

Definition step (ui : UI) (ev : Event) : option UI :=
  match ev with
  | Input index value => Some (handleInput ui index value)
  | KeyDown key current => Some (handleNavigation ui key current)
  | ClickClear =>
      let ui := clearBoard ui in
      Some (match inputValues ui with [] => ui | _ :: _ => withFocus ui 0 end)
  | ClickSolve => option_map fst (solveClick ui)
  end.

(** The events of a list, one after the other. *)
Fixpoint run (ui : UI) (events : list Event) : option UI :=
  match events with
  | [] => Some ui
  | ev :: rest =>
      match step ui ev with
      | Some ui' => run ui' rest
      | None => None
      end
  end.

(** A cell holds nothing or one digit from 1 to 9. *)
Definition okCell (v : string) : Prop :=
  v = "" \/ exists c, isDigit1to9 c = true /\ v = String c "".

Definition cellsOk (ui : UI) : Prop :=
  List.length (inputValues ui) = 81%nat /\ Forall okCell (inputValues ui).

End Frontend.

(** The cell at [i] of a group has a twin: another cell of the group
    with the same value, which is not 0. *)
Definition twin (board : list Z) (group : list nat) (i : nat) : Prop :=
  In i group
  /\ nth_error board i <> Some 0
  /\ exists j, In j group /\ j <> i /\ nth_error board j = nth_error board i.

(** What the loop of [checkGroup] keeps true, [gone] being the indices it
    has gone through and [before] the conflicts of the groups before. *)
Definition checkInv (board : list Z) (gone : list nat)
           (st : list (option Z * nat) * list nat) (before : list nat) : Prop :=
  (forall v first, Frontend.mapGet v (fst st) = Some first ->
                   In first gone /\ nth_error board first = v /\ v <> Some 0)
  /\ (forall k, In k gone -> nth_error board k <> Some 0 ->
                exists first, Frontend.mapGet (nth_error board k) (fst st) = Some first)
  /\ (forall i, In i (snd st) <-> In i before \/ twin board gone i).

(* ================================================================== *)
(** ** The constraint demo: every solution of five "exactly one"
       constraints

    The script asserts five constraints over nine Boolean constants,
    prints one solution and then all of them, blocking each solution it
    has printed. Its [while] loop has no bound: here it runs on fuel, and
    [None] is a run that fuel ended. The console is the list of the lines
    printed; a Z3 term inside a template literal prints as its
    [toString()]. *)

Module Csp.

(** Boolean terms handed to [evaluate] and given back by it:
    [z3.Bool(name)] or a truth value. *)
Inductive Z3Bool : Type :=
| Bool (name : string)
| BoolVal (value : bool).

(** Integer terms: [z3.IntVal(v)], [z3.If(c, t, e)], [z3.Sum(...)]. *)
Inductive Z3Int : Type :=
| IntVal (value : Z)
| If (condition : Z3Bool) (ifTrue ifFalse : Z3Int)
| Sum (args : list Z3Int).

(** What the solver is given: [a.__eq__(b)], [z3.Or(...)], [z3.Not(e)],
    or a Boolean term as it is. *)
Inductive Z3Expr : Type :=
| Eq (a b : Z3Int)
| Or (args : list Z3Expr)
| Not (e : Z3Bool)
| Is (e : Z3Bool).

(** A constant prints as its name, a truth value as Python prints it. *)
Definition toString (e : Z3Bool) : string :=
  match e with
  | Bool name => name
  | BoolVal true => "True"
  | BoolVal false => "False"
  end.

Definition Interp : Type := string -> bool.

Definition evalBool (I : Interp) (e : Z3Bool) : bool :=
  match e with
  | Bool name => I name
  | BoolVal value => value
  end.

Fixpoint evalInt (I : Interp) (e : Z3Int) : Z :=
  match e with
  | IntVal v => v
  | If c t e => if evalBool I c then evalInt I t else evalInt I e
  | Sum args => fold_right Z.add 0 (map (evalInt I) args)
  end.

Fixpoint holds (I : Interp) (e : Z3Expr) : bool :=
  match e with
  | Eq x y => evalInt I x =? evalInt I y
  | Or args => existsb (holds I) args
  | Not e => negb (evalBool I e)
  | Is e => evalBool I e
  end.

Definition satisfies (I : Interp) (cs : list Z3Expr) : Prop :=
  forall c, In c cs -> holds I c = true.

Definition satisfiesb (I : Interp) (cs : list Z3Expr) : bool :=
  forallb (holds I) cs.

(** The assertions of the solver and the lines printed. *)
Record State : Type := mkState {
  assertions : list Z3Expr;
  output : list string
}.

Definition log (line : string) (st : State) : State :=
  mkState (assertions st) (output st ++ [line]).

Definition add (constraint : Z3Expr) (st : State) : State :=
  mkState (assertions st ++ [constraint]) (output st).

Definition nl : string := String "010"%char "".

Definition a : Z3Bool := Bool "a".
Definition b : Z3Bool := Bool "b".
Definition c : Z3Bool := Bool "c".
Definition d : Z3Bool := Bool "d".
Definition e : Z3Bool := Bool "e".
Definition f : Z3Bool := Bool "f".
Definition g : Z3Bool := Bool "g".
Definition h : Z3Bool := Bool "h".
Definition i : Z3Bool := Bool "i".

Definition constraint1 : Z3Expr :=
  Eq (Sum [If a (IntVal 1) (IntVal 0);
           If b (IntVal 1) (IntVal 0);
           If c (IntVal 1) (IntVal 0)])
     (IntVal 1).

Definition constraint2 : Z3Expr :=
  Eq (Sum [If a (IntVal 1) (IntVal 0);
           If d (IntVal 1) (IntVal 0)])
     (IntVal 1).

Definition constraint3 : Z3Expr :=
  Eq (Sum [If c (IntVal 1) (IntVal 0);
           If e (IntVal 1) (IntVal 0);
           If f (IntVal 1) (IntVal 0)])
     (IntVal 1).

Definition constraint4 : Z3Expr :=
  Eq (Sum [If g (IntVal 1) (IntVal 0);
           If h (IntVal 1) (IntVal 0)])
     (IntVal 1).

Definition constraint5 : Z3Expr :=
  Eq (Sum [If g (IntVal 1) (IntVal 0);
           If i (IntVal 1) (IntVal 0)])
     (IntVal 1).

Definition variables : list Z3Bool := [a; b; c; d; e; f; g; h; i].
Definition varNames : list string :=
  ["a"; "b"; "c"; "d"; "e"; "f"; "g"; "h"; "i"].

(** [variables.map((v, idx) => values[idx] ? z3.Not(v) : v)] under
    [z3.Or]. *)
Definition blockClause (values : list bool) : Z3Expr :=
  Or (map (fun '(idx, v) => if nth idx values false then Not v else Is v)
          (combine (range (List.length variables)) variables)).

Section Backend.

Variable check : list Z3Expr -> Z3CheckResult.
Variable model : list Z3Expr -> Z3Bool -> Z3Bool.

(** The loop that prints the first solution. *)
Definition printSolution (m : Z3Bool -> Z3Bool) (st : State) : State :=
  fold_left
    (fun st j =>
       let value := m (nth j variables (Bool "")) in
       log ("  " ++ nth j varNames "" ++ " = " ++ toString value)%string st)
    (range (List.length variables)) st.

(** The loop that reads a solution into [values] and prints it. *)
Definition readSolution (m : Z3Bool -> Z3Bool) (st : State)
  : list bool * State :=
  fold_left
    (fun '(values, st) j =>
       let val := m (nth j variables (Bool "")) in
       let isTrue := (toString val =? "True")%string in
       (values ++ [isTrue],
        log ("  " ++ nth j varNames "" ++ " = " ++ toString val)%string st))
    (range (List.length variables)) ([], st).

(** The [while] loop. *)
Fixpoint findAll (fuel : nat) (st : State) (solutionCount : nat)
  : option (State * nat) :=
  match fuel with
  | O => None
  | S fuel =>
      if (Z3.checkToString (check (assertions st)) =? "sat")%string
      then
        let solutionCount := S solutionCount in
        let m := model (assertions st) in
        let st :=
          log ("Solution " ++ JS.natToString solutionCount ++ ":")%string st in
        let '(values, st) := readSolution m st in
        let st := add (blockClause values) st in
        let st := log "" st in
        findAll fuel st solutionCount
      else Some (st, solutionCount)
  end.

(** The script. *)
Definition main (fuel : nat) : option State :=
  let st := mkState [] [] in
  let st :=
    log ("=== Z3 Constraint Satisfaction Problem Solver ===" ++ nl)%string st in
  let st := add constraint1 st in
  let st := add constraint2 st in
  let st := add constraint3 st in
  let st := add constraint4 st in
  let st := add constraint5 st in
  let st := log "Constraints (exactly one must be true):" st in
  let st := log "  1. exactly one of: a, b, c" st in
  let st := log "  2. exactly one of: a, d" st in
  let st := log "  3. exactly one of: c, e, f" st in
  let st := log "  4. exactly one of: g, h" st in
  let st := log ("  5. exactly one of: g, i" ++ nl)%string st in
  let st := log "Checking satisfiability..." st in
  let result := check (assertions st) in
  if (Z3.checkToString result =? "sat")%string
  then
    let st := log ("✓ SAT - Solution exists!" ++ nl)%string st in
    let m := model (assertions st) in
    let st := log "Solution:" st in
    let st := printSolution m st in
    let st := log (nl ++ "=== Finding All Solutions ===" ++ nl)%string st in
    match findAll fuel st 0 with
    | Some (st, solutionCount) =>
        Some (log (nl ++ "Total unique solutions: "
                      ++ JS.natToString solutionCount)%string st)
    | None => None
    end
  else Some (log "✗ UNSAT - No solution exists!" st).

End Backend.

(** The five constraints. *)
Definition base : list Z3Expr :=
  [constraint1; constraint2; constraint3; constraint4; constraint5].

(** The values an interpretation gives to the nine constants, and the
    interpretation made of nine values. *)
Definition valuesOf (I : Interp) : list bool := map (evalBool I) variables.

Fixpoint indexOf (x : string) (names : list string) (k : nat) : option nat :=
  match names with
  | [] => None
  | y :: t => if (x =? y)%string then Some k else indexOf x t (S k)
  end.

Definition assignmentOf (values : list bool) : Interp :=
  fun x => match indexOf x varNames 0 with
           | Some k => nth k values false
           | None => false
           end.

Fixpoint allLists (n : nat) : list (list bool) :=
  match n with
  | O => [[]]
  | S n => flat_map (fun l => [true :: l; false :: l]) (allLists n)
  end.

(** The solutions of the five constraints, as lists of nine values. *)
Definition solutions : list (list bool) :=
  filter (fun values => satisfiesb (assignmentOf values) base) (allLists 9).

(** The contract of the backend, as for the Sudoku solver. *)
Definition satSound (check : list Z3Expr -> Z3CheckResult)
           (model : list Z3Expr -> Z3Bool -> Z3Bool) : Prop :=
  forall cs, check cs = sat ->
    exists I, satisfies I cs
              /\ forall v, In v variables -> model cs v = BoolVal (evalBool I v).

Definition unsatSound (check : list Z3Expr -> Z3CheckResult) : Prop :=
  forall cs, check cs = unsat -> forall I, ~ satisfies I cs.

(** A small backend that meets the contract: it tries the candidates in
    turn and gives up when none of them works. *)
Definition tryCheck (candidates : list (list bool)) (cs : list Z3Expr)
  : Z3CheckResult :=
  match find (fun values => satisfiesb (assignmentOf values) cs) candidates with
  | Some _ => sat
  | None => unknown
  end.

Definition tryModel (candidates : list (list bool)) (cs : list Z3Expr)
  : Z3Bool -> Z3Bool :=
  fun v =>
    match find (fun values => satisfiesb (assignmentOf values) cs) candidates with
    | Some values => BoolVal (evalBool (assignmentOf values) v)
    | None => v
    end.

End Csp.

(* ================================================================== *)
(** ** Sanity checks of the JavaScript helpers *)

Example parseInt_numeral : JS.parseInt "7" = Some 7.
Proof. reflexivity. Qed.

Example parseInt_prefix : JS.parseInt "  -42px" = Some (-42).
Proof. reflexivity. Qed.

Example parseInt_name : JS.parseInt (Z3.toString (Int (cellName 0 0))) = None.
Proof. reflexivity. Qed.

Example cellName_3_7 : cellName 3 7 = "x_3_7".
Proof. reflexivity. Qed.

Example boxIdx_1_2 : boxIdx 1 2 = [33; 34; 35; 42; 43; 44; 51; 52; 53]%nat.
Proof. reflexivity. Qed.
(* ================================================================== *)
(** ** Running the loops *)

Lemma addAll_nil st : addAll [] st = st.
Proof. destruct st; unfold addAll; simpl; now rewrite app_nil_r. Qed.

Lemma addAll_addAll cs cs' st : addAll cs' (addAll cs st) = addAll (cs ++ cs') st.
Proof. unfold addAll; simpl; now rewrite app_assoc. Qed.

Lemma bind_ok {A B} (m : M A) (k : A -> M B) st a st' :
  m st = (inr a, st') -> bind m k st = k a st'.
Proof. unfold bind; now intros ->. Qed.

Lemma bind_throw {A B} (m : M A) (k : A -> M B) st e st' :
  m st = (inl e, st') -> bind m k st = (inl e, st').
Proof. unfold bind; now intros ->. Qed.

(** A loop whose every round pushes [g i] to the array it builds and adds
    [h i] to the solver. *)
Lemma foldM_append {A I} (body : list A -> I -> M (list A))
      (g : I -> list A) (h : I -> list Z3Bool) (l : list I) :
  (forall acc i st, In i l ->
     body acc i st = (inr (acc ++ g i), addAll (h i) st)) ->
  forall acc st,
    foldM body l acc st = (inr (acc ++ flat_map g l), addAll (flat_map h l) st).
Proof.
  induction l as [|i l IH]; intros Hbody acc st; simpl.
  - unfold ret. now rewrite app_nil_r, addAll_nil.
  - rewrite (bind_ok _ _ _ _ _ (Hbody acc i st (or_introl eq_refl))).
    rewrite IH by (intros; apply Hbody; now right).
    now rewrite addAll_addAll, app_assoc.
Qed.

(** A loop that only builds an array. *)
Lemma foldM_collect {A I} (body : list A -> I -> M (list A))
      (f : I -> A) (l : list I) :
  (forall acc i st, In i l -> body acc i st = (inr (acc ++ [f i]), st)) ->
  forall acc st, foldM body l acc st = (inr (acc ++ map f l), st).
Proof.
  induction l as [|i l IH]; intros Hbody acc st; simpl.
  - unfold ret. now rewrite app_nil_r.
  - rewrite (bind_ok _ _ _ _ _ (Hbody acc i st (or_introl eq_refl))).
    rewrite IH by (intros; apply Hbody; now right).
    now rewrite <- app_assoc.
Qed.

Lemma fold_left_snoc {A} (l acc : list A) :
  fold_left (fun a c => a ++ [c]) l acc = acc ++ l.
Proof.
  revert acc; induction l as [|c l IH]; intros acc; simpl.
  - now rewrite app_nil_r.
  - now rewrite IH, <- app_assoc.
Qed.

Lemma at_ok {A} (a : list A) i v st :
  nth_error a i = Some v -> at_ a i st = (inr v, st).
Proof. unfold at_; now intros ->. Qed.

Lemma at_nth {A} (a : list A) i d st :
  (i < List.length a)%nat -> at_ a i st = (inr (nth i a d), st).
Proof.
  intros Hi. apply at_ok. now apply nth_error_nth'.
Qed.

Lemma in_range i n : In i (range n) <-> (i < n)%nat.
Proof. unfold range. rewrite in_seq. lia. Qed.

Lemma allCells_flat :
  allCells = flat_map (fun row =>
               flat_map (fun col => [Int (cellName row col)]) (range GRID_SIZE))
               (range GRID_SIZE).
Proof. reflexivity. Qed.

Lemma allCells_length : List.length allCells = 81%nat.
Proof. reflexivity. Qed.

Lemma board_entry (board : list Z) row col :
  List.length board = 81%nat -> (row < 9)%nat -> (col < 9)%nat ->
  exists given, nth_error board (row * GRID_SIZE + col) = Some given.
Proof.
  intros Hlen Hr Hc.
  destruct (nth_error board (row * GRID_SIZE + col)) as [g|] eqn:E; eauto.
  apply nth_error_None in E. unfold GRID_SIZE in E. lia.
Qed.

Section Runs.

Variable check : list Z3Bool -> Z3CheckResult.
Variable model : list Z3Bool -> Z3.Z3Model.

Lemma declareCells_run board st :
  List.length board = 81%nat ->
  declareCells board st =
    (inr allCells,
     addAll (flat_map (fun row => flat_map (cellAssertions board row) (range GRID_SIZE))
                      (range GRID_SIZE)) st).
Proof.
  intros Hlen. unfold declareCells. rewrite allCells_flat.
  apply (foldM_append _ _ _ _) with (acc := []).
  intros acc row st1 Hrow. apply in_range in Hrow.
  apply foldM_append.
  intros cells col st2 Hcol. apply in_range in Hcol.
  destruct (board_entry board row col Hlen Hrow Hcol) as [given Hg].
  unfold cellAssertions. rewrite Hg.
  unfold bind, add, at_. simpl. rewrite Hg.
  unfold ret, addAll; simpl.
  destruct (given =? 0); simpl; unfold bind, add, ret; simpl;
    now rewrite <- ?app_assoc.
Qed.

Lemma groups_run st :
  (rowConstraints allCells ;;; colConstraints allCells ;;;
   boxConstraints allCells) st
  = (inr tt, addAll (map groupAssertion groupIdxs) st).
Proof.
  destruct st as [a c]. unfold addAll; simpl assertions; simpl calls.
  rewrite <- (fold_left_snoc (map groupAssertion groupIdxs) a).
  vm_compute. reflexivity.
Qed.

Lemma encode_run board st :
  List.length board = 81%nat ->
  encode board st = (inr allCells, mkState (constraints board) (calls st)).
Proof.
  intros Hlen. unfold encode.
  unfold bind at 1. unfold Solver at 1.
  rewrite (bind_ok _ _ _ _ _ (declareCells_run board _ Hlen)).
  set (st1 := addAll _ _).
  change (rowConstraints allCells;;; colConstraints allCells;;;
          boxConstraints allCells;;; ret allCells)
    with (bind (rowConstraints allCells)
            (fun _ => bind (colConstraints allCells)
               (fun _ => bind (boxConstraints allCells) (fun _ => ret allCells)))).
  pose proof (groups_run st1) as Hg.
  unfold bind in *.
  destruct (rowConstraints allCells st1) as [[e|[]] st2]; [discriminate|].
  destruct (colConstraints allCells st2) as [[e|[]] st3]; [discriminate|].
  destruct (boxConstraints allCells st3) as [[e|[]] st4]; [discriminate|].
  injection Hg as ->. unfold ret. reflexivity.
Qed.

End Runs.

(* ================================================================== *)
(** ** The two rounds, in closed form *)

Lemma readSolution_loop m cells acc st :
  foldM (fun solution cell =>
           match JS.parseInt (Z3.toString (m cell)) with
           | None =>
               throw (Error ("Failed to parse solver value: "
                               ++ Z3.toString (m cell))%string)
           | Some v => ret (solution ++ [v])
           end) cells acc st
  = (readValues m cells acc, st).
Proof.
  revert acc; induction cells as [|cell rest IH]; intros acc; simpl;
    [reflexivity|].
  unfold bind.
  destruct (JS.parseInt (Z3.toString (m cell))) as [v|]; simpl.
  - unfold ret. apply IH.
  - reflexivity.
Qed.

Lemma readSolution_run m cells st :
  readSolution m cells st = (readValues m cells [], st).
Proof. apply readSolution_loop. Qed.

Lemma readValues_ok m cells acc solution :
  readValues m cells acc = inr solution ->
  exists vs, solution = acc ++ vs
             /\ Forall2 (fun cell v => JS.parseInt (Z3.toString (m cell)) = Some v)
                        cells vs.
Proof.
  revert acc; induction cells as [|cell rest IH]; intros acc; simpl.
  - intros [= <-]. exists []. now rewrite app_nil_r.
  - destruct (JS.parseInt (Z3.toString (m cell))) as [v|] eqn:E; [|discriminate].
    intros H. destruct (IH _ H) as (vs & -> & HF).
    exists (v :: vs). rewrite <- app_assoc. split; [reflexivity|].
    now constructor.
Qed.

Lemma readValues_map m (f : Z3Int -> Z) cells acc :
  (forall cell, In cell cells -> JS.parseInt (Z3.toString (m cell)) = Some (f cell)) ->
  readValues m cells acc = inr (acc ++ map f cells).
Proof.
  revert acc; induction cells as [|cell rest IH]; intros acc H; simpl.
  - now rewrite app_nil_r.
  - rewrite (H cell (or_introl eq_refl)).
    rewrite IH by (intros; apply H; now right).
    now rewrite <- app_assoc.
Qed.

Lemma readValues_length m cells solution :
  readValues m cells [] = inr solution -> List.length solution = List.length cells.
Proof.
  intros H. destruct (readValues_ok _ _ _ _ H) as (vs & -> & HF).
  simpl. symmetry. eapply Forall2_length; eauto.
Qed.

Lemma blockSolution_run solution st :
  List.length solution = 81%nat ->
  blockSolution allCells solution st
  = (inr (map (fun k => Not (Eq (cellVar k) (IntVal (nth k solution 0))))
              (range BOARD_SIZE)), st).
Proof.
  intros Hlen. unfold blockSolution.
  change (range (List.length allCells)) with (range BOARD_SIZE).
  apply (foldM_collect _ _ _) with (acc := []).
  intros acc i st1 Hi. apply in_range in Hi. change BOARD_SIZE with 81%nat in Hi.
  rewrite (bind_ok _ _ _ _ _ (at_nth allCells i (Int "") st1 Hi)).
  rewrite (bind_ok _ _ _ _ _ (at_nth solution i 0 st1 ltac:(lia))).
  reflexivity.
Qed.

Section Rounds.

Variable check : list Z3Bool -> Z3CheckResult.
Variable model : list Z3Bool -> Z3.Z3Model.

Lemma solverCheck_run st :
  solverCheck check st
  = (inr (check (assertions st)),
     mkState (assertions st) (calls st ++ [CheckCall (assertions st)])).
Proof. reflexivity. Qed.

Lemma solverModel_run st :
  solverModel model st
  = (inr (model (assertions st)),
     mkState (assertions st) (calls st ++ [ModelCall (assertions st)])).
Proof. reflexivity. Qed.

Lemma solveWith_run noSolution board st :
  List.length board = 81%nat ->
  solveWith check model noSolution board st
  = rounds check model noSolution board st.
Proof.
  intros Hlen. unfold solveWith, rounds.
  rewrite (bind_ok _ _ _ _ _ (encode_run board st Hlen)).
  rewrite (bind_ok _ _ _ _ _ (solverCheck_run _)). cbn [assertions calls].
  destruct (check (constraints board)) eqn:Hc; [|reflexivity|reflexivity].
  change (negb (Z3.checkToString sat =? "sat")%string) with false. cbv iota.
  rewrite (bind_ok _ _ _ _ _ (solverModel_run _)). cbn [assertions calls].
  destruct (readValues (model (constraints board)) allCells []) as [e|solution] eqn:Hr.
  - rewrite (bind_throw _ _ _ e _ (eq_trans (readSolution_run _ _ _) ltac:(now rewrite Hr))).
    now rewrite <- app_assoc.
  - rewrite (bind_ok _ _ _ solution _
               (eq_trans (readSolution_run _ _ _) ltac:(now rewrite Hr))).
    pose proof (readValues_length _ _ _ Hr) as Hl. rewrite allCells_length in Hl.
    rewrite (bind_ok _ _ _ _ _ (blockSolution_run solution _ Hl)).
    unfold bind, add, solverCheck, ret; cbn [assertions calls].
    fold (blockingConstraint solution).
    rewrite <- !app_assoc.
    now destruct (check (constraints board ++ [blockingConstraint solution])).
Qed.

End Rounds.

(* ================================================================== *)
(** ** What the constraint system says about the grid *)

Lemma distinctb_NoDup l : Z3.distinctb l = true <-> NoDup l.
Proof.
  induction l as [|a l IH]; simpl.
  - split; [constructor | reflexivity].
  - rewrite andb_true_iff, negb_true_iff, IH. split.
    + intros [Hn Hd]. constructor; [|assumption].
      intros Hin.
      assert (existsb (Z.eqb a) l = true) as E
          by (apply existsb_exists; exists a; split; [assumption | apply Z.eqb_refl]).
      congruence.
    + intros H. inversion H as [|? ? Hn Hd]; subst. split; [|assumption].
      destruct (existsb (Z.eqb a) l) eqn:E; [|reflexivity].
      apply existsb_exists in E as (x & Hx & Hax).
      apply Z.eqb_eq in Hax; subst. contradiction.
Qed.

Lemma cellVar_name row col :
  (row < 9)%nat -> (col < 9)%nat ->
  cellVar (row * GRID_SIZE + col) = Int (cellName row col).
Proof.
  intros Hr Hc.
  do 9 (destruct row as [|row];
        [do 9 (destruct col as [|col]; [reflexivity|]); lia|]).
  lia.
Qed.

Lemma cellAssertions_at board row col :
  (row < 9)%nat -> (col < 9)%nat ->
  cellAssertions board row col = cellAssertionsAt board (row * GRID_SIZE + col).
Proof.
  intros Hr Hc. unfold cellAssertions, cellAssertionsAt, clueAssertion.
  now rewrite cellVar_name.
Qed.

Lemma in_constraints board c :
  In c (constraints board) <->
  (exists k, (k < 81)%nat /\ In c (cellAssertionsAt board k))
  \/ (exists idx, In idx groupIdxs /\ c = groupAssertion idx).
Proof.
  unfold constraints. rewrite in_app_iff, in_flat_map, in_map_iff.
  split; (intros [H | (idx & H1 & H2)]; [left | right; exists idx; now split]).
  - destruct H as (row & Hrow & H). apply in_flat_map in H as (col & Hcol & H).
    apply in_range in Hrow, Hcol. unfold GRID_SIZE in Hrow, Hcol.
    rewrite cellAssertions_at in H by assumption.
    exists (row * GRID_SIZE + col)%nat. split; [unfold GRID_SIZE; lia | assumption].
  - destruct H as (k & Hk & H).
    assert (k / 9 < 9)%nat as Hr by (apply Nat.Div0.div_lt_upper_bound; lia).
    assert (k mod 9 < 9)%nat as Hc by (apply Nat.mod_upper_bound; lia).
    exists (k / 9)%nat. split; [now apply in_range|].
    apply in_flat_map. exists (k mod 9)%nat. split; [now apply in_range|].
    rewrite cellAssertions_at by assumption.
    replace (k / 9 * GRID_SIZE + k mod 9)%nat with k; [assumption|].
    unfold GRID_SIZE. rewrite (Nat.div_mod_eq k 9) at 1. lia.
Qed.

Lemma gridOf_length I : List.length (gridOf I) = 81%nat.
Proof. unfold gridOf. now rewrite length_map. Qed.

Lemma gridOf_nth I k :
  (k < 81)%nat -> nth k (gridOf I) 0 = Z3.evalInt I (cellVar k).
Proof.
  intros Hk. unfold gridOf, cellVar.
  rewrite (nth_indep _ 0 (Z3.evalInt I (Int ""))) by now rewrite length_map.
  apply map_nth.
Qed.

Lemma groupIdxs_shape idx :
  In idx groupIdxs ->
  List.length idx = 9%nat /\ forall k, In k idx -> (k < 81)%nat.
Proof.
  assert (forallb (fun idx => (List.length idx =? 9)%nat
                              && forallb (fun k => k <? 81)%nat idx) groupIdxs
          = true) as H by reflexivity.
  intros Hin. rewrite forallb_forall in H. specialize (H idx Hin).
  apply andb_true_iff in H as [Hl Hk]. apply Nat.eqb_eq in Hl.
  split; [assumption|]. intros k Hkin. rewrite forallb_forall in Hk.
  now apply Nat.ltb_lt, Hk.
Qed.

Lemma group_values I idx :
  In idx groupIdxs ->
  map (Z3.evalInt I) (map cellVar idx) = map (fun k => nth k (gridOf I) 0) idx.
Proof.
  intros Hin. rewrite map_map. apply map_ext_in. intros k Hk.
  symmetry. apply gridOf_nth. now apply (groupIdxs_shape idx Hin).
Qed.

Lemma satisfies_constraints I board :
  List.length board = 81%nat ->
  Z3.satisfies I (constraints board) <->
  domainOk (gridOf I) /\ keepsClues board (gridOf I) /\ groupsDistinct (gridOf I).
Proof.
  intros Hlen. unfold Z3.satisfies. split.
  - intros Hs. repeat split.
    + rewrite gridOf_nth by assumption.
      assert (Z3.holds I (Ge (cellVar k) (IntVal 1)) = true) as Hge.
      { apply Hs, in_constraints. left. exists k. split; [assumption|]. now left. }
      simpl in Hge. lia.
    + rewrite gridOf_nth by assumption.
      assert (Z3.holds I (Le (cellVar k) (IntVal 9)) = true) as Hle.
      { apply Hs, in_constraints. left. exists k. split; [assumption|].
        right. now left. }
      simpl in Hle. lia.
    + intros k given Hk Hnz.
      assert (k < 81)%nat as Hlt
          by (rewrite <- Hlen; apply nth_error_Some; congruence).
      assert (Z3.holds I (Eq (cellVar k) (IntVal given)) = true) as Heq.
      { apply Hs, in_constraints. left. exists k. split; [assumption|].
        unfold cellAssertionsAt, clueAssertion. rewrite Hk.
        apply Z.eqb_neq in Hnz. rewrite Hnz. simpl. auto. }
      simpl in Heq. apply Z.eqb_eq in Heq.
      rewrite (nth_error_nth' _ 0) by now rewrite gridOf_length.
      now rewrite gridOf_nth, Heq.
    + intros idx Hin.
      assert (Z3.holds I (groupAssertion idx) = true) as Hd.
      { apply Hs, in_constraints. right. now exists idx. }
      simpl in Hd. apply distinctb_NoDup in Hd.
      now rewrite group_values in Hd.
  - intros (Hdom & Hclue & Hgrp) c Hc.
    apply in_constraints in Hc as [(k & Hk & Hc) | (idx & Hin & ->)].
    + specialize (Hdom k Hk). rewrite gridOf_nth in Hdom by assumption.
      unfold cellAssertionsAt, clueAssertion in Hc.
      destruct Hc as [<- | [<- | Hc]]; simpl; try lia.
      destruct (nth_error board k) as [given|] eqn:Hb; [|contradiction].
      destruct (given =? 0) eqn:Hz; simpl in Hc; [contradiction|].
      destruct Hc as [<- | []]. simpl.
      apply Z.eqb_neq in Hz. specialize (Hclue k given Hb Hz).
      rewrite (nth_error_nth' _ 0) in Hclue by now rewrite gridOf_length.
      rewrite gridOf_nth in Hclue by assumption.
      injection Hclue as ->. apply Z.eqb_refl.
    + simpl. apply distinctb_NoDup. rewrite group_values by assumption.
      now apply Hgrp.
Qed.

(* ================================================================== *)
(** ** Distinct values in 1..9 and "each value exactly once" *)

Lemma in_digits19 v : In v digits19 <-> 1 <= v <= 9.
Proof. unfold digits19; simpl. lia. Qed.

Lemma NoDup_digits19 : NoDup digits19.
Proof. unfold digits19. repeat constructor; simpl; lia. Qed.

Lemma eachOnce_iff l :
  List.length l = 9%nat ->
  eachOnce l <-> NoDup l /\ (forall x, In x l -> 1 <= x <= 9).
Proof.
  intros Hlen. split.
  - intros Hocc.
    assert (incl digits19 l) as Hincl.
    { intros v Hv. apply in_digits19 in Hv.
      apply (count_occ_In Z.eq_dec). rewrite (Hocc v Hv). lia. }
    split.
    + apply (NoDup_incl_NoDup NoDup_digits19 (l' := l)); [simpl; lia | assumption].
    + intros x Hx. apply in_digits19.
      apply (NoDup_length_incl NoDup_digits19 (l' := l)); [simpl; lia | assumption | assumption].
  - intros [Hnd Hrange] v Hv.
    assert (incl l digits19) as Hincl
        by (intros x Hx; now apply in_digits19, Hrange).
    assert (In v l) as Hin.
    { apply (NoDup_length_incl Hnd (l' := digits19)); [simpl; lia | assumption |].
      now apply in_digits19. }
    apply (count_occ_In Z.eq_dec) in Hin.
    pose proof (proj1 (NoDup_count_occ Z.eq_dec l) Hnd v). lia.
Qed.

Lemma in_groupIdxs idx :
  In idx groupIdxs <->
  (exists row, (row < 9)%nat /\ idx = rowIdx row)
  \/ (exists col, (col < 9)%nat /\ idx = colIdx col)
  \/ (exists boxRow boxCol,
        (boxRow < 3)%nat /\ (boxCol < 3)%nat /\ idx = boxIdx boxRow boxCol).
Proof.
  unfold groupIdxs. rewrite !in_app_iff, !in_map_iff, in_flat_map.
  split.
  - intros [(row & <- & H) | [(col & <- & H) | (br & Hbr & H)]].
    + left. exists row. split; [now apply in_range in H | reflexivity].
    + right; left. exists col. split; [now apply in_range in H | reflexivity].
    + right; right. apply in_map_iff in H as (bc & <- & Hbc).
      exists br, bc. apply in_range in Hbr, Hbc. now repeat split.
  - intros [(row & H & ->) | [(col & H & ->) | (br & bc & Hbr & Hbc & ->)]].
    + left. exists row. split; [reflexivity | now apply in_range].
    + right; left. exists col. split; [reflexivity | now apply in_range].
    + right; right. exists br. split; [now apply in_range|].
      apply in_map_iff. exists bc. split; [reflexivity | now apply in_range].
Qed.

Lemma rowValues_idx g row :
  rowValues g row = map (fun k => nth k g 0) (rowIdx row).
Proof. unfold rowValues, rowIdx. now rewrite map_map. Qed.

Lemma colValues_idx g col :
  colValues g col = map (fun k => nth k g 0) (colIdx col).
Proof. unfold colValues, colIdx. now rewrite map_map. Qed.

(** The positions the box loops enumerate are those whose
    [(row / 3, col / 3)] is the box. *)
Lemma boxIdx_inBox boxRow boxCol :
  (boxRow < 3)%nat -> (boxCol < 3)%nat ->
  boxIdx boxRow boxCol = filter (inBox boxRow boxCol) (range 81).
Proof.
  intros Hr Hc.
  do 3 (destruct boxRow as [|boxRow];
        [do 3 (destruct boxCol as [|boxCol]; [reflexivity|]); lia|]).
  lia.
Qed.

Lemma boxValues_idx g boxRow boxCol :
  (boxRow < 3)%nat -> (boxCol < 3)%nat ->
  boxValues g boxRow boxCol = map (fun k => nth k g 0) (boxIdx boxRow boxCol).
Proof. intros Hr Hc. unfold boxValues. now rewrite boxIdx_inBox. Qed.

Lemma validGrid_groups g :
  validGrid g <->
  List.length g = 81%nat
  /\ forall idx, In idx groupIdxs -> eachOnce (map (fun k => nth k g 0) idx).
Proof.
  unfold validGrid. split.
  - intros (Hlen & Hrow & Hcol & Hbox). split; [assumption|].
    intros idx Hin.
    apply in_groupIdxs in Hin
      as [(row & H & ->) | [(col & H & ->) | (br & bc & Hbr & Hbc & ->)]].
    + rewrite <- rowValues_idx. now apply Hrow.
    + rewrite <- colValues_idx. now apply Hcol.
    + rewrite <- boxValues_idx by assumption. now apply Hbox.
  - intros (Hlen & Hall). split; [assumption|]. repeat split.
    + intros row H. rewrite rowValues_idx. apply Hall, in_groupIdxs. eauto.
    + intros col H. rewrite colValues_idx. apply Hall, in_groupIdxs. eauto.
    + intros br bc Hbr Hbc. rewrite boxValues_idx by assumption.
      apply Hall, in_groupIdxs. right; right. eauto.
Qed.

Lemma position_in_row k : (k < 81)%nat -> In k (rowIdx (k / 9)).
Proof.
  intros Hk. unfold rowIdx. apply in_map_iff. exists (k mod 9)%nat.
  split.
  - cbv beta. unfold GRID_SIZE. pose proof (Nat.div_mod_eq k 9). lia.
  - apply in_range. unfold GRID_SIZE. apply Nat.mod_upper_bound. lia.
Qed.

(** The Sudoku rules on a grid of 81 values are: every value in 1..9 and
    no value twice in any of the 27 groups. *)
Lemma validGrid_iff g :
  List.length g = 81%nat ->
  validGrid g <-> domainOk g /\ groupsDistinct g.
Proof.
  intros Hlen. rewrite validGrid_groups. split.
  - intros (_ & Hall).
    assert (forall idx, In idx groupIdxs ->
              NoDup (map (fun k => nth k g 0) idx)
              /\ forall x, In x (map (fun k => nth k g 0) idx) -> 1 <= x <= 9) as H.
    { intros idx Hin. apply eachOnce_iff; [|now apply Hall].
      rewrite length_map. now apply groupIdxs_shape. }
    split.
    + intros k Hk.
      apply (proj2 (H (rowIdx (k / 9)%nat)
                      ltac:(apply in_groupIdxs; left; exists (k / 9)%nat; split;
                            [apply Nat.Div0.div_lt_upper_bound; lia | reflexivity]))).
      apply in_map_iff. exists k. split; [reflexivity | now apply position_in_row].
    + intros idx Hin. now apply H.
  - intros (Hdom & Hgrp). split; [assumption|].
    intros idx Hin. apply eachOnce_iff.
    + rewrite length_map. now apply groupIdxs_shape.
    + split; [now apply Hgrp|].
      intros x Hx. apply in_map_iff in Hx as (k & <- & Hk).
      apply Hdom. now apply (groupIdxs_shape idx Hin).
Qed.

(** The interpretations that satisfy the constraint system of a board are
    those whose grid is a solution of the board. *)
Lemma satisfies_iff_solution I board :
  List.length board = 81%nat ->
  Z3.satisfies I (constraints board) <-> isSolutionOf board (gridOf I).
Proof.
  intros Hlen. rewrite (satisfies_constraints I board Hlen).
  unfold isSolutionOf. rewrite (validGrid_iff _ (gridOf_length I)). tauto.
Qed.

(* ================================================================== *)
(** ** Grids and interpretations *)

Lemma interpOf_cellVar g k :
  (k < 81)%nat -> Z3.evalInt (interpOf g) (cellVar k) = nth k g 0.
Proof.
  intros Hk. do 81 (destruct k as [|k]; [reflexivity|]). lia.
Qed.

Lemma gridOf_interpOf g : List.length g = 81%nat -> gridOf (interpOf g) = g.
Proof.
  intros Hlen. apply (nth_ext _ _ 0 0).
  - now rewrite gridOf_length.
  - intros k Hk. rewrite gridOf_length in Hk.
    rewrite gridOf_nth by assumption. now apply interpOf_cellVar.
Qed.

Lemma validGridb_spec g : validGridb g = true <-> validGrid g.
Proof.
  unfold validGridb. rewrite !andb_true_iff, Nat.eqb_eq, !forallb_forall.
  split.
  - intros [[Hlen Hdom] Hgrp]. apply validGrid_iff; [assumption|]. split.
    + intros k Hk. specialize (Hdom k (proj2 (in_range k 81) Hk)). lia.
    + intros idx Hin. now apply distinctb_NoDup, Hgrp.
  - intros Hv. assert (List.length g = 81%nat) as Hlen by apply Hv.
    apply (validGrid_iff g Hlen) in Hv as [Hdom Hgrp]. repeat split.
    + assumption.
    + intros k Hk. apply in_range in Hk. specialize (Hdom k Hk). lia.
    + intros idx Hin. now apply distinctb_NoDup, Hgrp.
Qed.

Lemma satisfiesb_spec I cs : Z3.satisfiesb I cs = true <-> Z3.satisfies I cs.
Proof. unfold Z3.satisfiesb, Z3.satisfies. apply forallb_forall. Qed.

(** An interpretation satisfies the blocking constraint of a solution
    exactly when its grid is not that solution. *)
Lemma holds_blocking I solution :
  List.length solution = 81%nat ->
  Z3.holds I (blockingConstraint solution) = true <-> gridOf I <> solution.
Proof.
  intros Hlen. unfold blockingConstraint.
  change (Z3.holds I (Or ?l)) with (existsb (Z3.holds I) l).
  rewrite existsb_exists. split.
  - intros (c & Hc & Hh) Heq.
    apply in_map_iff in Hc as (k & <- & Hk). apply in_range in Hk.
    simpl in Hh. apply negb_true_iff, Z.eqb_neq in Hh.
    rewrite <- gridOf_nth in Hh by assumption. now rewrite Heq in Hh.
  - intros Hne.
    destruct (existsb (fun k => negb (nth k (gridOf I) 0 =? nth k solution 0))
                      (range BOARD_SIZE)) eqn:E.
    + apply existsb_exists in E as (k & Hk & Hh).
      exists (Not (Eq (cellVar k) (IntVal (nth k solution 0)))). split.
      * apply in_map_iff. now exists k.
      * simpl. apply in_range in Hk. now rewrite <- gridOf_nth.
    + exfalso. apply Hne. apply (nth_ext _ _ 0 0).
      * now rewrite gridOf_length.
      * intros k Hk. rewrite gridOf_length in Hk.
        destruct (Z.eqb_spec (nth k (gridOf I) 0) (nth k solution 0)) as [|Hd];
          [assumption|].
        assert (existsb (fun k => negb (nth k (gridOf I) 0 =? nth k solution 0))
                        (range BOARD_SIZE) = true) as E'; [|congruence].
        apply existsb_exists. exists k. split; [now apply in_range|].
        now apply negb_true_iff, Z.eqb_neq.
Qed.

Lemma satisfies_app I cs cs' :
  Z3.satisfies I (cs ++ cs') <-> Z3.satisfies I cs /\ Z3.satisfies I cs'.
Proof.
  unfold Z3.satisfies. split.
  - intros H. split; intros c Hc; apply H, in_app_iff; auto.
  - intros [H1 H2] c Hc. apply in_app_iff in Hc as [Hc|Hc]; auto.
Qed.

Lemma satisfies_single I c : Z3.satisfies I [c] <-> Z3.holds I c = true.
Proof.
  unfold Z3.satisfies. split.
  - intros H. apply H. now left.
  - intros H c' [<-|[]]. assumption.
Qed.

(** The interpretations of the second round: solutions of the board other
    than the one found. *)
Lemma satisfies_second_round I board solution :
  List.length board = 81%nat -> List.length solution = 81%nat ->
  Z3.satisfies I (constraints board ++ [blockingConstraint solution]) <->
  isSolutionOf board (gridOf I) /\ gridOf I <> solution.
Proof.
  intros Hb Hs.
  now rewrite satisfies_app, satisfies_single, (satisfies_iff_solution I board Hb),
    (holds_blocking I solution Hs).
Qed.

Lemma parseInt_digit v :
  1 <= v <= 9 -> JS.parseInt (JS.intToString v) = Some v.
Proof.
  intros Hv.
  assert (v = 1 \/ v = 2 \/ v = 3 \/ v = 4 \/ v = 5 \/ v = 6 \/ v = 7
          \/ v = 8 \/ v = 9) as H by lia.
  repeat (destruct H as [-> | H]; [reflexivity|]). now subst.
Qed.

Lemma cell_occurs board k :
  (k < 81)%nat -> exists x, cellVar k = Int x /\ occursIn x (constraints board).
Proof.
  intros Hk.
  assert (k / 9 < 9)%nat as Hr by (apply Nat.Div0.div_lt_upper_bound; lia).
  assert (k mod 9 < 9)%nat as Hc by (apply Nat.mod_upper_bound; lia).
  assert (cellVar k = Int (cellName (k / 9) (k mod 9))) as Hname.
  { rewrite <- cellVar_name by assumption. f_equal.
    unfold GRID_SIZE. pose proof (Nat.div_mod_eq k 9). lia. }
  exists (cellName (k / 9) (k mod 9)). split; [assumption|].
  exists (Ge (cellVar k) (IntVal 1)). split.
  - apply in_constraints. left. exists k. split; [assumption | now left].
  - rewrite Hname. simpl. now left.
Qed.

Section Sound.

Variable check : list Z3Bool -> Z3CheckResult.
Variable model : list Z3Bool -> Z3.Z3Model.
Hypothesis Hsat : satSound check model.

(** After "sat" on a system that contains the constraints of the board,
    the values read back are the grid of a satisfying interpretation. *)
Lemma sat_reads_grid board extra :
  List.length board = 81%nat ->
  check (constraints board ++ extra) = sat ->
  exists I, Z3.satisfies I (constraints board ++ extra)
            /\ readValues (model (constraints board ++ extra)) allCells []
               = inr (gridOf I).
Proof.
  intros Hlen Hc. destruct (Hsat _ Hc) as (I & HI & Hm).
  exists I. split; [assumption|].
  apply (readValues_map _ (Z3.evalInt I) allCells []).
  intros cell Hcell.
  destruct (In_nth _ _ (Int "") Hcell) as (k & Hk & <-).
  rewrite allCells_length in Hk. fold (cellVar k).
  destruct (cell_occurs board k Hk) as (x & Hx & Hocc).
  rewrite Hx, Hm.
  - simpl. apply parseInt_digit.
    apply satisfies_app in HI as [HI _].
    apply (satisfies_constraints I board Hlen) in HI as (Hdom & _).
    specialize (Hdom k Hk). rewrite gridOf_nth, Hx in Hdom by assumption.
    exact Hdom.
  - destruct Hocc as (c & Hin & Hv). exists c. split; [|assumption].
    apply in_app_iff. now left.
Qed.

Lemma sat_reads_solution board :
  List.length board = 81%nat ->
  check (constraints board) = sat ->
  exists I, isSolutionOf board (gridOf I)
            /\ readValues (model (constraints board)) allCells [] = inr (gridOf I).
Proof.
  intros Hlen Hc.
  destruct (sat_reads_grid board [] Hlen) as (I & HI & Hr);
    [now rewrite app_nil_r|].
  rewrite app_nil_r in HI, Hr. exists I. split; [|assumption].
  now apply satisfies_iff_solution.
Qed.

(** What a successful run tells, under the contract. *)
Lemma success_inv noSolution board st solution solutionCount st' :
  List.length board = 81%nat ->
  solveWith check model noSolution board st = (inr (solution, solutionCount), st') ->
  check (constraints board) = sat
  /\ (exists I, gridOf I = solution /\ isSolutionOf board solution)
  /\ readValues (model (constraints board)) allCells [] = inr solution
  /\ solutionCount
     = match check (constraints board ++ [blockingConstraint solution]) with
       | sat => 2
       | _ => 1
       end
  /\ st' = mkState (constraints board ++ [blockingConstraint solution])
                   (calls st ++ [CheckCall (constraints board);
                                 ModelCall (constraints board);
                                 CheckCall (constraints board
                                            ++ [blockingConstraint solution])]).
Proof.
  intros Hlen. rewrite solveWith_run by assumption. unfold rounds.
  destruct (check (constraints board)) eqn:Hc; try discriminate.
  destruct (sat_reads_solution board Hlen Hc) as (I & Hsol & Hr).
  rewrite Hr. intros [= <- <- <-].
  split; [reflexivity|]. split; [now exists I|]. split; [reflexivity|].
  split; [reflexivity|]. f_equal. rewrite <- app_assoc. reflexivity.
Qed.

End Sound.

(* ================================================================== *)
(** ** The small backends meet the contract *)

Lemma toy_satSound candidates :
  satSound (Toy.check candidates) (Toy.model candidates).
Proof.
  intros cs Hc. unfold Toy.check, Toy.model in *.
  destruct (find (fun g => Z3.satisfiesb (interpOf g) cs) candidates)
    as [g|] eqn:E.
  - apply find_some in E as [_ E].
    exists (interpOf g). split; [now apply satisfiesb_spec | reflexivity].
  - destruct (existsb (Toy.refuted cs) cs); discriminate.
Qed.

Lemma toy_unsatSound candidates : unsatSound (Toy.check candidates).
Proof.
  intros cs Hc I HI. unfold Toy.check in Hc.
  destruct (find (fun g => Z3.satisfiesb (interpOf g) cs) candidates);
    [discriminate|].
  destruct (existsb (Toy.refuted cs) cs) eqn:E; [|discriminate].
  apply existsb_exists in E as (c & Hin & Href).
  pose proof (HI c Hin) as Hh.
  destruct c as [| | | |ds|]; simpl in Href; try discriminate.
  change (Z3.holds I (Or ds)) with (existsb (Z3.holds I) ds) in Hh.
  apply existsb_exists in Hh as (d & Hd & Hhd).
  rewrite forallb_forall in Href. specialize (Href d Hd).
  destruct d as [| | | | |e]; try discriminate.
  destruct e as [| |[x|] [|v]| | |]; try discriminate.
  apply existsb_exists in Href as (c' & Hc' & Hclue).
  destruct c' as [| |[y|] [|w]| | |]; simpl in Hclue; try discriminate.
  apply andb_true_iff in Hclue as [Hx Hv].
  apply String.eqb_eq in Hx. apply Z.eqb_eq in Hv. subst y w.
  specialize (HI _ Hc'). simpl in HI, Hhd. rewrite HI in Hhd. discriminate.
Qed.

Lemma giveUp_satSound m : satSound Toy.giveUp m.
Proof. intros cs Hc. discriminate. Qed.

Lemma giveUp_unsatSound : unsatSound Toy.giveUp.
Proof. intros cs Hc. discriminate. Qed.

Lemma solved_valid : validGrid Toy.solved.
Proof. apply validGridb_spec. reflexivity. Qed.

Lemma solved'_valid : validGrid Toy.solved'.
Proof. apply validGridb_spec. reflexivity. Qed.

Lemma blank_no_clue g : keepsClues Toy.blank g.
Proof.
  intros k given Hk Hnz. apply nth_error_In in Hk.
  apply repeat_spec in Hk. contradiction.
Qed.

Lemma keepsClues_refl board : keepsClues board board.
Proof. intros k given Hk _. assumption. Qed.

Lemma Forall2_nth_error {A B} (R : A -> B -> Prop) l l' k a :
  Forall2 R l l' -> nth_error l k = Some a ->
  exists b, nth_error l' k = Some b /\ R a b.
Proof.
  intros HF. revert k. induction HF as [|x y l l' Hxy HF IH]; intros k Hk.
  - destruct k; discriminate.
  - destruct k as [|k]; simpl in *.
    + injection Hk as <-. eauto.
    + now apply IH.
Qed.

(* ================================================================== *)
(** ** Properties of a successful run *)

Section Success.

Variable check : list Z3Bool -> Z3CheckResult.
Variable model : list Z3Bool -> Z3.Z3Model.
Hypothesis Hsat : satSound check model.

(** C2 (validity). With a backend that meets the contract, on every board of
    81 entries on which [solveSudoku] succeeds, the returned solution
    satisfies the Sudoku rules: every row, every column and every 3x3 box
    (the positions with the same [(row / 3, col / 3)]) contains each value
    1..9 exactly once. *)
Theorem solution_valid board st solution solutionCount st' :
  List.length board = 81%nat ->
  solveSudoku check model board st = (inr (solution, solutionCount), st') ->
  List.length solution = 81%nat
  /\ (forall row, (row < 9)%nat -> eachOnce (rowValues solution row))
  /\ (forall col, (col < 9)%nat -> eachOnce (colValues solution col))
  /\ (forall boxRow boxCol, (boxRow < 3)%nat -> (boxCol < 3)%nat ->
        eachOnce (boxValues solution boxRow boxCol)).
Proof.
  intros Hlen Hrun.
  destruct (success_inv check model Hsat _ _ _ _ _ _ Hlen Hrun)
    as (_ & (I & _ & Hsol) & _).
  apply Hsol.
Qed.

(** C3 (clue preservation). With a backend that meets the contract, on every
    board of 81 entries on which [solveSudoku] succeeds, the solution has,
    at every position where the board is not 0, the value of the board. *)
Theorem clues_preserved board st solution solutionCount st' :
  List.length board = 81%nat ->
  solveSudoku check model board st = (inr (solution, solutionCount), st') ->
  forall k given,
    nth_error board k = Some given -> given <> 0 ->
    nth_error solution k = Some given.
Proof.
  intros Hlen Hrun.
  destruct (success_inv check model Hsat _ _ _ _ _ _ Hlen Hrun)
    as (_ & (I & _ & Hsol) & _).
  apply Hsol.
Qed.

(** C7 (shape of the solution). With a backend that meets the contract, on
    every board of 81 entries on which [solveSudoku] succeeds, the solution
    has exactly 81 entries, each in 1..9, and the entry at [row * 9 + col]
    is the value parsed from what the model of the first round evaluates
    the cell variable [x_row_col] to. *)
Theorem solution_row_major board st solution solutionCount st' :
  List.length board = 81%nat ->
  solveSudoku check model board st = (inr (solution, solutionCount), st') ->
  List.length solution = 81%nat
  /\ (forall v, In v solution -> 1 <= v <= 9)
  /\ (forall row col, (row < 9)%nat -> (col < 9)%nat ->
        nth_error solution (row * 9 + col)
        = JS.parseInt
            (Z3.toString (model (constraints board) (Int (cellName row col))))).
Proof.
  intros Hlen Hrun.
  destruct (success_inv check model Hsat _ _ _ _ _ _ Hlen Hrun)
    as (_ & (I & HI & Hsol) & Hread & _).
  assert (List.length solution = 81%nat) as Hl by apply Hsol.
  split; [assumption|]. split.
  - intros v Hv. destruct (In_nth _ _ 0 Hv) as (k & Hk & <-).
    destruct Hsol as [Hval _].
    apply (validGrid_iff solution Hl) in Hval as [Hdom _].
    apply Hdom. lia.
  - intros row col Hr Hc.
    destruct (readValues_ok _ _ _ _ Hread) as (vs & -> & HF). simpl.
    assert (nth_error allCells (row * 9 + col) = Some (Int (cellName row col)))
      as Hcell.
    { rewrite (nth_error_nth' _ (Int "")) by (rewrite allCells_length; lia).
      f_equal. now apply cellVar_name. }
    destruct (Forall2_nth_error _ _ _ _ _ HF Hcell) as (v & Hv & Hp).
    now rewrite Hv, Hp.
Qed.

End Success.

Lemma solution_valid_witness : validGrid Toy.solved.
Proof.
  apply (solution_valid (Toy.check [Toy.solved]) (Toy.model [Toy.solved])
           (toy_satSound [Toy.solved]) Toy.blank initial Toy.solved 1
           (snd (solveSudoku (Toy.check [Toy.solved]) (Toy.model [Toy.solved])
                             Toy.blank initial))).
  - reflexivity.
  - vm_compute. reflexivity.
Defined.

Lemma clues_preserved_witness : nth_error Toy.solved 1 = Some 3.
Proof.
  apply (clues_preserved (Toy.check [Toy.solved]) (Toy.model [Toy.solved])
           (toy_satSound [Toy.solved]) Toy.puzzle initial Toy.solved 1
           (snd (solveSudoku (Toy.check [Toy.solved]) (Toy.model [Toy.solved])
                             Toy.puzzle initial))
           ltac:(reflexivity) ltac:(vm_compute; reflexivity)
           1%nat 3 ltac:(reflexivity) ltac:(discriminate)).
Defined.

Lemma solution_row_major_witness :
  List.length Toy.solved = 81%nat
  /\ (forall v, In v Toy.solved -> 1 <= v <= 9)
  /\ (forall row col, (row < 9)%nat -> (col < 9)%nat ->
        nth_error Toy.solved (row * 9 + col)
        = JS.parseInt
            (Z3.toString (Toy.model [Toy.solved] (constraints Toy.puzzle)
                                    (Int (cellName row col))))).
Proof.
  apply (solution_row_major (Toy.check [Toy.solved]) (Toy.model [Toy.solved])
           (toy_satSound [Toy.solved]) Toy.puzzle initial Toy.solved 1
           (snd (solveSudoku (Toy.check [Toy.solved]) (Toy.model [Toy.solved])
                             Toy.puzzle initial))
           ltac:(reflexivity) ltac:(vm_compute; reflexivity)).
Defined.

(* ================================================================== *)
(** ** The uniqueness probe *)

Section Probe.

Variable check : list Z3Bool -> Z3CheckResult.
Variable model : list Z3Bool -> Z3.Z3Model.
Hypothesis Hsat : satSound check model.
Hypothesis Hunsat : unsatSound check.

(** C1 (uniqueness flag). With a backend that meets the contract, on every
    board of 81 entries on which [solveSudoku] succeeds: the one constraint
    added after the first round is satisfied by exactly the interpretations
    whose grid differs from the returned solution; if [solutionCount] is 2,
    a solution of the board other than the returned one exists; if
    [solutionCount] is 1 and the second check did not answer "unknown", the
    returned solution is the only solution of the board. *)
Theorem uniqueness_flag board st solution solutionCount st' :
  List.length board = 81%nat ->
  solveSudoku check model board st = (inr (solution, solutionCount), st') ->
  assertions st' = constraints board ++ [blockingConstraint solution]
  /\ (forall I, Z3.holds I (blockingConstraint solution) = true
                <-> gridOf I <> solution)
  /\ (solutionCount = 2 ->
      exists g, isSolutionOf board g /\ g <> solution)
  /\ (solutionCount = 1 ->
      check (constraints board ++ [blockingConstraint solution]) <> unknown ->
      forall g, isSolutionOf board g -> g = solution).
Proof.
  intros Hlen Hrun.
  destruct (success_inv check model Hsat _ _ _ _ _ _ Hlen Hrun)
    as (_ & (I0 & _ & Hsol) & _ & Hcount & Hst).
  assert (List.length solution = 81%nat) as Hl by apply Hsol.
  split; [now rewrite Hst|]. split; [intros I; now apply holds_blocking|].
  destruct (check (constraints board ++ [blockingConstraint solution])) eqn:Hc2.
  - split; [|intros ->; discriminate]. intros _.
    destruct (Hsat _ Hc2) as (I & HI & _).
    apply (satisfies_second_round I board solution Hlen Hl) in HI.
    now exists (gridOf I).
  - split; [intros ->; discriminate|]. intros _ _ g Hg.
    destruct (list_eq_dec Z.eq_dec g solution) as [|Hne]; [assumption|].
    exfalso. apply (Hunsat _ Hc2 (interpOf g)).
    apply (satisfies_second_round _ board solution Hlen Hl).
    assert (List.length g = 81%nat) as Hgl by apply Hg.
    now rewrite gridOf_interpOf.
  - split; [intros ->; discriminate|]. intros _ Hu. now contradiction Hu.
Qed.

End Probe.

Lemma uniqueness_flag_witness :
  (assertions (snd (solveSudoku (Toy.check [Toy.solved]) (Toy.model [Toy.solved])
                                Toy.solved initial))
   = constraints Toy.solved ++ [blockingConstraint Toy.solved]
   /\ (forall I, Z3.holds I (blockingConstraint Toy.solved) = true
                 <-> gridOf I <> Toy.solved)
   /\ (1 = 2 -> exists g, isSolutionOf Toy.solved g /\ g <> Toy.solved)
   /\ (1 = 1 ->
       Toy.check [Toy.solved]
                 (constraints Toy.solved ++ [blockingConstraint Toy.solved])
       <> unknown ->
       forall g, isSolutionOf Toy.solved g -> g = Toy.solved))
  /\ (exists g, isSolutionOf Toy.blank g /\ g <> Toy.solved).
Proof.
  split.
  - apply (uniqueness_flag (Toy.check [Toy.solved]) (Toy.model [Toy.solved])
             (toy_satSound [Toy.solved]) (toy_unsatSound [Toy.solved])
             Toy.solved initial Toy.solved 1
             (snd (solveSudoku (Toy.check [Toy.solved]) (Toy.model [Toy.solved])
                               Toy.solved initial))
             ltac:(reflexivity) ltac:(vm_compute; reflexivity)).
  - apply (uniqueness_flag (Toy.check [Toy.solved; Toy.solved'])
             (Toy.model [Toy.solved; Toy.solved'])
             (toy_satSound _) (toy_unsatSound _)
             Toy.blank initial Toy.solved 2
             (snd (solveSudoku (Toy.check [Toy.solved; Toy.solved'])
                               (Toy.model [Toy.solved; Toy.solved'])
                               Toy.blank initial))
             ltac:(reflexivity) ltac:(vm_compute; reflexivity)).
    reflexivity.
Defined.

(** On the filled board the second round of the small backend is decided:
    the premise of the last part above holds there. *)
Example toy_second_round_decided :
  Toy.check [Toy.solved] (constraints Toy.solved ++ [blockingConstraint Toy.solved])
  = unsat.
Proof. vm_compute. reflexivity. Qed.

(** C1 without the condition on the second check fails: a backend within the
    contract answers "sat" on the blank board, then gives up on the second
    round; [solveSudoku] returns [solutionCount = 1] although the board has
    other solutions. *)
Lemma uniqueness_flag_counterexample :
  ~ (forall check model,
       satSound check model -> unsatSound check -> flagCorrect check model).
Proof.
  intros H.
  destruct (H (Toy.check [Toy.solved]) (Toy.model [Toy.solved])
              (toy_satSound [Toy.solved]) (toy_unsatSound [Toy.solved])
              Toy.blank initial Toy.solved 1
              (snd (solveSudoku (Toy.check [Toy.solved]) (Toy.model [Toy.solved])
                                Toy.blank initial))
              ltac:(reflexivity) ltac:(vm_compute; reflexivity)) as [Huniq _].
  specialize (Huniq eq_refl Toy.solved'
                (conj solved'_valid (blank_no_clue Toy.solved'))).
  discriminate Huniq.
Qed.

(* ================================================================== *)
(** ** The request handler on a well-formed board *)

Lemma readBoard_ok board acc :
  Forall (fun v => 0 <= v <= 9) board ->
  readBoard (map (fun v => Json.Number (Json.Integral v)) board) acc
  = inr (acc ++ board).
Proof.
  intros HF. revert acc. induction HF as [|v board Hv HF IH]; intros acc; simpl.
  - now rewrite app_nil_r.
  - replace ((v <? 0) || (v >? 9)) with false by lia.
    rewrite IH. now rewrite <- app_assoc.
Qed.

Lemma handleSolveRequest_board check model board st :
  List.length board = 81%nat ->
  Forall (fun v => 0 <= v <= 9) board ->
  handleSolveRequest check model (Some (boardPayload board)) st
  = respond (solveSudoku check model board st).
Proof.
  intros Hlen HF. unfold handleSolveRequest, boardPayload, getBoard.
  unfold bind at 1. unfold ret at 1. cbn [Json.lookup String.eqb Ascii.eqb Bool.eqb].
  rewrite length_map, Hlen. cbn [Nat.eqb BOARD_SIZE GRID_SIZE Nat.mul Nat.add negb].
  rewrite (readBoard_ok board [] HF). cbn [app].
  unfold tryCatch, bind, respond.
  destruct (solveSudoku check model board st) as [[e|result] st']; [|reflexivity].
  now destruct e.
Qed.

(* ================================================================== *)
(** ** Answers other than "sat" *)

Lemma not_sat_throws check model noSolution board st :
  List.length board = 81%nat ->
  check (constraints board) <> sat ->
  solveWith check model noSolution board st
  = (inl (noSolution "Sudoku has no solution."),
     mkState (constraints board) (calls st ++ [CheckCall (constraints board)])).
Proof.
  intros Hlen Hc. rewrite solveWith_run by assumption. unfold rounds.
  destruct (check (constraints board)); [contradiction | reflexivity | reflexivity].
Qed.

Lemma count_of_second_round check model noSolution board st solution
      solutionCount st' :
  List.length board = 81%nat ->
  solveWith check model noSolution board st
  = (inr (solution, solutionCount), st') ->
  solutionCount
  = match check (constraints board ++ [blockingConstraint solution]) with
    | sat => 2
    | _ => 1
    end.
Proof.
  intros Hlen. rewrite solveWith_run by assumption. unfold rounds.
  destruct (check (constraints board)); try discriminate.
  destruct (readValues _ allCells []); [discriminate|].
  now intros [= <- <- _].
Qed.

(** C4 ("unknown"). On a board of 81 entries: when the first check answers
    "unknown", [solveSudoku] throws [SudokuUnsolvableError], as it does for
    "unsat", after that one check, and the handler answers 422 for a board
    of entries in 0..9; when the first check answers "sat", the model is
    read back as [solution] and the second check answers "unknown",
    [solveSudoku] succeeds with that solution and [solutionCount = 1], and
    the handler answers 200 with them. *)
Theorem unknown_conflated check model board st :
  List.length board = 81%nat ->
  (check (constraints board) = unknown ->
   solveSudoku check model board st
   = (inl (SudokuUnsolvableError "Sudoku has no solution."),
      mkState (constraints board) (calls st ++ [CheckCall (constraints board)]))
   /\ (Forall (fun v => 0 <= v <= 9) board ->
       fst (handleSolveRequest check model (Some (boardPayload board)) st)
       = inr (jsonError "The provided Sudoku board is unsatisfiable." 422)))
  /\ (forall solution,
        check (constraints board) = sat ->
        readSolution (model (constraints board)) allCells st = (inr solution, st) ->
        check (constraints board ++ [blockingConstraint solution]) = unknown ->
        solveSudoku check model board st
        = (inr (solution, 1),
           mkState (constraints board ++ [blockingConstraint solution])
                   (calls st
                    ++ [CheckCall (constraints board);
                        ModelCall (constraints board);
                        CheckCall (constraints board
                                   ++ [blockingConstraint solution])]))
        /\ (Forall (fun v => 0 <= v <= 9) board ->
            fst (handleSolveRequest check model (Some (boardPayload board)) st)
            = inr (jsonResponse (SolutionBody solution 1) 200))).
Proof.
  intros Hlen. split.
  - intros Hc.
    assert (solveSudoku check model board st
            = (inl (SudokuUnsolvableError "Sudoku has no solution."),
               mkState (constraints board)
                       (calls st ++ [CheckCall (constraints board)]))) as Hrun
        by (apply not_sat_throws; [assumption | congruence]).
    split; [assumption|]. intros HF.
    now rewrite handleSolveRequest_board, Hrun.
  - intros solution Hsat Hread Hunknown.
    rewrite readSolution_run in Hread. apply (f_equal fst) in Hread.
    cbn [fst] in Hread.
    assert (solveSudoku check model board st
            = (inr (solution, 1),
               mkState (constraints board ++ [blockingConstraint solution])
                       (calls st
                        ++ [CheckCall (constraints board);
                            ModelCall (constraints board);
                            CheckCall (constraints board
                                       ++ [blockingConstraint solution])])))
      as Hrun.
    { unfold solveSudoku. rewrite solveWith_run by assumption. unfold rounds.
      cbv zeta. rewrite Hsat, Hread, Hunknown. f_equal. f_equal.
      now rewrite <- app_assoc. }
    split; [assumption|]. intros HF.
    now rewrite handleSolveRequest_board, Hrun.
Qed.

Lemma unknown_conflated_witness :
  fst (handleSolveRequest Toy.giveUp (Toy.model [Toy.solved])
                          (Some (boardPayload Toy.puzzle)) initial)
  = inr (jsonError "The provided Sudoku board is unsatisfiable." 422)
  /\ fst (handleSolveRequest (Toy.check [Toy.solved]) (Toy.model [Toy.solved])
                             (Some (boardPayload Toy.blank)) initial)
     = inr (jsonResponse (SolutionBody Toy.solved 1) 200).
Proof.
  split.
  - apply (proj1 (unknown_conflated Toy.giveUp (Toy.model [Toy.solved])
                    Toy.puzzle initial ltac:(reflexivity))).
    + reflexivity.
    + unfold Toy.puzzle. repeat constructor; lia.
  - assert (Toy.check [Toy.solved] (constraints Toy.blank) = sat) as Hsat
        by (vm_compute; reflexivity).
    assert (readSolution (Toy.model [Toy.solved] (constraints Toy.blank))
                         allCells initial
            = (inr Toy.solved, initial)) as Hread
        by (vm_compute; reflexivity).
    assert (Toy.check [Toy.solved]
                      (constraints Toy.blank ++ [blockingConstraint Toy.solved])
            = unknown) as Hunknown by (vm_compute; reflexivity).
    apply (proj2 (unknown_conflated (Toy.check [Toy.solved])
                    (Toy.model [Toy.solved]) Toy.blank initial eq_refl)
                 Toy.solved Hsat Hread Hunknown).
    apply Forall_forall. intros v Hv. apply repeat_spec in Hv. lia.
Defined.

(** C4: "unknown" is not kept apart from the other answers, at either round:
    with a backend that gives up at once the request is reported unsolvable;
    with one that gives up on the second round the blank board is reported
    "unique". *)
Lemma unknown_counterexample :
  ~ (forall check model,
       satSound check model -> unsatSound check ->
       firstUnknownDistinct check model)
  /\ ~ (forall check model,
          satSound check model -> unsatSound check ->
          secondUnknownDistinct check model).
Proof.
  split.
  - intros H.
    apply (H Toy.giveUp (Toy.model [Toy.solved])
             (giveUp_satSound _) giveUp_unsatSound Toy.blank initial
             ltac:(reflexivity) ltac:(reflexivity) "Sudoku has no solution.").
    vm_compute. reflexivity.
  - intros H.
    assert (Toy.check [Toy.solved]
                      (constraints Toy.blank ++ [blockingConstraint Toy.solved])
            = unknown) as Hgiveup by (vm_compute; reflexivity).
    assert (solveSudoku (Toy.check [Toy.solved]) (Toy.model [Toy.solved])
                        Toy.blank initial
            = (inr (Toy.solved, 1),
               snd (solveSudoku (Toy.check [Toy.solved]) (Toy.model [Toy.solved])
                                Toy.blank initial))) as Hrun
        by (vm_compute; reflexivity).
    now apply (H (Toy.check [Toy.solved]) (Toy.model [Toy.solved])
                 (toy_satSound [Toy.solved]) (toy_unsatSound [Toy.solved])
                 Toy.blank initial Toy.solved 1 _ eq_refl Hrun Hgiveup).
Qed.

(* ================================================================== *)
(** ** Duplicate clues *)

Lemma position_in_col k : (k < 81)%nat -> In k (colIdx (k mod 9)).
Proof.
  intros Hk. unfold colIdx. apply in_map_iff. exists (k / 9)%nat.
  split.
  - cbv beta. unfold GRID_SIZE. pose proof (Nat.div_mod_eq k 9). lia.
  - apply in_range. unfold GRID_SIZE. apply Nat.Div0.div_lt_upper_bound. lia.
Qed.

Lemma position_in_box k : (k < 81)%nat -> In k (boxIdx (k / 9 / 3) (k mod 9 / 3)).
Proof.
  intros Hk.
  assert (k / 9 < 9)%nat by (apply Nat.Div0.div_lt_upper_bound; lia).
  assert (k mod 9 < 9)%nat by (apply Nat.mod_upper_bound; lia).
  rewrite boxIdx_inBox by (apply Nat.Div0.div_lt_upper_bound; lia).
  apply filter_In. split; [now apply in_range|].
  unfold inBox. now rewrite !Nat.eqb_refl.
Qed.

Lemma sameGroup_idx i j :
  (i < 81)%nat -> (j < 81)%nat -> sameGroup i j ->
  exists idx, In idx groupIdxs /\ In i idx /\ In j idx.
Proof.
  intros Hi Hj [Hrow | [Hcol | [Hbr Hbc]]].
  - exists (rowIdx (i / 9)). split; [|split].
    + apply in_groupIdxs. left. exists (i / 9)%nat.
      split; [apply Nat.Div0.div_lt_upper_bound; lia | reflexivity].
    + now apply position_in_row.
    + rewrite Hrow. now apply position_in_row.
  - exists (colIdx (i mod 9)). split; [|split].
    + apply in_groupIdxs. right; left. exists (i mod 9)%nat.
      split; [apply Nat.mod_upper_bound; lia | reflexivity].
    + now apply position_in_col.
    + rewrite Hcol. now apply position_in_col.
  - exists (boxIdx (i / 9 / 3) (i mod 9 / 3)). split; [|split].
    + apply in_groupIdxs. right; right. exists (i / 9 / 3)%nat, (i mod 9 / 3)%nat.
      assert (i / 9 < 9)%nat by (apply Nat.Div0.div_lt_upper_bound; lia).
      assert (i mod 9 < 9)%nat by (apply Nat.mod_upper_bound; lia).
      repeat split; apply Nat.Div0.div_lt_upper_bound; lia.
    + now apply position_in_box.
    + rewrite Hbr, Hbc. now apply position_in_box.
Qed.

Lemma NoDup_map_eq {A B} (f : A -> B) l a b :
  NoDup (map f l) -> In a l -> In b l -> f a = f b -> a = b.
Proof.
  induction l as [|x l IH]; simpl; intros Hnd Ha Hb Hab; [contradiction|].
  inversion Hnd as [|? ? Hnotin Hnd']; subst.
  destruct Ha as [<-|Ha], Hb as [<-|Hb]; try reflexivity.
  - exfalso. apply Hnotin. rewrite Hab. now apply in_map.
  - exfalso. apply Hnotin. rewrite <- Hab. now apply in_map.
  - now apply IH.
Qed.

(** A board with the same clue twice in a group has no solution. *)
Lemma duplicate_no_solution board g i j v :
  List.length board = 81%nat ->
  i <> j -> sameGroup i j ->
  nth_error board i = Some v -> nth_error board j = Some v -> v <> 0 ->
  ~ isSolutionOf board g.
Proof.
  intros Hlen Hij Hsame Hi Hj Hv [Hvalid Hclues].
  assert (i < 81)%nat as Hi81 by (rewrite <- Hlen; apply nth_error_Some; congruence).
  assert (j < 81)%nat as Hj81 by (rewrite <- Hlen; apply nth_error_Some; congruence).
  assert (List.length g = 81%nat) as Hgl by apply Hvalid.
  apply (validGrid_iff g Hgl) in Hvalid as [_ Hgrp].
  destruct (sameGroup_idx i j Hi81 Hj81 Hsame) as (idx & Hidx & Hin_i & Hin_j).
  apply Hij.
  apply (NoDup_map_eq (fun k => nth k g 0) idx i j (Hgrp idx Hidx) Hin_i Hin_j).
  now rewrite (nth_error_nth _ _ 0 (Hclues i v Hi Hv)),
              (nth_error_nth _ _ 0 (Hclues j v Hj Hv)).
Qed.

(** C5 (unsatisfiable clues). With a backend that meets the contract, on a
    board of 81 entries with the same non-zero clue at two positions of one
    row, column or box, [solveSudoku] throws [SudokuUnsolvableError] after
    the first check, with no call for a model. *)
Theorem duplicate_clues_unsolvable check model board st i j v :
  satSound check model ->
  List.length board = 81%nat ->
  i <> j -> sameGroup i j ->
  nth_error board i = Some v -> nth_error board j = Some v -> v <> 0 ->
  solveSudoku check model board st
  = (inl (SudokuUnsolvableError "Sudoku has no solution."),
     mkState (constraints board) (calls st ++ [CheckCall (constraints board)])).
Proof.
  intros Hsat Hlen Hij Hsame Hi Hj Hv.
  apply not_sat_throws; [assumption|]. intros Hc.
  destruct (Hsat _ Hc) as (I & HI & _).
  apply (satisfies_iff_solution I board Hlen) in HI.
  exact (duplicate_no_solution board (gridOf I) i j v Hlen Hij Hsame Hi Hj Hv HI).
Qed.

Lemma duplicate_clues_unsolvable_witness :
  solveSudoku (Toy.check [Toy.solved]) (Toy.model [Toy.solved]) Toy.twoFives initial
  = (inl (SudokuUnsolvableError "Sudoku has no solution."),
     mkState (constraints Toy.twoFives) [CheckCall (constraints Toy.twoFives)]).
Proof.
  apply (duplicate_clues_unsolvable (Toy.check [Toy.solved]) (Toy.model [Toy.solved])
           Toy.twoFives initial 0%nat 1%nat 5 (toy_satSound [Toy.solved])).
  - reflexivity.
  - discriminate.
  - left. reflexivity.
  - reflexivity.
  - reflexivity.
  - discriminate.
Defined.

(* ================================================================== *)
(** ** A filled, consistent board *)

Lemma filled_only_solution board g :
  validGrid board -> isSolutionOf board g -> g = board.
Proof.
  intros Hb [Hg Hclues].
  assert (List.length board = 81%nat) as Hbl by apply Hb.
  assert (List.length g = 81%nat) as Hgl by apply Hg.
  apply (validGrid_iff board Hbl) in Hb as [Hdom _].
  apply (nth_ext _ _ 0 0); [congruence|].
  intros k Hk. rewrite Hgl in Hk.
  assert (nth_error board k = Some (nth k board 0)) as Hnth
      by (apply nth_error_nth'; lia).
  specialize (Hdom k Hk).
  now rewrite (nth_error_nth _ _ 0 (Hclues k _ Hnth ltac:(lia))).
Qed.

Section Filled.

Variable check : list Z3Bool -> Z3CheckResult.
Variable model : list Z3Bool -> Z3.Z3Model.
Hypothesis Hsat : satSound check model.
Hypothesis Hunsat : unsatSound check.

(** C8 (filled board). With a backend that meets the contract, for a board
    that is itself a valid grid: every successful run of [solveSudoku]
    returns the board with [solutionCount = 1]; the run succeeds, with that
    result, whenever the first check does not answer "unknown"; and the
    second check answers "unsat" whenever it does not answer "unknown". *)
Theorem filled_board board st :
  validGrid board ->
  (forall solution solutionCount st',
     solveSudoku check model board st = (inr (solution, solutionCount), st') ->
     solution = board /\ solutionCount = 1)
  /\ (check (constraints board) <> unknown ->
      exists st', solveSudoku check model board st = (inr (board, 1), st'))
  /\ (check (constraints board ++ [blockingConstraint board]) <> unknown ->
      check (constraints board ++ [blockingConstraint board]) = unsat).
Proof.
  intros Hb.
  assert (List.length board = 81%nat) as Hlen by apply Hb.
  assert (check (constraints board ++ [blockingConstraint board]) <> sat) as Hc2.
  { intros Hc. destruct (Hsat _ Hc) as (I & HI & _).
    apply (satisfies_second_round I board board Hlen Hlen) in HI as [Hsol Hne].
    apply Hne. now apply filled_only_solution. }
  assert (check (constraints board) <> unsat) as Hc1.
  { intros Hc. apply (Hunsat _ Hc (interpOf board)).
    apply (satisfies_iff_solution _ board Hlen).
    rewrite gridOf_interpOf by assumption.
    split; [assumption | apply keepsClues_refl]. }
  assert (forall solution solutionCount st',
            solveSudoku check model board st = (inr (solution, solutionCount), st') ->
            solution = board /\ solutionCount = 1) as Hinv.
  { intros solution solutionCount st' Hrun.
    destruct (success_inv check model Hsat _ _ _ _ _ _ Hlen Hrun)
      as (_ & (I & _ & Hsol) & _ & Hcount & _).
    assert (solution = board) as -> by now apply filled_only_solution.
    split; [reflexivity|].
    rewrite Hcount.
    now destruct (check (constraints board ++ [blockingConstraint board])). }
  split; [assumption|]. split.
  - intros Hu.
    assert (check (constraints board) = sat) as Hc
        by (destruct (check (constraints board)); congruence).
    destruct (sat_reads_solution check model Hsat board Hlen Hc) as (I & Hsol & Hr).
    destruct (solveSudoku check model board st) as [[e|[solution n]] st'] eqn:Hrun.
    + exfalso. unfold solveSudoku in Hrun.
      rewrite solveWith_run in Hrun by assumption. unfold rounds in Hrun.
      rewrite Hc, Hr in Hrun. discriminate.
    + destruct (Hinv _ _ _ eq_refl) as [-> ->]. now exists st'.
  - intros Hu.
    destruct (check (constraints board ++ [blockingConstraint board])); congruence.
Qed.

End Filled.

Lemma filled_board_witness :
  exists st',
    solveSudoku (Toy.check [Toy.solved]) (Toy.model [Toy.solved]) Toy.solved initial
    = (inr (Toy.solved, 1), st').
Proof.
  apply (filled_board (Toy.check [Toy.solved]) (Toy.model [Toy.solved])
           (toy_satSound [Toy.solved]) (toy_unsatSound [Toy.solved])
           Toy.solved initial solved_valid).
  vm_compute. discriminate.
Defined.

(** C8 without the conditions on the answers fails: a backend within the
    contract that gives up on the first check makes [solveSudoku] throw on a
    filled, consistent board. *)
Lemma filled_board_counterexample :
  ~ (forall check model,
       satSound check model -> unsatSound check -> filledBoardUnique check model).
Proof.
  intros H.
  destruct (H Toy.giveUp (Toy.model [Toy.solved])
              (giveUp_satSound _) giveUp_unsatSound
              Toy.solved initial solved_valid) as [[st' Hrun] _].
  vm_compute in Hrun. discriminate.
Qed.

(* ================================================================== *)
(** ** Malformed requests *)

Lemma readBoard_inl entries acc response :
  readBoard entries acc = inl response ->
  response = jsonError "Board entries must be integers in the range 0-9." 400.
Proof.
  revert acc. induction entries as [|value rest IH]; intros acc; simpl;
    [discriminate|].
  destruct value as [| |[v|]| | |]; try (now intros [= <-]).
  destruct ((v <? 0) || (v >? 9)); [now intros [= <-] | apply IH].
Qed.

Lemma readBoard_inr entries acc board :
  readBoard entries acc = inr board ->
  exists b, entries = map (fun x => Json.Number (Json.Integral x)) b
            /\ board = acc ++ b
            /\ Forall (fun x => 0 <= x <= 9) b.
Proof.
  revert acc. induction entries as [|value rest IH]; intros acc; simpl.
  - intros [= <-]. exists []. now rewrite app_nil_r.
  - destruct value as [| |[v|]| | |]; try discriminate.
    destruct ((v <? 0) || (v >? 9)) eqn:E; [discriminate|].
    intros H. destruct (IH _ H) as (b & -> & -> & HF).
    exists (v :: b). rewrite <- app_assoc. repeat split.
    constructor; [lia | assumption].
Qed.

(** The entry check, common to both handlers: a payload whose board is
    not well formed is answered 400 before anything else happens. *)
Lemma entry_check_rejects payload :
  payload <> Json.Null -> ~ wellFormedBoard (boardOf payload) ->
  exists message,
    forall (k : list Z -> M Response) st,
      (board <- getBoard payload ;;
       match board with
       | Some (Json.Array entries) =>
           if negb (List.length entries =? BOARD_SIZE)%nat
           then ret (jsonError
                       ("Expected board length " ++ JS.natToString BOARD_SIZE
                                                 ++ ".")%string 400)
           else match readBoard entries [] with
                | inl response => ret response
                | inr board => k board
                end
       | _ => ret (jsonError "Expected `board` to be an array of numbers." 400)
       end) st
      = (inr (jsonError message 400), st).
Proof.
  intros Hnull Hbad.
  assert (exists v, forall st, getBoard payload st = (inr v, st)
                               /\ v = boardOf payload) as (v & Hv).
  { destruct payload; try (now eexists; intros; split; reflexivity).
    contradiction. }
  destruct v as [[| | | |entries|]|];
    try (eexists; intros k st; rewrite (bind_ok _ _ _ _ _ (proj1 (Hv st)));
         reflexivity).
  destruct (Nat.eqb_spec (List.length entries) BOARD_SIZE) as [Hlen|Hlen].
  - destruct (readBoard entries []) as [response|board] eqn:Hread.
    + pose proof (readBoard_inl _ _ _ Hread) as ->.
      eexists; intros k st. rewrite (bind_ok _ _ _ _ _ (proj1 (Hv st))).
      rewrite (proj2 (Nat.eqb_eq _ _) Hlen), Hread. reflexivity.
    + exfalso. apply Hbad.
      apply readBoard_inr in Hread as (b & -> & -> & HF).
      exists b. rewrite <- (proj2 (Hv initial)). repeat split; [|assumption].
      rewrite length_map in Hlen. exact Hlen.
  - eexists; intros k st. rewrite (bind_ok _ _ _ _ _ (proj1 (Hv st))).
    rewrite (proj2 (Nat.eqb_neq _ _) Hlen). reflexivity.
Qed.

(** Malformed requests but for the body [null]: a request whose body is
    not JSON, or whose payload (other than [null]) carries a board that is
    not an array of exactly 81 integers in 0..9, is answered with status
    400 by both handlers, and the state is left as it was: no solver is
    created and no call reaches the decision procedure. *)
Lemma malformed_rejected check model process signal req st :
  match req with
  | None => True
  | Some payload => payload <> Json.Null /\ ~ wellFormedBoard (boardOf payload)
  end ->
  exists message,
    handleSolveRequest check model req st = (inr (jsonError message 400), st)
    /\ Isolated.handleSolveRequest process req signal st
       = (inr (jsonError message 400), st)
    /\ calls (snd (handleSolveRequest check model req st)) = calls st
    /\ calls (snd (Isolated.handleSolveRequest process req signal st)) = calls st.
Proof.
  destruct req as [payload|].
  - intros [Hnull Hbad].
    destruct (entry_check_rejects payload Hnull Hbad) as (message & H).
    exists message.
    unfold handleSolveRequest, Isolated.handleSolveRequest.
    rewrite !H. now repeat split.
  - intros _. exists "Invalid JSON payload.". now repeat split.
Qed.

Lemma malformed_rejected_witness :
  exists message,
    handleSolveRequest Toy.alwaysSat Toy.emptyModel
      (Some (boardPayload (10 :: repeat 0 80))) initial
    = (inr (jsonError message 400), initial)
    /\ Isolated.handleSolveRequest
         (Isolated.solverProcess Toy.alwaysSat Toy.emptyModel)
         (Some (boardPayload (10 :: repeat 0 80))) (mkSignal false false) initial
       = (inr (jsonError message 400), initial)
    /\ calls (snd (handleSolveRequest Toy.alwaysSat Toy.emptyModel
                     (Some (boardPayload (10 :: repeat 0 80))) initial))
       = calls initial
    /\ calls (snd (Isolated.handleSolveRequest
                     (Isolated.solverProcess Toy.alwaysSat Toy.emptyModel)
                     (Some (boardPayload (10 :: repeat 0 80)))
                     (mkSignal false false) initial))
       = calls initial.
Proof.
  apply (malformed_rejected Toy.alwaysSat Toy.emptyModel
           (Isolated.solverProcess Toy.alwaysSat Toy.emptyModel)
           (mkSignal false false)
           (Some (boardPayload (10 :: repeat 0 80))) initial).
  split; [discriminate|].
  intros (board & Hb & _ & HF). simpl in Hb.
  injection Hb as Hb.
  destruct board as [|v board]; [discriminate|].
  injection Hb as <- _. inversion HF; subst. lia.
Defined.

(** C6 (malformed input, the body [null]). The JSON body [null] carries no
    board, so it fails the shape precondition; on it both handlers throw a
    [TypeError] where they read [payload.board], before the checks that
    answer 400 and outside any [try]: the request is not answered with
    status 400. The state is left as it was. *)
Theorem null_payload_throws check model process signal st :
  ~ wellFormedBoard (boardOf Json.Null)
  /\ handleSolveRequest check model (Some Json.Null) st
     = (inl (TypeError "Cannot read properties of null (reading 'board')"), st)
  /\ Isolated.handleSolveRequest process (Some Json.Null) signal st
     = (inl (TypeError "Cannot read properties of null (reading 'board')"), st)
  /\ (forall message,
        fst (handleSolveRequest check model (Some Json.Null) st)
        <> inr (jsonError message 400))
  /\ (forall message,
        fst (Isolated.handleSolveRequest process (Some Json.Null) signal st)
        <> inr (jsonError message 400)).
Proof.
  split; [intros (board & Hb & _); discriminate|].
  split; [reflexivity|]. split; [reflexivity|].
  split; intros message; discriminate.
Qed.

(* ================================================================== *)
(** ** The encoder only writes assertions *)

Lemma writesOnly_ret {A} (a : A) : writesOnly (ret a).
Proof. exists (inr a), []. intros st. unfold ret. now rewrite addAll_nil. Qed.

Lemma writesOnly_throw {A} (e : exn) : writesOnly (@throw A e).
Proof. exists (inl e), []. intros st. unfold throw. now rewrite addAll_nil. Qed.

Lemma writesOnly_add c : writesOnly (add c).
Proof. exists (inr tt), [c]. reflexivity. Qed.

Lemma writesOnly_at {A} (a : list A) i : writesOnly (at_ a i).
Proof.
  unfold at_. destruct (nth_error a i);
    [apply writesOnly_ret | apply writesOnly_throw].
Qed.

Lemma writesOnly_bind {A B} (m : M A) (k : A -> M B) :
  writesOnly m -> (forall a, writesOnly (k a)) -> writesOnly (bind m k).
Proof.
  intros ([e|a] & w & Hm) Hk.
  - exists (inl e), w. intros st. unfold bind. now rewrite Hm.
  - destruct (Hk a) as (r & w' & Hka).
    exists r, (w ++ w'). intros st. unfold bind.
    now rewrite Hm, Hka, addAll_addAll.
Qed.

Lemma writesOnly_foldM {A I} (body : A -> I -> M A) l acc :
  (forall a i, writesOnly (body a i)) -> writesOnly (foldM body l acc).
Proof.
  intros Hbody. revert acc.
  induction l as [|i l IH]; intros acc; simpl.
  - apply writesOnly_ret.
  - apply writesOnly_bind; [apply Hbody | apply IH].
Qed.

Create HintDb writes.
#[local] Hint Resolve writesOnly_ret writesOnly_throw writesOnly_add
  writesOnly_at : writes.

Ltac writes :=
  repeat first
    [ apply writesOnly_foldM; intros
    | apply writesOnly_bind; [|intros]
    | match goal with |- writesOnly (if ?b then _ else _) => destruct b end
    | solve [auto with writes] ].

Lemma writesOnly_declareCells board : writesOnly (declareCells board).
Proof. unfold declareCells. writes. Qed.

Lemma writesOnly_rowConstraints cells : writesOnly (rowConstraints cells).
Proof. unfold rowConstraints. writes. Qed.

Lemma writesOnly_colConstraints cells : writesOnly (colConstraints cells).
Proof. unfold colConstraints. writes. Qed.

Lemma writesOnly_boxConstraints cells : writesOnly (boxConstraints cells).
Proof. unfold boxConstraints. writes. Qed.

(** After [z3.Solver()], the outcome of the encoder and the assertions it
    leaves are the same whatever the state before. *)
Lemma encode_from_fresh board :
  exists r cs, forall st, encode board st = (r, mkState cs (calls st)).
Proof.
  assert (writesOnly (cells <- declareCells board ;;
                      rowConstraints cells ;;;
                      colConstraints cells ;;;
                      boxConstraints cells ;;;
                      ret cells)) as (r & w & H).
  { apply writesOnly_bind; [apply writesOnly_declareCells|]. intros cells.
    apply writesOnly_bind; [apply writesOnly_rowConstraints|]. intros _.
    apply writesOnly_bind; [apply writesOnly_colConstraints|]. intros _.
    apply writesOnly_bind; [apply writesOnly_boxConstraints|]. intros _.
    apply writesOnly_ret. }
  exists r, w. intros st. unfold encode. unfold bind at 1. unfold Solver at 1.
  now rewrite H.
Qed.

(** C9 (deterministic encoding). Two runs of the encoder on the same board,
    from any two states, have the same outcome and leave the same assertions
    in their solver, so that the decision procedure gets the same question
    and the same interpretations satisfy both; the encoder makes no call to
    the backend. *)
Theorem encode_deterministic board st1 st2 :
  fst (encode board st1) = fst (encode board st2)
  /\ assertions (snd (encode board st1)) = assertions (snd (encode board st2))
  /\ calls (snd (encode board st1)) = calls st1
  /\ (forall check : list Z3Bool -> Z3CheckResult,
        check (assertions (snd (encode board st1)))
        = check (assertions (snd (encode board st2))))
  /\ (forall I, Z3.satisfies I (assertions (snd (encode board st1)))
                <-> Z3.satisfies I (assertions (snd (encode board st2)))).
Proof.
  destruct (encode_from_fresh board) as (r & cs & H).
  rewrite (H st1), (H st2). simpl. repeat split; auto.
Qed.

(* ================================================================== *)
(** ** Failures of the solver subprocess *)

Lemma isolated_handler_board process board signal st :
  List.length board = 81%nat ->
  Forall (fun v => 0 <= v <= 9) board ->
  Isolated.handleSolveRequest process (Some (boardPayload board)) signal st
  = respondIsolated (Isolated.solveSudokuInProcess process board signal st).
Proof.
  intros Hlen HF. unfold Isolated.handleSolveRequest, boardPayload, getBoard.
  unfold bind at 1. unfold ret at 1. cbn [Json.lookup String.eqb Ascii.eqb Bool.eqb].
  rewrite length_map, Hlen. cbn [Nat.eqb BOARD_SIZE GRID_SIZE Nat.mul Nat.add negb].
  rewrite (readBoard_ok board [] HF). cbn [app].
  unfold tryCatch, bind, respondIsolated.
  destruct (Isolated.solveSudokuInProcess process board signal st)
    as [[e|result] st']; [|reflexivity].
  now destruct e.
Qed.

(** Whatever [solveSudoku] of the solver process throws, [main] reports
    it as [{success: false, error: message}]. *)
Lemma main_reports_failure check model board st e st' :
  SolverProcess.solveSudoku check model board st = (inl e, st') ->
  Isolated.solverProcess check model board st
  = (inr (mkOutput 0 (Failure (exnMessage e))), st').
Proof.
  intros H. unfold Isolated.solverProcess, SolverProcess.main, tryCatch, bind.
  now rewrite H.
Qed.

(** C10 (subprocess failures). In the process-isolated server, when the
    request is not aborted and the solver process exits with code 0 after
    reporting [{success: false, error}], whatever the cause,
    [solveSudokuInProcess] throws [SudokuUnsolvableError error], and the
    handler answers a well-formed board with status 422, "unsatisfiable". *)
Theorem subprocess_failure_is_422 process board signal st out st' error :
  List.length board = 81%nat ->
  Forall (fun v => 0 <= v <= 9) board ->
  abortedOnEntry signal = false ->
  abortedAfterOutput signal = false ->
  process board st = (inr out, st') ->
  code out = 0 ->
  stdout out = Failure error ->
  Isolated.solveSudokuInProcess process board signal st
  = (inl (SudokuUnsolvableError error), st')
  /\ Isolated.handleSolveRequest process (Some (boardPayload board)) signal st
     = (inr (jsonError "The provided Sudoku board is unsatisfiable." 422), st').
Proof.
  intros Hlen HF Hentry Hafter Hproc Hcode Hout.
  assert (Isolated.solveSudokuInProcess process board signal st
          = (inl (SudokuUnsolvableError error), st')) as Hrun.
  { unfold Isolated.solveSudokuInProcess. rewrite Hentry.
    rewrite (bind_ok _ _ _ _ _ Hproc). now rewrite Hafter, Hcode, Hout. }
  split; [assumption|].
  now rewrite isolated_handler_board, Hrun.
Qed.

(** A failure to parse a model value in the solver process reaches the
    client as 422. *)
Lemma subprocess_failure_is_422_witness :
  Isolated.solveSudokuInProcess
    (Isolated.solverProcess Toy.alwaysSat Toy.emptyModel)
    Toy.blank (mkSignal false false) initial
  = (inl (SudokuUnsolvableError "Failed to parse solver value: x_0_0"),
     snd (SolverProcess.solveSudoku Toy.alwaysSat Toy.emptyModel Toy.blank initial))
  /\ Isolated.handleSolveRequest
       (Isolated.solverProcess Toy.alwaysSat Toy.emptyModel)
       (Some (boardPayload Toy.blank)) (mkSignal false false) initial
     = (inr (jsonError "The provided Sudoku board is unsatisfiable." 422),
        snd (SolverProcess.solveSudoku Toy.alwaysSat Toy.emptyModel Toy.blank
                                       initial)).
Proof.
  apply (subprocess_failure_is_422
           (Isolated.solverProcess Toy.alwaysSat Toy.emptyModel)
           Toy.blank (mkSignal false false) initial
           (mkOutput 0 (Failure "Failed to parse solver value: x_0_0"))).
  - reflexivity.
  - apply Forall_forall. intros v Hv. apply repeat_spec in Hv. lia.
  - reflexivity.
  - reflexivity.
  - apply (main_reports_failure Toy.alwaysSat Toy.emptyModel Toy.blank initial
             (Error "Failed to parse solver value: x_0_0")).
    vm_compute. reflexivity.
  - reflexivity.
  - reflexivity.
Defined.

(* ================================================================== *)
(** ** The scenarios of the service, on the small backends *)

(** A well-formed board does reach the decision procedure: the first call
    is the check of its constraint system. *)
Lemma wellformed_reaches_solver check model board st :
  List.length board = 81%nat ->
  Forall (fun v => 0 <= v <= 9) board ->
  exists rest,
    calls (snd (handleSolveRequest check model (Some (boardPayload board)) st))
    = calls st ++ CheckCall (constraints board) :: rest.
Proof.
  intros Hlen HF. rewrite handleSolveRequest_board by assumption.
  unfold solveSudoku. rewrite solveWith_run by assumption.
  unfold rounds, respond.
  destruct (check (constraints board));
    [destruct (readValues _ allCells []) as [[]|]| |]; cbn [snd calls];
    eexists; rewrite <- ?app_assoc; reflexivity.
Qed.

(** Scenario A: the blank board, with a backend that knows two grids. *)
Example blank_board_multiple :
  fst (handleSolveRequest (Toy.check [Toy.solved; Toy.solved'])
                          (Toy.model [Toy.solved; Toy.solved'])
                          (Some (boardPayload Toy.blank)) initial)
  = inr (jsonResponse (SolutionBody Toy.solved 2) 200).
Proof. vm_compute. reflexivity. Qed.

(** Scenario C: a puzzle with its solution. *)
Example puzzle_solved :
  fst (handleSolveRequest (Toy.check [Toy.solved]) (Toy.model [Toy.solved])
                          (Some (boardPayload Toy.puzzle)) initial)
  = inr (jsonResponse (SolutionBody Toy.solved 1) 200).
Proof. vm_compute. reflexivity. Qed.

(** Scenario D: two 5s in the first row. *)
Example two_fives_422 :
  fst (handleSolveRequest (Toy.check [Toy.solved]) (Toy.model [Toy.solved])
                          (Some (boardPayload Toy.twoFives)) initial)
  = inr (jsonError "The provided Sudoku board is unsatisfiable." 422).
Proof. vm_compute. reflexivity. Qed.

(** Scenario E: a board of 80 entries. *)
Example short_board_400 :
  handleSolveRequest (Toy.check [Toy.solved]) (Toy.model [Toy.solved])
                     (Some (boardPayload (repeat 0 80))) initial
  = (inr (jsonError "Expected board length 81." 400), initial).
Proof. vm_compute. reflexivity. Qed.

(** An aborted request is answered 499 whatever the solver process
    reports. *)
Example aborted_499 :
  fst (Isolated.handleSolveRequest
         (Isolated.solverProcess (Toy.check [Toy.solved]) (Toy.model [Toy.solved]))
         (Some (boardPayload Toy.twoFives)) (mkSignal false true) initial)
  = inr (jsonError "Request was cancelled." 499).
Proof. vm_compute. reflexivity. Qed.

(* ================================================================== *)
(** ** More on the two rounds and on the handlers *)

(** X1 (calls of one run). Whatever the backend answers, a run of
    [solveSudoku] on a board of 81 entries calls it once, twice or three
    times and never again: one check when the run ends in
    [SudokuUnsolvableError]; the check and the model when a value cannot
    be parsed; the check, the model and the check of the system with the
    blocking constraint when it succeeds, and then the solution has 81
    entries and [solutionCount] is 1 or 2. *)
Theorem run_calls check model board st :
  List.length board = 81%nat ->
  exists log,
    calls (snd (solveSudoku check model board st)) = calls st ++ log
    /\ match fst (solveSudoku check model board st) with
       | inl (SudokuUnsolvableError _) => log = [CheckCall (constraints board)]
       | inl _ =>
           log = [CheckCall (constraints board); ModelCall (constraints board)]
       | inr (solution, solutionCount) =>
           log = [CheckCall (constraints board); ModelCall (constraints board);
                  CheckCall (constraints board ++ [blockingConstraint solution])]
           /\ List.length solution = 81%nat
           /\ (solutionCount = 1 \/ solutionCount = 2)
       end.
Proof.
  intros Hlen. unfold solveSudoku. rewrite solveWith_run by assumption.
  unfold rounds.
  destruct (check (constraints board)).
  - destruct (readValues _ allCells []) as [e|solution] eqn:Hr.
    + assert (exists m, e = Error m) as [m ->].
      { clear -Hr. revert Hr. generalize (@nil Z) as acc.
        induction allCells as [|cell rest IH]; intros acc; simpl; [discriminate|].
        destruct (JS.parseInt _); [apply IH | intros [= <-]; eauto]. }
      eexists. split; [reflexivity | reflexivity].
    + eexists. split; [cbn [snd calls]; rewrite <- app_assoc; reflexivity|].
      cbn [fst]. split; [reflexivity|]. split.
      * apply readValues_length in Hr. now rewrite Hr.
      * destruct (check _); auto.
  - eexists. split; reflexivity.
  - eexists. split; reflexivity.
Qed.

Lemma run_calls_witness :
  exists log,
    calls (snd (solveSudoku (Toy.check [Toy.solved]) (Toy.model [Toy.solved])
                            Toy.puzzle initial))
    = calls initial ++ log
    /\ match fst (solveSudoku (Toy.check [Toy.solved]) (Toy.model [Toy.solved])
                              Toy.puzzle initial) with
       | inl (SudokuUnsolvableError _) => log = [CheckCall (constraints Toy.puzzle)]
       | inl _ =>
           log = [CheckCall (constraints Toy.puzzle);
                  ModelCall (constraints Toy.puzzle)]
       | inr (solution, solutionCount) =>
           log = [CheckCall (constraints Toy.puzzle);
                  ModelCall (constraints Toy.puzzle);
                  CheckCall (constraints Toy.puzzle ++ [blockingConstraint solution])]
           /\ List.length solution = 81%nat
           /\ (solutionCount = 1 \/ solutionCount = 2)
       end.
Proof.
  apply (run_calls (Toy.check [Toy.solved]) (Toy.model [Toy.solved])
           Toy.puzzle initial).
  reflexivity.
Defined.


Section Handlers.

Variable check : list Z3Bool -> Z3CheckResult.
Variable model : list Z3Bool -> Z3.Z3Model.
Hypothesis Hsat : satSound check model.

(** X3 (answers to a well-formed board). With a backend that meets the
    contract, the handler of [main.ts] answers a board of 81 integers in
    0..9 with status 200 and a solution of that board when the first check
    says "sat", and with status 422 otherwise; it never answers 500. *)
Theorem wellformed_status board st :
  List.length board = 81%nat ->
  Forall (fun v => 0 <= v <= 9) board ->
  (check (constraints board) = sat ->
   exists solution solutionCount,
     fst (handleSolveRequest check model (Some (boardPayload board)) st)
     = inr (jsonResponse (SolutionBody solution solutionCount) 200)
     /\ isSolutionOf board solution
     /\ (solutionCount = 1 \/ solutionCount = 2))
  /\ (check (constraints board) <> sat ->
      fst (handleSolveRequest check model (Some (boardPayload board)) st)
      = inr (jsonError "The provided Sudoku board is unsatisfiable." 422)).
Proof.
  intros Hlen HF. rewrite handleSolveRequest_board by assumption. split.
  - intros Hc.
    destruct (sat_reads_solution check model Hsat board Hlen Hc) as (I & Hsol & Hr).
    unfold solveSudoku. rewrite solveWith_run by assumption. unfold rounds.
    rewrite Hc, Hr. cbn [respond fst snd].
    eexists _, _. split; [reflexivity|]. split; [assumption|].
    destruct (check (constraints board ++ [blockingConstraint (gridOf I)])); auto.
  - intros Hc. unfold solveSudoku. rewrite not_sat_throws by assumption.
    reflexivity.
Qed.

(** X4 (the two servers agree). With a backend that meets the contract
    and a request that is not aborted, the process-isolated handler, with
    the solver process running [main] of [q.ts] to its end, gives the same
    outcome and leaves the same state as the handler of [main.ts], for
    every request. *)
Theorem isolated_agrees signal req st :
  abortedOnEntry signal = false ->
  abortedAfterOutput signal = false ->
  Isolated.handleSolveRequest (Isolated.solverProcess check model) req signal st
  = handleSolveRequest check model req st.
Proof.
  intros Hentry Hafter.
  destruct req as [payload|]; [|reflexivity].
  unfold handleSolveRequest, Isolated.handleSolveRequest.
  destruct payload as [| | | | |fields]; try reflexivity.
  unfold getBoard.
  rewrite !(bind_ok _ _ st (Json.lookup "board" fields) st eq_refl).
  destruct (Json.lookup "board" fields) as [[| | | |entries|]|]; try reflexivity.
  destruct (Nat.eqb_spec (List.length entries) BOARD_SIZE) as [Hlen|Hlen];
    [|reflexivity].
  cbn [negb].
  destruct (readBoard entries []) as [response|board] eqn:Hread; [reflexivity|].
  apply readBoard_inr in Hread as (b & -> & Hb & HF). simpl in Hb. subst b.
  rewrite length_map in Hlen. change BOARD_SIZE with 81%nat in Hlen.
  unfold tryCatch, bind, Isolated.solveSudokuInProcess, Isolated.solverProcess,
    SolverProcess.main, SolverProcess.solveSudoku, solveSudoku, tryCatch, bind.
  rewrite Hentry, !solveWith_run by assumption. unfold rounds.
  destruct (check (constraints board)) eqn:Hc;
    [|cbn; rewrite Hafter; reflexivity|cbn; rewrite Hafter; reflexivity].
  destruct (sat_reads_solution check model Hsat board Hlen Hc) as (I & _ & Hr).
  rewrite Hr. cbn. rewrite Hafter. reflexivity.
Qed.

End Handlers.

Lemma puzzle_in_range : Forall (fun v => 0 <= v <= 9) Toy.puzzle.
Proof. unfold Toy.puzzle. repeat constructor; lia. Qed.

Lemma wellformed_status_witness :
  (Toy.check [Toy.solved] (constraints Toy.puzzle) = sat ->
   exists solution solutionCount,
     fst (handleSolveRequest (Toy.check [Toy.solved]) (Toy.model [Toy.solved])
                             (Some (boardPayload Toy.puzzle)) initial)
     = inr (jsonResponse (SolutionBody solution solutionCount) 200)
     /\ isSolutionOf Toy.puzzle solution
     /\ (solutionCount = 1 \/ solutionCount = 2))
  /\ (Toy.check [Toy.solved] (constraints Toy.puzzle) <> sat ->
      fst (handleSolveRequest (Toy.check [Toy.solved]) (Toy.model [Toy.solved])
                              (Some (boardPayload Toy.puzzle)) initial)
      = inr (jsonError "The provided Sudoku board is unsatisfiable." 422)).
Proof.
  apply (wellformed_status (Toy.check [Toy.solved]) (Toy.model [Toy.solved])
           (toy_satSound [Toy.solved]) Toy.puzzle initial eq_refl puzzle_in_range).
Defined.

Lemma isolated_agrees_witness :
  Isolated.handleSolveRequest
    (Isolated.solverProcess (Toy.check [Toy.solved]) (Toy.model [Toy.solved]))
    (Some (boardPayload Toy.twoFives)) (mkSignal false false) initial
  = handleSolveRequest (Toy.check [Toy.solved]) (Toy.model [Toy.solved])
                       (Some (boardPayload Toy.twoFives)) initial.
Proof.
  apply (isolated_agrees (Toy.check [Toy.solved]) (Toy.model [Toy.solved])
           (toy_satSound [Toy.solved]) (mkSignal false false)
           (Some (boardPayload Toy.twoFives)) initial eq_refl eq_refl).
Defined.

(** X5 (a solver process that dies). When the request is not aborted and
    the solver process ends with an exit code other than 0, the
    process-isolated handler answers a board of 81 integers in 0..9 with
    status 500, whatever the process wrote. *)
Theorem crashed_process_is_500 process board signal st out st' :
  List.length board = 81%nat ->
  Forall (fun v => 0 <= v <= 9) board ->
  abortedOnEntry signal = false ->
  abortedAfterOutput signal = false ->
  process board st = (inr out, st') ->
  code out <> 0 ->
  Isolated.handleSolveRequest process (Some (boardPayload board)) signal st
  = (inr (jsonError "Internal solver error." 500), st').
Proof.
  intros Hlen HF Hentry Hafter Hproc Hcode.
  rewrite isolated_handler_board by assumption.
  unfold Isolated.solveSudokuInProcess. rewrite Hentry.
  rewrite (bind_ok _ _ _ _ _ Hproc), Hafter.
  apply Z.eqb_neq in Hcode. rewrite Hcode. reflexivity.
Qed.

Lemma crashed_process_is_500_witness :
  Isolated.handleSolveRequest
    (fun _ => ret (mkOutput 139 (Failure "")))
    (Some (boardPayload Toy.puzzle)) (mkSignal false false) initial
  = (inr (jsonError "Internal solver error." 500), initial).
Proof.
  apply (crashed_process_is_500 (fun _ => ret (mkOutput 139 (Failure "")))
           Toy.puzzle (mkSignal false false) initial
           (mkOutput 139 (Failure "")) initial
           eq_refl puzzle_in_range eq_refl eq_refl eq_refl).
  discriminate.
Defined.






(* ================================================================== *)
(** ** The logging copy computes what the first copy computes *)

Lemma simM_ret {A B} (R : A -> B -> Prop) a b : R a b -> simM R (ret a) (ret b).
Proof. intros H st. now split. Qed.

Lemma simM_refl {A} (m : M A) : simM eq m m.
Proof. intros st. destruct (m st) as [[e|a] s]; now split. Qed.

Lemma simM_bind {A B A' B'} (R : A -> B -> Prop) (R' : A' -> B' -> Prop)
      (m1 : M A) (m2 : M B) (k1 : A -> M A') (k2 : B -> M B') :
  simM R m1 m2 -> (forall a b, R a b -> simM R' (k1 a) (k2 b)) ->
  simM R' (bind m1 k1) (bind m2 k2).
Proof.
  intros Hm Hk st. unfold bind. specialize (Hm st).
  destruct (m1 st) as [[e1|a] s1], (m2 st) as [[e2|b] s2]; try contradiction.
  - exact Hm.
  - destruct Hm as [HR <-]. apply (Hk a b HR).
Qed.

Lemma simM_foldM {A B I} (R : A -> B -> Prop)
      (f : A -> I -> M A) (g : B -> I -> M B) l :
  (forall a b i, In i l -> R a b -> simM R (f a i) (g b i)) ->
  forall a b, R a b -> simM R (foldM f l a) (foldM g l b).
Proof.
  induction l as [|i l IH]; intros Hstep a b HR; simpl.
  - now apply simM_ret.
  - apply (simM_bind R R).
    + apply Hstep; [now left | assumption].
    + intros a' b' HR'. apply IH; [|assumption].
      intros; apply Hstep; [now right | assumption].
Qed.

Lemma simM_eq {A} (m1 m2 : M A) : simM eq m1 m2 -> forall st, m1 st = m2 st.
Proof.
  intros H st. specialize (H st).
  destruct (m1 st) as [[e1|a] s1], (m2 st) as [[e2|b] s2]; try contradiction;
    destruct H; congruence.
Qed.

Lemma declareCells_names board :
  simM namesOf (declareCells board) (Verbose.declareCells board).
Proof.
  unfold declareCells, Verbose.declareCells.
  apply simM_foldM; [|now split].
  intros cells p row _ HR.
  apply simM_foldM; [|assumption].
  intros cells' [cs names] col _ [Hc Hn]. simpl in Hc. subst cs.
  simpl in Hn.
  apply (simM_bind eq namesOf); [apply simM_refl|]. intros _ _ _.
  apply (simM_bind eq namesOf); [apply simM_refl|]. intros _ _ _.
  apply (simM_bind eq namesOf); [apply simM_refl|]. intros given _ <-.
  assert (namesOf (cells' ++ [Int (cellName row col)])
                  (cells' ++ [Int (cellName row col)], names ++ [cellName row col]))
    as HR'.
  { split; [reflexivity|]. simpl. now rewrite map_app, <- Hn. }
  destruct (negb (given =? 0)).
  - apply (simM_bind eq namesOf); [apply simM_refl|]. intros _ _ _.
    now apply simM_ret.
  - now apply simM_ret.
Qed.

(** A loop over the indices of an array, reading the array at each, is
    the loop over its members. *)
Lemma index_loop {A B} (body : B -> A -> M B) (pre l : list A) acc st :
  foldM (fun acc i => x <- at_ (pre ++ l) i ;; body acc x)
        (seq (List.length pre) (List.length l)) acc st
  = foldM body l acc st.
Proof.
  revert pre acc st. induction l as [|x l IH]; intros pre acc st; simpl;
    [reflexivity|].
  assert (at_ (pre ++ x :: l) (List.length pre) st = (inr x, st)) as Hx.
  { apply at_ok. rewrite nth_error_app2 by lia. now rewrite Nat.sub_diag. }
  specialize (IH (pre ++ [x])).
  rewrite <- app_assoc, length_app in IH. simpl in IH.
  rewrite Nat.add_1_r in IH.
  cbv beta delta [bind] in *. rewrite Hx.
  destruct (body acc x st) as [[e|acc'] st']; [reflexivity|].
  apply IH.
Qed.

Lemma verbose_readSolution m cells st :
  Verbose.readSolution m cells st = readSolution m cells st.
Proof. apply (index_loop _ [] cells [] st). Qed.

Lemma foldM_ext {A I} (f g : A -> I -> M A) l :
  (forall a i st, In i l -> f a i st = g a i st) ->
  forall a st, foldM f l a st = foldM g l a st.
Proof.
  induction l as [|i l IH]; intros H a st; simpl; [reflexivity|].
  unfold bind. rewrite (H a i st (or_introl eq_refl)).
  destruct (g a i st) as [[e|a'] st']; [reflexivity|].
  apply IH. intros; apply H; now right.
Qed.

Lemma verbose_blockSolution names solution st :
  List.length solution = List.length names ->
  Verbose.blockSolution names solution st
  = blockSolution (map Int names) solution st.
Proof.
  intros Hlen. unfold Verbose.blockSolution, blockSolution.
  rewrite length_map. apply foldM_ext.
  intros acc i st' Hi. apply in_range in Hi.
  assert (at_ (map Int names) i st' = (inr (Int (nth i names "")), st')) as Hc.
  { apply at_ok. rewrite nth_error_map.
    now rewrite (nth_error_nth' names "" Hi). }
  unfold bind.
  now rewrite (at_nth names i "" st' Hi), Hc,
    (at_nth solution i 0 st' ltac:(lia)).
Qed.

(** X7 (the two copies of [main.ts]). The copy that logs every step and
    builds the blocking constraint from cell constants made again by name
    has, for every backend, board and state, the same outcome, the same
    final assertions and the same calls to the backend as the first copy;
    so have the two handlers, for every request. *)
Theorem verbose_same check model :
  (forall board st,
     Verbose.solveSudoku check model board st = solveSudoku check model board st)
  /\ (forall req st,
        Verbose.handleSolveRequest check model req st
        = handleSolveRequest check model req st).
Proof.
  assert (forall board st,
            Verbose.solveSudoku check model board st
            = solveSudoku check model board st) as Hsolve.
  { intros board st.
    unfold Verbose.solveSudoku, solveSudoku, solveWith, encode, bind, Solver.
    pose proof (declareCells_names board (mkState [] (calls st))) as Hd.
    destruct (declareCells board (mkState [] (calls st))) as [[e|cells] s1],
             (Verbose.declareCells board (mkState [] (calls st)))
               as [[e'|[cells' names]] s2];
      try contradiction.
    - destruct Hd as [<- <-]. reflexivity.
    - destruct Hd as [[Hc Hn] <-]. simpl in Hc, Hn. subst cells'.
      cbv beta iota zeta. cbn [fst snd].
      destruct (rowConstraints cells s1) as [[e|[]] s3]; [reflexivity|].
      destruct (colConstraints cells s3) as [[e|[]] s4]; [reflexivity|].
      destruct (boxConstraints cells s4) as [[e|[]] s5]; [reflexivity|].
      change (ret cells s5) with (@inr exn (list Z3Int) cells, s5).
      cbv beta iota.
      destruct (solverCheck check s5) as [[e|result] s6]; [reflexivity|].
      destruct (negb (Z3.checkToString result =? "sat")%string); [reflexivity|].
      destruct (solverModel model s6) as [[e|m] s7]; [reflexivity|].
      rewrite verbose_readSolution.
      destruct (readSolution m cells s7) as [[e|solution] s8] eqn:Hr;
        [reflexivity|].
      rewrite readSolution_run in Hr. injection Hr as Hr <-.
      apply readValues_length in Hr.
      rewrite verbose_blockSolution
        by (rewrite Hr, Hn; now rewrite length_map).
      now rewrite <- Hn. }
  split; [assumption|].
  intros req st. unfold Verbose.handleSolveRequest, handleSolveRequest.
  destruct req as [payload|]; [|reflexivity].
  unfold bind.
  destruct (getBoard payload st) as [[e|[[| | | |entries|]|]] st'];
    try reflexivity.
  destruct (negb (List.length entries =? BOARD_SIZE)%nat); [reflexivity|].
  destruct (readBoard entries []); [reflexivity|].
  unfold tryCatch, bind. now rewrite Hsolve.
Qed.

(* ================================================================== *)
(** ** Static assets *)

Lemma includes_dotdot_strip s :
  JSString.includes ".." s = true ->
  JSString.includes ".." (JSString.stripLeadingSlashes s) = true.
Proof.
  induction s as [|c s IH]; [discriminate|].
  intros H. cbn [JSString.stripLeadingSlashes].
  destruct (Ascii.eqb_spec c "/"%char) as [->|Hc].
  - apply IH. exact H.
  - destruct c as [[] [] [] [] [] [] [] []]; try exact H. now contradiction Hc.
Qed.

Lemma includes_dotdot_relative pathname :
  JSString.includes ".." pathname = true ->
  JSString.includes ".." (relativePathOf pathname) = true.
Proof.
  intros H. unfold relativePathOf.
  destruct (String.eqb_spec pathname "/") as [->|_]; [discriminate|].
  destruct (String.eqb_spec pathname "") as [->|_]; [discriminate|].
  now apply includes_dotdot_strip.
Qed.

Lemma strip_no_slash s :
  JSString.startsWith "/" (JSString.stripLeadingSlashes s) = false.
Proof.
  induction s as [|c s IH]; [reflexivity|].
  cbn [JSString.stripLeadingSlashes].
  destruct (Ascii.eqb_spec c "/"%char) as [->|Hc]; [exact IH|].
  destruct c as [[] [] [] [] [] [] [] []]; try reflexivity. now contradiction Hc.
Qed.

Lemma relative_no_slash pathname :
  JSString.startsWith "/" (relativePathOf pathname) = false.
Proof.
  unfold relativePathOf.
  destruct ((pathname =? "/")%string || (pathname =? "")%string);
    [reflexivity | apply strip_no_slash].
Qed.

(** X8 (no pathname with ".."). In both servers a request whose
    pathname, as [new URL(req.url)] gives it, contains ".." is answered
    "Not found", whatever its method, whatever the file system holds, and
    without a call to the backend. The URL parser resolves the ".."
    segments of a path before the handler reads it, so that such a
    pathname has ".." inside the name of a segment, as in /notes..txt. *)
Theorem dotdot_not_found (File Body : Type) root normalizeJoin serveFile
    resolve fetch check model process pathnameOf method url body signal st :
  JSString.includes ".." (pathnameOf url) = true ->
  serveRequest File root normalizeJoin serveFile check model pathnameOf
               method url body st
  = (inr NotFound, st)
  /\ IsolatedAssets.serveRequest Body root resolve fetch process pathnameOf
                                 method url body signal st
     = (inr NotFound, st).
Proof.
  intros H. unfold serveRequest, IsolatedAssets.serveRequest. cbv zeta.
  set (pathname := pathnameOf url) in *.
  assert ((pathname =? "/api/solve")%string = false) as Hapi.
  { destruct (String.eqb_spec pathname "/api/solve") as [E|]; [|reflexivity].
    rewrite E in H. discriminate. }
  unfold serve, IsolatedAssets.serve. rewrite Hapi, andb_false_r.
  unfold serveStaticAsset, IsolatedAssets.serveStaticAsset.
  cbv zeta. rewrite (includes_dotdot_relative pathname H). now split.
Qed.

Lemma dotdot_not_found_witness :
  serveRequest nat "/srv/frontend" (fun root path => (root ++ "/" ++ path)%string)
               (fun _ => Some 7%nat) Toy.alwaysSat Toy.emptyModel
               ToyUrl.pathnameOf
               "GET" "http://localhost:8000/notes..txt" None initial
  = (inr NotFound, initial)
  /\ IsolatedAssets.serveRequest
       nat "file:///srv/frontend/" (fun path root => (root ++ path)%string)
       (fun _ => Some (7%nat, None))
       (Isolated.solverProcess Toy.alwaysSat Toy.emptyModel)
       ToyUrl.pathnameOf
       "GET" "http://localhost:8000/notes..txt" None (mkSignal false false)
       initial
     = (inr NotFound, initial).
Proof.
  split.
  - apply (proj1 (dotdot_not_found nat nat "/srv/frontend"
                    (fun root path => (root ++ "/" ++ path)%string)
                    (fun _ => Some 7%nat)
                    (fun path root => (root ++ path)%string)
                    (fun _ => Some (7%nat, None))
                    Toy.alwaysSat Toy.emptyModel
                    (Isolated.solverProcess Toy.alwaysSat Toy.emptyModel)
                    ToyUrl.pathnameOf
                    "GET" "http://localhost:8000/notes..txt" None
                    (mkSignal false false) initial eq_refl)).
  - apply (proj2 (dotdot_not_found nat nat "file:///srv/frontend/"
                    (fun root path => (root ++ "/" ++ path)%string)
                    (fun _ => Some 7%nat)
                    (fun path root => (root ++ path)%string)
                    (fun _ => Some (7%nat, None))
                    Toy.alwaysSat Toy.emptyModel
                    (Isolated.solverProcess Toy.alwaysSat Toy.emptyModel)
                    ToyUrl.pathnameOf
                    "GET" "http://localhost:8000/notes..txt" None
                    (mkSignal false false) initial eq_refl)).
Defined.

(** A ".." segment of the URL is gone from the pathname: a POST to
    /x/../api/solve is a POST to /api/solve and reaches the solver. *)
Example dotdot_segment_resolved :
  ToyUrl.pathnameOf "http://localhost:8000/x/../api/solve?verbose#top"
  = "/api/solve"
  /\ serveRequest nat "/srv/frontend"
                  (fun root path => (root ++ "/" ++ path)%string)
                  (fun _ => Some 7%nat) Toy.giveUp Toy.emptyModel
                  ToyUrl.pathnameOf
                  "POST" "http://localhost:8000/x/../api/solve" None initial
     = (inr (ApiResponse (jsonError "Invalid JSON payload." 400)), initial).
Proof. split; reflexivity. Qed.

(** X9 (files served by [main.ts]). Whenever the server answers with a
    file, the request was not a POST to /api/solve, no call was made to the
    backend, and the file is what [serveFile] gave for a path that starts
    with the frontend directory and was made from a relative path with no
    ".." in it and no slash at its start. *)
Theorem served_file_under_root (File : Type) root normalizeJoin serveFile
    check model method pathname body st (file : File) st' :
  serve File root normalizeJoin serveFile check model method pathname body st
  = (inr (FileResponse file), st') ->
  st' = st
  /\ ((method =? "POST")%string && (pathname =? "/api/solve")%string) = false
  /\ JSString.includes ".." (relativePathOf pathname) = false
  /\ JSString.startsWith "/" (relativePathOf pathname) = false
  /\ JSString.startsWith root (normalizeJoin root (relativePathOf pathname)) = true
  /\ serveFile (normalizeJoin root (relativePathOf pathname)) = Some file.
Proof.
  unfold serve.
  destruct ((method =? "POST")%string && (pathname =? "/api/solve")%string).
  - unfold bind.
    destruct (handleSolveRequest check model body st) as [[e|r] s]; discriminate.
  - unfold ret, serveStaticAsset.
    destruct (JSString.includes ".." (relativePathOf pathname)); [discriminate|].
    destruct (JSString.startsWith root _) eqn:Hroot; [|discriminate].
    cbn [negb].
    destruct (serveFile _) as [f|] eqn:Hf; [|discriminate].
    intros [= -> ->]. repeat split; try assumption. apply relative_no_slash.
Qed.

Lemma served_file_under_root_witness :
  initial = initial
  /\ (("GET" =? "POST")%string && ("/" =? "/api/solve")%string) = false
  /\ JSString.includes ".." (relativePathOf "/") = false
  /\ JSString.startsWith "/" (relativePathOf "/") = false
  /\ JSString.startsWith "/srv/frontend"
       ("/srv/frontend" ++ "/" ++ relativePathOf "/")%string = true
  /\ (if ("/srv/frontend" ++ "/" ++ relativePathOf "/"
          =? "/srv/frontend/index.html")%string
      then Some 1%nat else None) = Some 1%nat.
Proof.
  apply (served_file_under_root nat "/srv/frontend"
           (fun root path => (root ++ "/" ++ path)%string)
           (fun p => if (p =? "/srv/frontend/index.html")%string
                     then Some 1%nat else None)
           Toy.alwaysSat Toy.emptyModel "GET" "/" None initial 1%nat initial).
  reflexivity.
Defined.

(** X10 (files served by the process-isolated server). Whenever that
    server answers with a file, the request was not a POST to /api/solve,
    no solver process was run, the body is what [fetch] gave for the
    resolved URL, which starts with the frontend URL and was made from a
    relative path with no ".." in it, and the content type is
    "text/html; charset=utf-8", "text/css" or "application/javascript" for
    a URL ending in ".html", ".css" or ".js". *)
Theorem fetched_file_under_root (Body : Type) root resolve fetch process
    method pathname body signal st (file : FetchedFile Body) st' :
  IsolatedAssets.serve Body root resolve fetch process method pathname body
                       signal st
  = (inr (FileResponse file), st') ->
  let filePath := resolve (relativePathOf pathname) root in
  st' = st
  /\ ((method =? "POST")%string && (pathname =? "/api/solve")%string) = false
  /\ JSString.includes ".." (relativePathOf pathname) = false
  /\ JSString.startsWith root filePath = true
  /\ (exists header, fetch filePath = Some (fetchedBody file, header))
  /\ (JSString.endsWith ".html" filePath = true ->
      contentType file = "text/html; charset=utf-8")
  /\ (JSString.endsWith ".html" filePath = false ->
      JSString.endsWith ".css" filePath = true ->
      contentType file = "text/css")
  /\ (JSString.endsWith ".html" filePath = false ->
      JSString.endsWith ".css" filePath = false ->
      JSString.endsWith ".js" filePath = true ->
      contentType file = "application/javascript").
Proof.
  unfold IsolatedAssets.serve.
  destruct ((method =? "POST")%string && (pathname =? "/api/solve")%string).
  - unfold bind.
    destruct (Isolated.handleSolveRequest process body signal st) as [[e|r] s];
      discriminate.
  - unfold ret, IsolatedAssets.serveStaticAsset.
    destruct (JSString.includes ".." (relativePathOf pathname)); [discriminate|].
    destruct (JSString.startsWith root _) eqn:Hroot; [|discriminate].
    cbn [negb].
    destruct (fetch _) as [[b header]|] eqn:Hf; [|discriminate].
    intros [= <- <-]. cbv zeta. cbn [fetchedBody contentType].
    unfold IsolatedAssets.contentTypeOf.
    repeat split; try assumption; try (now exists header).
    + now intros ->.
    + now intros -> ->.
    + now intros -> -> ->.
Qed.

Lemma fetched_file_under_root_witness :
  let filePath := ("file:///srv/frontend/" ++ relativePathOf "/app.js")%string in
  initial = initial
  /\ (("GET" =? "POST")%string && ("/app.js" =? "/api/solve")%string) = false
  /\ JSString.includes ".." (relativePathOf "/app.js") = false
  /\ JSString.startsWith "file:///srv/frontend/" filePath = true
  /\ (exists header,
        Some (7%nat, @None string)
        = Some (fetchedBody (mkFetched 7%nat "application/javascript"), header))
  /\ (JSString.endsWith ".html" filePath = true ->
      contentType (mkFetched 7%nat "application/javascript")
      = "text/html; charset=utf-8")
  /\ (JSString.endsWith ".html" filePath = false ->
      JSString.endsWith ".css" filePath = true ->
      contentType (mkFetched 7%nat "application/javascript") = "text/css")
  /\ (JSString.endsWith ".html" filePath = false ->
      JSString.endsWith ".css" filePath = false ->
      JSString.endsWith ".js" filePath = true ->
      contentType (mkFetched 7%nat "application/javascript")
      = "application/javascript").
Proof.
  apply (fetched_file_under_root nat "file:///srv/frontend/"
           (fun path root => (root ++ path)%string)
           (fun _ => Some (7%nat, None))
           (Isolated.solverProcess Toy.alwaysSat Toy.emptyModel)
           "GET" "/app.js" None (mkSignal false false) initial
           (mkFetched 7%nat "application/javascript") initial).
  reflexivity.
Defined.

(* ================================================================== *)
(** ** The page: moving the focus *)

Lemma nextIndex_table :
  forallb (fun i =>
    forallb (fun '(dr, dc) =>
      let next := Frontend.nextIndex i dr dc in
      (0 <=? next) && (next <? 81)
      && (Frontend.nextIndex next (- dr) (- dc) =? i)
      && (next / 9 =? (i / 9 + dr) mod 9)
      && (next mod 9 =? (i mod 9 + dc) mod 9))
      Frontend.arrowSteps)
    (map Z.of_nat (seq 0 81))
  = true.
Proof. vm_compute. reflexivity. Qed.

Lemma nextIndex_arrow i dr dc :
  0 <= i < 81 -> In (dr, dc) Frontend.arrowSteps ->
  let next := Frontend.nextIndex i dr dc in
  0 <= next < 81
  /\ Frontend.nextIndex next (- dr) (- dc) = i
  /\ next / 9 = (i / 9 + dr) mod 9
  /\ next mod 9 = (i mod 9 + dc) mod 9.
Proof.
  intros Hi Hd.
  pose proof nextIndex_table as H. rewrite forallb_forall in H.
  specialize (H i). rewrite forallb_forall in H.
  assert (In i (map Z.of_nat (seq 0 81))) as Hin.
  { apply in_map_iff. exists (Z.to_nat i). split; [lia|]. apply in_seq. lia. }
  specialize (H Hin (dr, dc) Hd). cbv zeta in *. cbv beta iota in H.
  apply andb_true_iff in H as [H H5]. apply andb_true_iff in H as [H H4].
  apply andb_true_iff in H as [H H3]. apply andb_true_iff in H as [H1 H2].
  apply Z.leb_le in H1. apply Z.ltb_lt in H2.
  apply Z.eqb_eq in H3, H4, H5. now repeat split.
Qed.

Lemma moveFocus_values ui i dr dc :
  Frontend.inputValues (Frontend.moveFocus ui i dr dc) = Frontend.inputValues ui.
Proof.
  unfold Frontend.moveFocus. now destruct (Frontend.hasInput ui _).
Qed.

Lemma moveFocus_arrow ui i dr dc :
  List.length (Frontend.inputValues ui) = 81%nat ->
  0 <= i < 81 -> In (dr, dc) Frontend.arrowSteps ->
  Frontend.focused (Frontend.moveFocus ui i dr dc)
  = Some (Z.to_nat (Frontend.nextIndex i dr dc)).
Proof.
  intros Hlen Hi Hd. destruct (nextIndex_arrow i dr dc Hi Hd) as (Hn & _).
  cbv zeta in Hn.
  unfold Frontend.moveFocus, Frontend.hasInput. rewrite Hlen.
  rewrite (proj2 (Z.leb_le _ _) (proj1 Hn)).
  assert ((Frontend.nextIndex i dr dc <? Z.of_nat 81) = true) as ->
      by (apply Z.ltb_lt; lia).
  reflexivity.
Qed.

Lemma arrow_positions :
  forallb (fun i =>
    (Z.to_nat (Frontend.nextIndex (Z.of_nat i) (-1) 0)
     =? (i / 9 + 8) mod 9 * 9 + i mod 9)%nat
    && (Z.to_nat (Frontend.nextIndex (Z.of_nat i) 1 0)
        =? (i / 9 + 1) mod 9 * 9 + i mod 9)%nat
    && (Z.to_nat (Frontend.nextIndex (Z.of_nat i) 0 (-1))
        =? i / 9 * 9 + (i mod 9 + 8) mod 9)%nat
    && (Z.to_nat (Frontend.nextIndex (Z.of_nat i) 0 1)
        =? i / 9 * 9 + (i mod 9 + 1) mod 9)%nat)
    (seq 0 81)
  = true.
Proof. vm_compute. reflexivity. Qed.

(** X11 (arrow keys). On a page of 81 inputs, an arrow key pressed in the
    input at [current], in row [current / 9] and column [current mod 9],
    moves the focus to another input of the grid: up and down to the row
    before and after in the same column, left and right to the column
    before and after in the same row, from the first row or column to the
    last and from the last to the first. The opposite arrow pressed there
    brings the focus back to [current]. No value changes. *)
Theorem arrows_move_and_return ui key back current :
  List.length (Frontend.inputValues ui) = 81%nat ->
  (current < 81)%nat ->
  In (key, back)
     [("ArrowUp", "ArrowDown"); ("ArrowDown", "ArrowUp");
      ("ArrowLeft", "ArrowRight"); ("ArrowRight", "ArrowLeft")] ->
  exists next,
    Frontend.focused (Frontend.handleNavigation ui key current) = Some next
    /\ (key = "ArrowUp" ->
        next = ((current / 9 + 8) mod 9 * 9 + current mod 9)%nat)
    /\ (key = "ArrowDown" ->
        next = ((current / 9 + 1) mod 9 * 9 + current mod 9)%nat)
    /\ (key = "ArrowLeft" ->
        next = (current / 9 * 9 + (current mod 9 + 8) mod 9)%nat)
    /\ (key = "ArrowRight" ->
        next = (current / 9 * 9 + (current mod 9 + 1) mod 9)%nat)
    /\ (next < 81)%nat
    /\ next <> current
    /\ Frontend.focused
         (Frontend.handleNavigation (Frontend.handleNavigation ui key current)
                                    back next)
       = Some current
    /\ Frontend.inputValues (Frontend.handleNavigation ui key current)
       = Frontend.inputValues ui.
Proof.
  intros Hlen Hcur Hkey.
  assert (0 <= Z.of_nat current < 81) as Hi by lia.
  pose proof arrow_positions as Htable. rewrite forallb_forall in Htable.
  specialize (Htable current (proj2 (in_seq 81 0 current) ltac:(lia))).
  apply andb_true_iff in Htable as [Htable Hright].
  apply andb_true_iff in Htable as [Htable Hleft].
  apply andb_true_iff in Htable as [Hup Hdown].
  apply Nat.eqb_eq in Hup, Hdown, Hleft, Hright.
  assert (exists dr dc,
            In (dr, dc) Frontend.arrowSteps
            /\ (forall u, Frontend.handleNavigation u key current
                          = Frontend.moveFocus u (Z.of_nat current) dr dc)
            /\ (forall u n, Frontend.handleNavigation u back n
                            = Frontend.moveFocus u (Z.of_nat n) (- dr) (- dc))
            /\ (key = "ArrowUp" -> (dr, dc) = (-1, 0))
            /\ (key = "ArrowDown" -> (dr, dc) = (1, 0))
            /\ (key = "ArrowLeft" -> (dr, dc) = (0, -1))
            /\ (key = "ArrowRight" -> (dr, dc) = (0, 1)))
    as (dr & dc & Hd & Hgo & Hback & Hku & Hkd & Hkl & Hkr).
  { simpl in Hkey.
    destruct Hkey as [E|[E|[E|[E|[]]]]]; injection E as <- <-.
    - exists (-1), 0. simpl. repeat split; auto; discriminate.
    - exists 1, 0. simpl. repeat split; auto; discriminate.
    - exists 0, (-1). simpl. repeat split; auto; discriminate.
    - exists 0, 1. simpl. repeat split; auto; discriminate. }
  destruct (nextIndex_arrow _ dr dc Hi Hd) as (Hn & Hinv & Hr & Hc).
  cbv zeta in *.
  set (next := Frontend.nextIndex (Z.of_nat current) dr dc) in *.
  exists (Z.to_nat next).
  rewrite !Hgo, Hback.
  split; [now apply moveFocus_arrow|].
  split; [intros Hk; specialize (Hku Hk); injection Hku as -> ->; exact Hup|].
  split; [intros Hk; specialize (Hkd Hk); injection Hkd as -> ->; exact Hdown|].
  split; [intros Hk; specialize (Hkl Hk); injection Hkl as -> ->; exact Hleft|].
  split; [intros Hk; specialize (Hkr Hk); injection Hkr as -> ->; exact Hright|].
  split; [lia|]. split.
  - intros E.
    assert (next = Z.of_nat current) as E' by lia.
    rewrite E' in Hr, Hc.
    assert (0 <= Z.of_nat current / 9 < 9)
      by (split; [apply Z.div_pos; lia | apply Z.div_lt_upper_bound; lia]).
    assert (0 <= Z.of_nat current mod 9 < 9) by (apply Z.mod_pos_bound; lia).
    simpl in Hd.
    destruct Hd as [E0|[E0|[E0|[E0|[]]]]]; injection E0 as <- <-.
    + destruct (Z.eq_dec (Z.of_nat current / 9) 0) as [Z0|Z0].
      * rewrite Z0 in Hr. change ((0 + -1) mod 9) with 8 in Hr. lia.
      * rewrite Z.mod_small in Hr by lia. lia.
    + destruct (Z.eq_dec (Z.of_nat current / 9) 8) as [Z0|Z0].
      * rewrite Z0 in Hr. change ((8 + 1) mod 9) with 0 in Hr. lia.
      * rewrite Z.mod_small in Hr by lia. lia.
    + destruct (Z.eq_dec (Z.of_nat current mod 9) 0) as [Z0|Z0].
      * rewrite Z0 in Hc. change ((0 + -1) mod 9) with 8 in Hc. lia.
      * rewrite (Z.mod_small (_ + -1)) in Hc by lia. lia.
    + destruct (Z.eq_dec (Z.of_nat current mod 9) 8) as [Z0|Z0].
      * rewrite Z0 in Hc. change ((8 + 1) mod 9) with 0 in Hc. lia.
      * rewrite (Z.mod_small (_ + 1)) in Hc by lia. lia.
  - split.
    + assert (In (- dr, - dc) Frontend.arrowSteps) as Hd'.
      { simpl in Hd. destruct Hd as [E|[E|[E|[E|[]]]]]; injection E as <- <-;
          simpl; auto. }
      rewrite moveFocus_arrow;
        [|now rewrite moveFocus_values | lia | assumption].
      rewrite Z2Nat.id by lia. rewrite Hinv. now rewrite Nat2Z.id.
    + apply moveFocus_values.
Qed.

Lemma arrows_move_and_return_witness :
  exists next,
    Frontend.focused (Frontend.handleNavigation Frontend.start "ArrowRight" 8)
    = Some next
    /\ ("ArrowRight" = "ArrowUp" ->
        next = ((8 / 9 + 8) mod 9 * 9 + 8 mod 9)%nat)
    /\ ("ArrowRight" = "ArrowDown" ->
        next = ((8 / 9 + 1) mod 9 * 9 + 8 mod 9)%nat)
    /\ ("ArrowRight" = "ArrowLeft" ->
        next = (8 / 9 * 9 + (8 mod 9 + 8) mod 9)%nat)
    /\ ("ArrowRight" = "ArrowRight" ->
        next = (8 / 9 * 9 + (8 mod 9 + 1) mod 9)%nat)
    /\ (next < 81)%nat
    /\ next <> 8%nat
    /\ Frontend.focused
         (Frontend.handleNavigation
            (Frontend.handleNavigation Frontend.start "ArrowRight" 8)
            "ArrowLeft" next)
       = Some 8%nat
    /\ Frontend.inputValues (Frontend.handleNavigation Frontend.start "ArrowRight" 8)
       = Frontend.inputValues Frontend.start.
Proof.
  apply (arrows_move_and_return Frontend.start "ArrowRight" "ArrowLeft" 8).
  - reflexivity.
  - lia.
  - simpl. auto.
Defined.

(** The four arrows at the corner 0, and up from 3: the focus wraps to
    the other side of the grid. *)
Example arrows_wrap :
  Frontend.focused (Frontend.handleNavigation Frontend.start "ArrowLeft" 0)
  = Some 8%nat
  /\ Frontend.focused (Frontend.handleNavigation Frontend.start "ArrowUp" 0)
     = Some 72%nat
  /\ Frontend.focused (Frontend.handleNavigation Frontend.start "ArrowRight" 0)
     = Some 1%nat
  /\ Frontend.focused (Frontend.handleNavigation Frontend.start "ArrowDown" 0)
     = Some 9%nat
  /\ Frontend.focused (Frontend.handleNavigation Frontend.start "ArrowUp" 3)
     = Some 75%nat.
Proof. repeat split; reflexivity. Qed.

(* ================================================================== *)
(** ** The page: conflicts between the cells *)

Lemma keyEqb_eq a b : Frontend.keyEqb a b = true <-> a = b.
Proof.
  destruct a, b; simpl; try (split; congruence).
  rewrite Z.eqb_eq. split; congruence.
Qed.

Lemma keyEqb_refl a : Frontend.keyEqb a a = true.
Proof. now apply keyEqb_eq. Qed.

Lemma in_setAdd x y s : In x (Frontend.setAdd y s) <-> x = y \/ In x s.
Proof.
  unfold Frontend.setAdd. destruct (existsb (Nat.eqb y) s) eqn:E.
  - split; [auto|]. intros [->|H]; [|assumption].
    apply existsb_exists in E as (z & Hz & Heq).
    apply Nat.eqb_eq in Heq. now subst.
  - rewrite in_app_iff. simpl. intuition.
Qed.

Lemma NoDup_setAdd y s : NoDup s -> NoDup (Frontend.setAdd y s).
Proof.
  intros Hnd. unfold Frontend.setAdd. destruct (existsb (Nat.eqb y) s) eqn:E;
    [assumption|].
  apply NoDup_app; [assumption | repeat constructor; intros [] |].
  intros x Hx [Heq|[]]. subst x.
  assert (existsb (Nat.eqb y) s = true) as H; [|congruence].
  apply existsb_exists. exists y. split; [assumption | apply Nat.eqb_refl].
Qed.

Lemma mapGet_app key m k v :
  Frontend.mapGet key (m ++ [(k, v)])
  = match Frontend.mapGet key m with
    | Some first => Some first
    | None => if Frontend.keyEqb k key then Some v else None
    end.
Proof.
  induction m as [|[k' v'] m IH]; simpl; [reflexivity|].
  destruct (Frontend.keyEqb k' key); [reflexivity | exact IH].
Qed.

Lemma twin_mono board gone idx i : twin board gone i -> twin board (gone ++ [idx]) i.
Proof.
  intros (Hi & Hv & j & Hj & Hne & Heq). split; [|split].
  - apply in_app_iff. now left.
  - assumption.
  - exists j. split; [apply in_app_iff; now left | now split].
Qed.

Lemma in_snoc {A} (x y : A) l : In x (l ++ [y]) <-> In x l \/ x = y.
Proof. rewrite in_app_iff. simpl. intuition. Qed.

(** One turn of the loop keeps [checkInv]. *)
Lemma checkStep_inv board gone st before idx :
  ~ In idx gone ->
  checkInv board gone st before ->
  checkInv board (gone ++ [idx]) (Frontend.checkStep board st idx) before.
Proof.
  intros Hnew (Hseen & Hall & Hconf). destruct st as [seen conflicts].
  cbn [fst snd] in *. unfold Frontend.checkStep.
  destruct (Frontend.keyEqb (nth_error board idx) (Some 0)) eqn:Hzero.
  - (* an empty cell *)
    apply keyEqb_eq in Hzero. split; [|split]; cbn [fst snd].
    + intros v first H. apply Hseen in H as (H1 & H2 & H3).
      split; [apply in_snoc; now left | now split].
    + intros k Hk Hv. apply in_snoc in Hk as [Hk| ->]; [now apply Hall | contradiction].
    + intros i. rewrite Hconf. split; (intros [H|H]; [now left | right]).
      * now apply twin_mono.
      * destruct H as (Hi & Hv & j & Hj & Hne & Heq).
        apply in_snoc in Hi as [Hi| ->]; [|contradiction].
        apply in_snoc in Hj as [Hj| ->]; [|congruence].
        split; [assumption|]. split; [assumption|]. now exists j.
  - assert (nth_error board idx <> Some 0) as Hnz.
    { intros E. apply keyEqb_eq in E. congruence. }
    destruct (Frontend.mapGet (nth_error board idx) seen) as [first|] eqn:Hget.
    + (* the value has been seen *)
      destruct (Hseen _ _ Hget) as (Hfirst & Hval & _).
      assert (first <> idx) as Hne by (intros ->; contradiction).
      split; [|split]; cbn [fst snd].
      * intros v f H. apply Hseen in H as (H1 & H2 & H3).
        split; [apply in_snoc; now left | now split].
      * intros k Hk Hv. apply in_snoc in Hk as [Hk| ->];
          [now apply Hall | now exists first].
      * intros i. rewrite !in_setAdd, Hconf. split.
        -- intros [-> | [-> | [H|H]]].
           ++ right. split; [apply in_snoc; now left|].
              split; [congruence|]. exists idx.
              split; [apply in_snoc; now right|]. split; [auto | congruence].
           ++ right. split; [apply in_snoc; now right|].
              split; [assumption|]. exists first.
              split; [apply in_snoc; now left | now split].
           ++ now left.
           ++ right. now apply twin_mono.
        -- intros [H|H]; [now right; right; left|].
           destruct H as (Hi & Hv & j & Hj & Hij & Heq).
           apply in_snoc in Hi as [Hi| ->]; [|now right; left].
           apply in_snoc in Hj as [Hj| ->].
           ++ right; right; right. split; [assumption|].
              split; [assumption|]. now exists j.
           ++ destruct (Nat.eq_dec i first) as [->|Hif]; [now left|].
              right; right; right. split; [assumption|].
              split; [assumption|]. exists first.
              split; [assumption|]. split; [auto | congruence].
    + (* a new value *)
      split; [|split]; cbn [fst snd].
      * intros v f H. rewrite mapGet_app in H.
        destruct (Frontend.mapGet v seen) as [f'|] eqn:Hv.
        -- injection H as <-. apply Hseen in Hv as (H1 & H2 & H3).
           split; [apply in_snoc; now left | now split].
        -- destruct (Frontend.keyEqb (nth_error board idx) v) eqn:Hk;
             [|discriminate].
           injection H as <-. apply keyEqb_eq in Hk. subst v.
           split; [apply in_snoc; now right | now split].
      * intros k Hk Hv. rewrite mapGet_app.
        apply in_snoc in Hk as [Hk| ->].
        -- destruct (Hall k Hk Hv) as (f & ->). now exists f.
        -- rewrite Hget, keyEqb_refl. now exists idx.
      * intros i. rewrite Hconf. split; (intros [H|H]; [now left | right]).
        -- now apply twin_mono.
        -- destruct H as (Hi & Hv & j & Hj & Hij & Heq).
           apply in_snoc in Hi as [Hi| ->]; apply in_snoc in Hj as [Hj| ->].
           ++ split; [assumption|]. split; [assumption|]. now exists j.
           ++ exfalso. destruct (Hall i Hi Hv) as (f & Hf). congruence.
           ++ exfalso. assert (nth_error board j <> Some 0) as Hvj by congruence.
              destruct (Hall j Hj Hvj) as (f & Hf). congruence.
           ++ contradiction.
Qed.

Lemma checkGroup_loop board before indices : forall gone st,
  NoDup (gone ++ indices) ->
  checkInv board gone st before ->
  checkInv board (gone ++ indices)
           (fold_left (Frontend.checkStep board) indices st) before.
Proof.
  induction indices as [|idx rest IH]; intros gone st Hnd Hinv.
  - now rewrite app_nil_r.
  - cbn [fold_left].
    replace (gone ++ idx :: rest) with ((gone ++ [idx]) ++ rest) in *
      by (rewrite <- app_assoc; reflexivity).
    apply IH; [assumption|].
    apply checkStep_inv; [|assumption].
    rewrite <- app_assoc in Hnd. apply NoDup_remove_2 in Hnd.
    intros Hin. apply Hnd. apply in_app_iff. now left.
Qed.

(** [checkGroup] adds to the conflicts the cells of the group that have a
    twin in it. *)
Lemma in_checkGroup board indices before i :
  NoDup indices ->
  In i (Frontend.checkGroup board indices before)
  <-> In i before \/ twin board indices i.
Proof.
  intros Hnd. unfold Frontend.checkGroup.
  apply (checkGroup_loop board before indices [] ([], before) Hnd).
  split; [|split]; cbn [fst snd].
  - intros v first H. discriminate.
  - intros k [].
  - intros k. split; [now left|]. intros [H|(H & _)]; [assumption | destruct H].
Qed.

Lemma checkStep_NoDup board st idx :
  NoDup (snd st) -> NoDup (snd (Frontend.checkStep board st idx)).
Proof.
  destruct st as [seen conflicts]. unfold Frontend.checkStep. cbn [snd].
  intros Hnd. destruct (Frontend.keyEqb _ _); [assumption|].
  destruct (Frontend.mapGet _ _); [|assumption].
  cbn [snd]. now apply NoDup_setAdd, NoDup_setAdd.
Qed.

Lemma checkGroup_NoDup board indices before :
  NoDup before -> NoDup (Frontend.checkGroup board indices before).
Proof.
  unfold Frontend.checkGroup. generalize (@nil (option Z * nat)).
  intros seen Hnd.
  assert (NoDup (snd (seen, before))) as H by assumption.
  revert H. generalize (seen, before). clear.
  induction indices as [|idx rest IH]; intros st H; [assumption|].
  cbn [fold_left]. apply IH. now apply checkStep_NoDup.
Qed.

(** The three loop nests of [findConflicts] go through the 27 groups. *)
Lemma findConflicts_groups board :
  Frontend.findConflicts board
  = fold_left (fun conflicts idx => Frontend.checkGroup board idx conflicts)
              groupIdxs [].
Proof. reflexivity. Qed.

Lemma in_fold_checkGroup board groups : forall before i,
  Forall (@NoDup nat) groups ->
  In i (fold_left (fun conflicts idx => Frontend.checkGroup board idx conflicts)
                  groups before)
  <-> In i before \/ exists idx, In idx groups /\ twin board idx i.
Proof.
  induction groups as [|g rest IH]; intros before i HF; cbn [fold_left].
  - split; [now left|]. intros [H|(idx & [] & _)]. assumption.
  - inversion HF as [|? ? Hg Hrest]; subst.
    rewrite (IH _ i Hrest), (in_checkGroup board g before i Hg). split.
    + intros [[H|H]|(idx & Hin & H)].
      * now left.
      * right. exists g. split; [now left | assumption].
      * right. exists idx. split; [now right | assumption].
    + intros [H|(idx & [<-|Hin] & H)].
      * now left; left.
      * now left; right.
      * right. now exists idx.
Qed.

Lemma groupIdxs_NoDup : Forall (@NoDup nat) groupIdxs.
Proof.
  apply Forall_forall. intros idx Hin.
  assert (forallb (fun idx => Z3.distinctb (map Z.of_nat idx)) groupIdxs = true)
    as H by (vm_compute; reflexivity).
  rewrite forallb_forall in H. specialize (H idx Hin).
  apply distinctb_NoDup in H. now apply NoDup_map_inv in H.
Qed.

Lemma idx_sameGroup idx i j :
  In idx groupIdxs -> In i idx -> In j idx -> sameGroup i j.
Proof.
  intros Hidx Hi Hj.
  assert (forallb (fun idx =>
            forallb (fun i =>
              forallb (fun j =>
                (i / 9 =? j / 9) || (i mod 9 =? j mod 9)
                || ((i / 9 / 3 =? j / 9 / 3) && (i mod 9 / 3 =? j mod 9 / 3)))%nat
                idx) idx) groupIdxs = true) as H by (vm_compute; reflexivity).
  rewrite forallb_forall in H. specialize (H idx Hidx).
  rewrite forallb_forall in H. specialize (H i Hi).
  rewrite forallb_forall in H. specialize (H j Hj).
  unfold sameGroup.
  apply orb_true_iff in H as [H|H]; [apply orb_true_iff in H as [H|H]|].
  - left. now apply Nat.eqb_eq.
  - right; left. now apply Nat.eqb_eq.
  - right; right. apply andb_true_iff in H as [H1 H2].
    split; now apply Nat.eqb_eq.
Qed.

Lemma in_findConflicts board i :
  In i (Frontend.findConflicts board)
  <-> (i < 81)%nat
      /\ nth_error board i <> Some 0
      /\ exists j, (j < 81)%nat /\ j <> i /\ sameGroup i j
                   /\ nth_error board j = nth_error board i.
Proof.
  rewrite findConflicts_groups, (in_fold_checkGroup _ _ _ _ groupIdxs_NoDup).
  split.
  - intros [[]|(idx & Hidx & Hi & Hv & j & Hj & Hne & Heq)].
    destruct (groupIdxs_shape idx Hidx) as [_ Hlt].
    split; [now apply Hlt|]. split; [assumption|].
    exists j. split; [now apply Hlt|]. split; [assumption|].
    split; [now apply (idx_sameGroup idx) | assumption].
  - intros (Hi & Hv & j & Hj & Hne & Hsame & Heq). right.
    destruct (sameGroup_idx i j Hi Hj Hsame) as (idx & Hidx & Hini & Hinj).
    exists idx. split; [assumption|]. split; [assumption|].
    split; [assumption|]. now exists j.
Qed.

(** X12 (conflicts are duplicates). [findConflicts] returns exactly the
    positions of the grid whose value is not 0 and is also the value of
    another position in the same row, column or box. A position past the
    end of the board reads [undefined], a value like any other. The set
    holds no position twice. *)
Theorem conflicts_are_duplicates board i :
  (In i (Frontend.findConflicts board)
   <-> (i < 81)%nat
       /\ nth_error board i <> Some 0
       /\ exists j, (j < 81)%nat /\ j <> i /\ sameGroup i j
                    /\ nth_error board j = nth_error board i)
  /\ NoDup (Frontend.findConflicts board).
Proof.
  split; [apply in_findConflicts|].
  rewrite findConflicts_groups. generalize (NoDup_nil nat).
  generalize (@nil nat). induction groupIdxs as [|g rest IH];
    intros before Hnd; cbn [fold_left]; [assumption|].
  apply IH. now apply checkGroup_NoDup.
Qed.

(* ================================================================== *)
(** ** The page's check and the solver *)

Lemma conflict_no_solution board g :
  List.length board = 81%nat ->
  Frontend.findConflicts board <> [] ->
  ~ isSolutionOf board g.
Proof.
  intros Hlen Hne.
  destruct (Frontend.findConflicts board) as [|i rest] eqn:E; [contradiction|].
  assert (In i (Frontend.findConflicts board)) as Hin by (rewrite E; now left).
  apply in_findConflicts in Hin as (Hi & Hv & j & Hj & Hij & Hsame & Heq).
  rewrite (nth_error_nth' board 0) in Hv, Heq by lia.
  rewrite (nth_error_nth' board 0) in Heq by lia.
  apply (duplicate_no_solution board g i j (nth i board 0) Hlen);
    [auto | assumption | apply nth_error_nth'; lia | | congruence].
  rewrite (nth_error_nth' board 0) by lia. exact Heq.
Qed.

Lemma puzzle_keeps_clues : keepsClues Toy.puzzle Toy.solved.
Proof.
  intros k given Hk Hnz.
  assert (k < 81)%nat as Hlt.
  { change 81%nat with (List.length Toy.puzzle). apply nth_error_Some. congruence. }
  assert (forallb (fun k =>
            match nth_error Toy.puzzle k, nth_error Toy.solved k with
            | Some v, Some w => (v =? 0) || (v =? w)
            | _, _ => false
            end) (range 81) = true) as H by (vm_compute; reflexivity).
  rewrite forallb_forall in H. specialize (H k (proj2 (in_range k 81) Hlt)).
  rewrite Hk in H. destruct (nth_error Toy.solved k) as [w|]; [|discriminate].
  apply orb_true_iff in H as [H|H]; apply Z.eqb_eq in H; congruence.
Qed.

(** X13 (the page refuses no solvable board). A board of 81 entries that
    has a solution has no conflict for [findConflicts]: the page sends
    every solvable puzzle to the server. *)
Theorem solvable_has_no_conflict board g :
  List.length board = 81%nat ->
  isSolutionOf board g ->
  Frontend.findConflicts board = [].
Proof.
  intros Hlen Hsol.
  destruct (Frontend.findConflicts board) as [|i rest] eqn:E; [reflexivity|].
  exfalso. apply (conflict_no_solution board g Hlen); [|assumption].
  rewrite E. discriminate.
Qed.

Lemma solvable_has_no_conflict_witness : Frontend.findConflicts Toy.puzzle = [].
Proof.
  apply (solvable_has_no_conflict Toy.puzzle Toy.solved eq_refl).
  split; [exact solved_valid | exact puzzle_keeps_clues].
Defined.

(** X14 (what the page refuses, the server refuses). With a backend that
    meets the contract, a board of 81 integers in 0..9 in which
    [findConflicts] finds a conflict is answered 422 by the handler, after
    one check and no call for a model. *)
Theorem conflict_is_422 check model board st :
  satSound check model ->
  List.length board = 81%nat ->
  Forall (fun v => 0 <= v <= 9) board ->
  Frontend.findConflicts board <> [] ->
  handleSolveRequest check model (Some (boardPayload board)) st
  = (inr (jsonError "The provided Sudoku board is unsatisfiable." 422),
     mkState (constraints board) (calls st ++ [CheckCall (constraints board)])).
Proof.
  intros Hsat Hlen HF Hconf.
  rewrite handleSolveRequest_board by assumption.
  unfold solveSudoku. rewrite not_sat_throws; [reflexivity | assumption |].
  intros Hc. destruct (Hsat _ Hc) as (I & HI & _).
  apply (satisfies_iff_solution I board Hlen) in HI.
  exact (conflict_no_solution board (gridOf I) Hlen Hconf HI).
Qed.

Lemma twoFives_in_range : Forall (fun v => 0 <= v <= 9) Toy.twoFives.
Proof.
  apply Forall_forall. intros v [<-|[<-|H]]; [lia | lia |].
  apply repeat_spec in H. lia.
Qed.

Lemma conflict_is_422_witness :
  handleSolveRequest (Toy.check [Toy.solved]) (Toy.model [Toy.solved])
                     (Some (boardPayload Toy.twoFives)) initial
  = (inr (jsonError "The provided Sudoku board is unsatisfiable." 422),
     mkState (constraints Toy.twoFives) [CheckCall (constraints Toy.twoFives)]).
Proof.
  apply (conflict_is_422 (Toy.check [Toy.solved]) (Toy.model [Toy.solved])
           Toy.twoFives initial (toy_satSound [Toy.solved]) eq_refl
           twoFives_in_range).
  assert (Frontend.findConflicts Toy.twoFives = [1%nat; 0%nat]) as ->
      by (vm_compute; reflexivity).
  discriminate.
Defined.

(* ================================================================== *)
(** ** The page: what the cells hold *)

Lemma setNth_length {A} i (v : A) a :
  List.length (Frontend.setNth i v a) = List.length a.
Proof.
  revert i. induction a as [|x a IH]; intros [|i]; simpl; auto.
Qed.

Lemma Forall_setNth {A} (P : A -> Prop) i v a :
  Forall P a -> P v -> Forall P (Frontend.setNth i v a).
Proof.
  intros HF Hv. revert i. induction HF; intros [|i]; simpl; constructor; auto.
Qed.

Lemma keepDigits_last value :
  Frontend.okCell (Frontend.lastChar (Frontend.keepDigits value)).
Proof.
  induction value as [|c s IH]; cbn [Frontend.keepDigits]; [now left|].
  destruct (Frontend.isDigit1to9 c) eqn:Hc; [|assumption].
  destruct (Frontend.keepDigits s) as [|c' s'] eqn:E.
  - right. exists c. now split.
  - exact IH.
Qed.

Lemma handleInput_values ui index value :
  Frontend.inputValues (Frontend.handleInput ui index value)
  = Frontend.setNth index (Frontend.lastChar (Frontend.keepDigits value))
                    (Frontend.inputValues ui).
Proof.
  unfold Frontend.handleInput. cbv zeta.
  destruct (negb _); [rewrite moveFocus_values|]; reflexivity.
Qed.

Lemma handleNavigation_values ui key current :
  Frontend.inputValues (Frontend.handleNavigation ui key current)
  = Frontend.inputValues ui.
Proof.
  unfold Frontend.handleNavigation. cbv zeta.
  repeat match goal with
         | |- context [if ?b then _ else _] => destruct b
         end; try apply moveFocus_values; reflexivity.
Qed.

Lemma clearBoard_values ui :
  Frontend.inputValues (Frontend.clearBoard ui)
  = map (fun _ => "") (Frontend.inputValues ui).
Proof.
  unfold Frontend.clearBoard, Frontend.setStatus. cbn [Frontend.inputValues].
  now destruct (map _ (Frontend.inputValues ui)).
Qed.

Lemma digit_char c :
  Frontend.isDigit1to9 c = true ->
  JS.isWhiteSpace c = false
  /\ exists v, JS.digitOf c = Some v /\ 1 <= v <= 9
               /\ c = ascii_of_nat (Z.to_nat v + 48).
Proof.
  destruct c as [[] [] [] [] [] [] [] []]; intros H; vm_compute in H;
    try discriminate; (split; [reflexivity|]);
    eexists; (split; [vm_compute; reflexivity|]); (split; [lia | reflexivity]).
Qed.

Lemma readCell_digit c v :
  JS.isWhiteSpace c = false -> JS.digitOf c = Some v ->
  Frontend.readCells [String c ""] = Some [v].
Proof.
  intros Hw Hd. cbn [Frontend.readCells]. unfold Frontend.trim.
  cbn [JS.trimStart]. rewrite Hw. cbn [Frontend.trimEnd]. rewrite Hw.
  cbn [String.eqb]. unfold Frontend.numberOfDigits.
  cbn [Frontend.allDigits JS.digits]. rewrite Hd.
  now destruct v.
Qed.

(** How a cell that is empty or holds one digit is read. *)
Lemma readCells_ok values :
  Forall Frontend.okCell values ->
  exists board,
    Frontend.readCells values = Some board
    /\ Forall2 (fun s v =>
                  (s = "" /\ v = 0)
                  \/ exists c, s = String c "" /\ JS.digitOf c = Some v
                               /\ 1 <= v <= 9)
               values board.
Proof.
  induction 1 as [|s values Hs HF (board & Hb & HR)].
  - exists []. split; [reflexivity | constructor].
  - destruct Hs as [->|(c & Hc & ->)].
    + exists (0 :: board). split.
      * cbn [Frontend.readCells]. change (Frontend.trim "") with "".
        cbn [String.eqb]. now rewrite Hb.
      * constructor; [now left | assumption].
    + destruct (digit_char c Hc) as (Hw & v & Hd & Hv & _).
      exists (v :: board). split.
      * pose proof (readCell_digit c v Hw Hd) as H1.
        cbn [Frontend.readCells] in *.
        destruct (if (Frontend.trim (String c "") =? "")%string
                  then Some 0
                  else Frontend.numberOfDigits (Frontend.trim (String c "")))
          as [v'|]; [|discriminate].
        injection H1 as ->. now rewrite Hb.
      * constructor; [|assumption]. right. now exists c.
Qed.

Lemma Forall2_nth {A B} (R : A -> B -> Prop) l l' k d d' :
  Forall2 R l l' -> (k < List.length l)%nat -> R (nth k l d) (nth k l' d').
Proof.
  intros HF. revert k. induction HF; intros [|k] Hk; simpl in *;
    [lia | lia | assumption | apply IHHF; lia].
Qed.

Lemma cell_board_range values board :
  Forall2 (fun s v =>
             (s = "" /\ v = 0)
             \/ exists c, s = String c "" /\ JS.digitOf c = Some v /\ 1 <= v <= 9)
          values board ->
  Forall (fun v => 0 <= v <= 9) board.
Proof.
  induction 1 as [|s v values board H HF IH]; constructor; [|assumption].
  destruct H as [[_ ->]|(c & _ & _ & H)]; lia.
Qed.

Lemma digitOf_inj c c' v :
  JS.digitOf c = Some v -> JS.digitOf c' = Some v -> c = c'.
Proof.
  assert (forall c v, JS.digitOf c = Some v ->
                      c = ascii_of_nat (Z.to_nat v + 48)) as H.
  { clear. intros c v. unfold JS.digitOf. cbv zeta.
    destruct ((48 <=? nat_of_ascii c) && (nat_of_ascii c <=? 57))%nat eqn:E;
      [|discriminate].
    intros [= <-]. apply andb_true_iff in E as [E1 E2].
    apply Nat.leb_le in E1. rewrite Nat2Z.id.
    replace (nat_of_ascii c - 48 + 48)%nat with (nat_of_ascii c) by lia.
    now rewrite ascii_nat_embedding. }
  intros H1 H2. rewrite (H _ _ H1), (H _ _ H2). reflexivity.
Qed.

Lemma solveClick_values ui ui' posted :
  Frontend.solveClick ui = Some (ui', posted) ->
  Frontend.inputValues ui' = Frontend.inputValues ui.
Proof.
  unfold Frontend.solveClick.
  destruct (Frontend.requestUnderWay ui); [now intros [= <- _]|].
  destruct (Frontend.readBoard ui) as [board|]; [|discriminate].
  destruct (0 <? _)%nat; now intros [= <- _].
Qed.

Lemma step_ok ui ev :
  Frontend.cellsOk ui ->
  exists ui', Frontend.step ui ev = Some ui' /\ Frontend.cellsOk ui'.
Proof.
  intros [Hlen HF]. destruct ev as [index value|key current| |];
    cbn [Frontend.step].
  - eexists. split; [reflexivity|]. unfold Frontend.cellsOk.
    rewrite handleInput_values, setNth_length. split; [assumption|].
    apply Forall_setNth; [assumption | apply keepDigits_last].
  - eexists. split; [reflexivity|]. unfold Frontend.cellsOk.
    now rewrite handleNavigation_values.
  - eexists. split; [reflexivity|]. unfold Frontend.cellsOk. cbv zeta.
    assert (Frontend.inputValues
              (match Frontend.inputValues (Frontend.clearBoard ui) with
               | [] => Frontend.clearBoard ui
               | _ :: _ => Frontend.withFocus (Frontend.clearBoard ui) 0
               end)
            = Frontend.inputValues (Frontend.clearBoard ui)) as ->
        by (destruct (Frontend.inputValues (Frontend.clearBoard ui)) eqn:E;
            [exact E | exact E]).
    rewrite clearBoard_values, length_map. split; [assumption|].
    apply Forall_forall. intros s Hs. apply in_map_iff in Hs as (? & <- & _).
    now left.
  - destruct (Frontend.solveClick ui) as [[ui' posted]|] eqn:E.
    + exists ui'. split; [reflexivity|]. unfold Frontend.cellsOk.
      now rewrite (solveClick_values _ _ _ E).
    + exfalso. unfold Frontend.solveClick in E.
      destruct (Frontend.requestUnderWay ui); [discriminate|].
      destruct (readCells_ok _ HF) as (board & Hb & _).
      unfold Frontend.readBoard in E. rewrite Hb in E.
      destruct (0 <? _)%nat; discriminate.
Qed.

Lemma handleInput_ok ui index value :
  Frontend.cellsOk ui -> Frontend.cellsOk (Frontend.handleInput ui index value).
Proof.
  intros Hok.
  destruct (step_ok ui (Frontend.Input index value) Hok) as (ui' & E & Hok').
  cbn [Frontend.step] in E. now injection E as <-.
Qed.

Lemma start_ok : Frontend.cellsOk Frontend.start.
Proof.
  split; [reflexivity|]. apply Forall_forall. intros s Hs.
  left. vm_compute in Hs. repeat (destruct Hs as [<-|Hs]; [reflexivity|]).
  destruct Hs.
Qed.

(** X15 (the cells stay well-formed). Whatever is typed, whatever keys
    are pressed and whatever is clicked, from the page as the script sets
    it up, every event is handled and each of the 81 input cells holds
    nothing or one digit from 1 to 9. A click on Solve is followed up to
    the sending of the request. *)
Theorem cells_stay_ok events :
  exists ui, Frontend.run Frontend.start events = Some ui
             /\ Frontend.cellsOk ui.
Proof.
  generalize start_ok. generalize Frontend.start.
  induction events as [|ev rest IH]; intros ui Hok; cbn [Frontend.run].
  - now exists ui.
  - destruct (step_ok ui ev Hok) as (ui1 & -> & Hok1). now apply IH.
Qed.

Lemma page_board ui :
  Frontend.cellsOk ui ->
  exists board,
    Frontend.readBoard ui = Some board
    /\ List.length board = 81%nat
    /\ Forall (fun v => 0 <= v <= 9) board
    /\ Forall2 (fun s v =>
                  (s = "" /\ v = 0)
                  \/ exists c, s = String c "" /\ JS.digitOf c = Some v
                               /\ 1 <= v <= 9)
               (Frontend.inputValues ui) board.
Proof.
  intros [Hlen HF]. destruct (readCells_ok _ HF) as (board & Hb & HR).
  exists board. split; [assumption|]. split; [|split].
  - rewrite <- (Forall2_length HR). assumption.
  - exact (cell_board_range _ _ HR).
  - assumption.
Qed.

(** X16 (the board of the page passes the entry check). When each of the
    81 input cells holds nothing or one digit from 1 to 9, [readBoard]
    gives 81 integers, 0 for an empty cell and the digit otherwise, and
    the handler of [main.ts] answers the request made of that board with
    a status other than 400, whatever the backend does. *)
Theorem page_board_accepted ui :
  Frontend.cellsOk ui ->
  exists board,
    Frontend.readBoard ui = Some board
    /\ List.length board = 81%nat
    /\ Forall2 (fun s v =>
                  (s = "" /\ v = 0)
                  \/ exists c, s = String c "" /\ JS.digitOf c = Some v
                               /\ 1 <= v <= 9)
               (Frontend.inputValues ui) board
    /\ forall check model st,
         exists r st',
           handleSolveRequest check model (Some (boardPayload board)) st
           = (inr r, st')
           /\ status r <> 400.
Proof.
  intros Hok. destruct (page_board ui Hok) as (board & Hb & Hlen & Hr & HR).
  exists board. split; [assumption|]. split; [assumption|].
  split; [assumption|]. intros check model st.
  rewrite handleSolveRequest_board by assumption. unfold respond.
  destruct (solveSudoku check model board st) as [[e|result] st'].
  - destruct e; eexists; eexists; (split; [reflexivity | discriminate]).
  - eexists; eexists. split; [reflexivity | discriminate].
Qed.

Lemma page_board_accepted_witness :
  exists board,
    Frontend.readBoard Frontend.start = Some board
    /\ List.length board = 81%nat
    /\ Forall2 (fun s v =>
                  (s = "" /\ v = 0)
                  \/ exists c, s = String c "" /\ JS.digitOf c = Some v
                               /\ 1 <= v <= 9)
               (Frontend.inputValues Frontend.start) board
    /\ forall check model st,
         exists r st',
           handleSolveRequest check model (Some (boardPayload board)) st
           = (inr r, st')
           /\ status r <> 400.
Proof. apply (page_board_accepted Frontend.start start_ok). Defined.

(* ================================================================== *)
(** ** The page: writing a board into cells and reading it back *)

Lemma setNth_app {A} (pre : list A) x suf v :
  Frontend.setNth (List.length pre) v (pre ++ x :: suf) = pre ++ v :: suf.
Proof. induction pre as [|y pre IH]; simpl; [reflexivity | now rewrite IH]. Qed.

Lemma writeBoardFrom_ok board : forall pre suf,
  (List.length board <= List.length suf)%nat ->
  Frontend.writeBoardFrom board (List.length pre) (pre ++ suf)
  = (pre ++ map (fun value => if value =? 0 then "" else JS.intToString value)
                board
         ++ skipn (List.length board) suf, true).
Proof.
  induction board as [|v rest IH]; intros pre suf Hlen; [reflexivity|].
  destruct suf as [|x suf]; [simpl in Hlen; lia|].
  cbn [Frontend.writeBoardFrom].
  assert ((List.length pre <? List.length (pre ++ x :: suf))%nat = true) as ->
      by (apply Nat.ltb_lt; rewrite length_app; simpl; lia).
  rewrite setNth_app.
  set (s := if v =? 0 then "" else JS.intToString v).
  replace (pre ++ s :: suf) with ((pre ++ [s]) ++ suf)
    by (rewrite <- app_assoc; reflexivity).
  replace (S (List.length pre)) with (List.length (pre ++ [s]))
    by (rewrite length_app; simpl; lia).
  rewrite IH by (simpl in Hlen; lia).
  rewrite <- app_assoc. reflexivity.
Qed.

Lemma writeBoardFrom_short board : forall pre suf,
  (List.length suf < List.length board)%nat ->
  snd (Frontend.writeBoardFrom board (List.length pre) (pre ++ suf)) = false.
Proof.
  induction board as [|v rest IH]; intros pre suf Hlen; [simpl in Hlen; lia|].
  cbn [Frontend.writeBoardFrom]. destruct suf as [|x suf].
  - rewrite app_nil_r, Nat.ltb_irrefl. reflexivity.
  - assert ((List.length pre <? List.length (pre ++ x :: suf))%nat = true) as ->
        by (apply Nat.ltb_lt; rewrite length_app; simpl; lia).
    rewrite setNth_app.
    set (s := if v =? 0 then "" else JS.intToString v).
    replace (pre ++ s :: suf) with ((pre ++ [s]) ++ suf)
      by (rewrite <- app_assoc; reflexivity).
    replace (S (List.length pre)) with (List.length (pre ++ [s]))
      by (rewrite length_app; simpl; lia).
    apply IH. simpl in Hlen. lia.
Qed.

Lemma readCell_shown v :
  0 <= v <= 9 ->
  (if (Frontend.trim (if (v =? 0)%Z then "" else JS.intToString v) =? "")%string
   then Some 0
   else Frontend.numberOfDigits
          (Frontend.trim (if v =? 0 then "" else JS.intToString v)))
  = Some v.
Proof.
  intros Hv.
  assert (v = 0 \/ v = 1 \/ v = 2 \/ v = 3 \/ v = 4 \/ v = 5 \/ v = 6
          \/ v = 7 \/ v = 8 \/ v = 9) as H by lia.
  repeat (destruct H as [->|H]; [vm_compute; reflexivity|]).
  subst v. vm_compute. reflexivity.
Qed.

Lemma readCells_shown board :
  Forall (fun v => 0 <= v <= 9) board ->
  Frontend.readCells
    (map (fun value => if value =? 0 then "" else JS.intToString value) board)
  = Some board.
Proof.
  induction 1 as [|v board Hv HF IH]; [reflexivity|].
  cbn [map Frontend.readCells]. rewrite (readCell_shown v Hv), IH. reflexivity.
Qed.

(** X17 (a board written into the cells reads back). [writeBoard], given
    as many cells as the board has entries, each an integer in 0..9, runs
    to its end, and reading the cells as [readBoard] does gives the board
    back; given fewer cells than entries it throws. *)
Theorem write_then_read board cells :
  Forall (fun v => 0 <= v <= 9) board ->
  (List.length board = List.length cells ->
   snd (Frontend.writeBoard board cells) = true
   /\ Frontend.readCells (fst (Frontend.writeBoard board cells)) = Some board)
  /\ ((List.length cells < List.length board)%nat ->
      snd (Frontend.writeBoard board cells) = false).
Proof.
  intros HF. unfold Frontend.writeBoard. split.
  - intros Hlen.
    change (Frontend.writeBoardFrom board 0 cells)
      with (Frontend.writeBoardFrom board (List.length (@nil string)) ([] ++ cells)).
    rewrite (writeBoardFrom_ok board [] cells) by lia.
    rewrite Hlen, skipn_all, app_nil_r. cbn [fst snd app].
    split; [reflexivity | now apply readCells_shown].
  - intros Hlen. exact (writeBoardFrom_short board [] cells Hlen).
Qed.

Lemma solved_in_range : Forall (fun v => 0 <= v <= 9) Toy.solved.
Proof.
  apply Forall_forall. intros v Hv. vm_compute in Hv.
  repeat (destruct Hv as [<-|Hv]; [lia|]). destruct Hv.
Qed.

Lemma write_then_read_witness :
  (List.length Toy.solved
   = List.length (Frontend.solutionValues Frontend.start) ->
   snd (Frontend.writeBoard Toy.solved (Frontend.solutionValues Frontend.start))
   = true
   /\ Frontend.readCells
        (fst (Frontend.writeBoard Toy.solved
                                  (Frontend.solutionValues Frontend.start)))
      = Some Toy.solved)
  /\ ((List.length (Frontend.solutionValues Frontend.start)
       < List.length Toy.solved)%nat ->
      snd (Frontend.writeBoard Toy.solved (Frontend.solutionValues Frontend.start))
      = false).
Proof.
  apply (write_then_read Toy.solved (Frontend.solutionValues Frontend.start)
           solved_in_range).
Defined.

(* ================================================================== *)
(** ** The page: a click on Solve *)

Lemma cell_value_eq s v s' v' :
  ((s = "" /\ v = 0)
   \/ exists c, s = String c "" /\ JS.digitOf c = Some v /\ 1 <= v <= 9) ->
  ((s' = "" /\ v' = 0)
   \/ exists c, s' = String c "" /\ JS.digitOf c = Some v' /\ 1 <= v' <= 9) ->
  (v = 0 <-> s = "") /\ (v = v' <-> s = s').
Proof.
  intros [[-> ->]|(c & -> & Hc & Hv)] [[-> ->]|(c' & -> & Hc' & Hv')].
  - tauto.
  - split; [tauto|]. split; [lia | discriminate].
  - split; [split; [lia | discriminate]|]. split; [lia | discriminate].
  - split; [split; [lia | discriminate]|]. split.
    + intros <-. now rewrite (digitOf_inj c c' v Hc Hc').
    + intros [= <-]. congruence.
Qed.

Lemma highlight_nth ui conflicts k :
  nth k (Frontend.inputErrors (Frontend.highlightConflicts ui conflicts)) false
  = true
  <-> (k < List.length (Frontend.inputErrors ui))%nat /\ In k conflicts.
Proof.
  unfold Frontend.highlightConflicts. cbn [Frontend.inputErrors].
  set (n := List.length (Frontend.inputErrors ui)).
  destruct (Nat.lt_ge_cases k n) as [Hk|Hk].
  - rewrite (nth_indep _ false (existsb (Nat.eqb 0%nat) conflicts))
      by (now rewrite length_map, length_seq).
    rewrite (map_nth (fun index => existsb (Nat.eqb index) conflicts)).
    rewrite seq_nth by assumption. cbn [Nat.add].
    rewrite existsb_exists. split.
    + intros (x & Hx & Heq). apply Nat.eqb_eq in Heq. subst x. now split.
    + intros [_ Hin]. exists k. split; [assumption | apply Nat.eqb_refl].
  - rewrite nth_overflow by (now rewrite length_map, length_seq).
    split; [discriminate | lia].
Qed.

(** The conflicts of the board of the page, on the cells. *)
Lemma page_conflicts ui board k :
  Frontend.cellsOk ui ->
  Frontend.readBoard ui = Some board ->
  In k (Frontend.findConflicts board)
  <-> (k < 81)%nat
      /\ nth k (Frontend.inputValues ui) "" <> ""
      /\ exists j, (j < 81)%nat /\ j <> k /\ sameGroup k j
                   /\ nth j (Frontend.inputValues ui) ""
                      = nth k (Frontend.inputValues ui) "".
Proof.
  intros Hok Hb. destruct (page_board ui Hok) as (b & Hb' & Hlen & _ & HR).
  rewrite Hb in Hb'. injection Hb' as <-.
  destruct Hok as [Hl81 _].
  assert (forall a, (a < 81)%nat ->
            nth_error board a = Some (nth a board 0)) as Hnth
      by (intros a Ha; apply nth_error_nth'; lia).
  assert (forall a c, (a < 81)%nat -> (c < 81)%nat ->
            (nth a board 0 = 0 <-> nth a (Frontend.inputValues ui) "" = "")
            /\ (nth a board 0 = nth c board 0
                <-> nth a (Frontend.inputValues ui) ""
                    = nth c (Frontend.inputValues ui) "")) as Hcell.
  { intros a c Ha Hc.
    apply cell_value_eq; apply (Forall2_nth _ _ _ _ "" 0 HR); lia. }
  rewrite in_findConflicts. split.
  - intros (Hk & Hv & j & Hj & Hne & Hsame & Heq).
    rewrite (Hnth k Hk) in Hv. rewrite (Hnth k Hk), (Hnth j Hj) in Heq.
    split; [assumption|]. split.
    + intros E. apply Hv. f_equal. now apply (Hcell k k Hk Hk).
    + exists j. split; [assumption|]. split; [assumption|].
      split; [assumption|]. apply (Hcell j k Hj Hk). congruence.
  - intros (Hk & Hv & j & Hj & Hne & Hsame & Heq).
    rewrite (Hnth k Hk).
    split; [assumption|]. split.
    + intros [= E]. apply Hv. now apply (Hcell k k Hk Hk).
    + exists j. split; [assumption|]. split; [assumption|].
      split; [assumption|]. rewrite (Hnth j Hj). f_equal.
      now apply (Hcell j k Hj Hk).
Qed.

(** X18 (a click on Solve). With each of the 81 input cells holding
    nothing or one digit and no request under way, a click on Solve marks
    exactly the cells that are not empty and hold the same digit as
    another cell of their row, column or box. When a cell is marked
    nothing is posted; when none is, the board of the page is posted and
    the page shows a request under way. *)
Theorem solve_click_marks ui :
  Frontend.cellsOk ui ->
  List.length (Frontend.inputErrors ui) = 81%nat ->
  Frontend.requestUnderWay ui = false ->
  exists board ui' posted,
    Frontend.readBoard ui = Some board
    /\ Frontend.solveClick ui = Some (ui', posted)
    /\ (forall k,
          nth k (Frontend.inputErrors ui') false = true
          <-> (k < 81)%nat
              /\ nth k (Frontend.inputValues ui) "" <> ""
              /\ exists j, (j < 81)%nat /\ j <> k /\ sameGroup k j
                           /\ nth j (Frontend.inputValues ui) ""
                              = nth k (Frontend.inputValues ui) "")
    /\ ((exists k, nth k (Frontend.inputErrors ui') false = true) ->
        posted = None /\ Frontend.requestUnderWay ui' = false
        /\ Frontend.loading ui' = Frontend.loading ui)
    /\ ((forall k, nth k (Frontend.inputErrors ui') false = false) ->
        posted = Some board /\ Frontend.requestUnderWay ui' = true
        /\ Frontend.loading ui' = true).
Proof.
  intros Hok Herr Hreq.
  destruct (page_board ui Hok) as (board & Hb & Hlen & _ & _).
  unfold Frontend.solveClick. rewrite Hreq, Hb. cbv zeta.
  exists board.
  destruct (0 <? List.length (Frontend.findConflicts board))%nat eqn:Hc.
  - (* a conflict *)
    eexists. exists None. split; [reflexivity|]. split; [reflexivity|].
    assert (forall k,
              nth k (Frontend.inputErrors
                       (Frontend.setStatus
                          (Frontend.highlightConflicts
                             ui (Frontend.findConflicts board))
                          "Please resolve highlighted conflicts before solving."
                          (Some "error"))) false = true
              <-> In k (Frontend.findConflicts board)) as Hmark.
    { intros k. change (Frontend.inputErrors (Frontend.setStatus ?u _ _))
        with (Frontend.inputErrors u).
      rewrite highlight_nth, Herr. split; [tauto|]. intros Hin.
      split; [|assumption]. now apply in_findConflicts in Hin as [H _]. }
    split; [|split].
    + intros k. rewrite Hmark. now apply page_conflicts.
    + intros _. split; [reflexivity|]. split; [exact Hreq | reflexivity].
    + intros Hnone. exfalso. apply Nat.ltb_lt in Hc.
      destruct (Frontend.findConflicts board) as [|k rest] eqn:E;
        [simpl in Hc; lia|].
      specialize (Hnone k).
      assert (In k (k :: rest)) as Hin by now left.
      apply Hmark in Hin. congruence.
  - (* no conflict *)
    apply Nat.ltb_ge in Hc.
    assert (Frontend.findConflicts board = []) as Hnil
        by (destruct (Frontend.findConflicts board); [reflexivity | simpl in Hc; lia]).
    eexists. exists (Some board). split; [reflexivity|]. split; [reflexivity|].
    assert (forall k,
              nth k (Frontend.inputErrors
                       (Frontend.withRequest
                          (Frontend.setLoading
                             (Frontend.highlightConflicts
                                (Frontend.setStatus ui "Solving…" None) [])
                             true) true)) false = true
              <-> In k (Frontend.findConflicts board)) as Hmark.
    { intros k.
      change (Frontend.inputErrors (Frontend.withRequest ?u _))
        with (Frontend.inputErrors u).
      change (Frontend.inputErrors (Frontend.setLoading ?u _))
        with (Frontend.inputErrors u).
      rewrite highlight_nth, Hnil. simpl. tauto. }
    split; [|split].
    + intros k. rewrite Hmark. now apply page_conflicts.
    + intros (k & Hk). apply Hmark in Hk. rewrite Hnil in Hk. destruct Hk.
    + intros _. repeat split; reflexivity.
Qed.

Lemma solve_click_marks_witness :
  exists board ui' posted,
    Frontend.readBoard
      (Frontend.handleInput
         (Frontend.handleInput (Frontend.handleInput Frontend.start 0 "5") 1 "5")
         40 "5")
    = Some board
    /\ Frontend.solveClick
         (Frontend.handleInput
            (Frontend.handleInput (Frontend.handleInput Frontend.start 0 "5")
                                  1 "5")
            40 "5")
       = Some (ui', posted)
    /\ (forall k,
          nth k (Frontend.inputErrors ui') false = true
          <-> (k < 81)%nat
              /\ nth k (Frontend.inputValues
                          (Frontend.handleInput
                             (Frontend.handleInput
                                (Frontend.handleInput Frontend.start 0 "5")
                                1 "5")
                             40 "5")) "" <> ""
              /\ exists j,
                   (j < 81)%nat /\ j <> k /\ sameGroup k j
                   /\ nth j (Frontend.inputValues
                               (Frontend.handleInput
                                  (Frontend.handleInput
                                     (Frontend.handleInput Frontend.start 0 "5")
                                     1 "5")
                                  40 "5")) ""
                      = nth k (Frontend.inputValues
                                 (Frontend.handleInput
                                    (Frontend.handleInput
                                       (Frontend.handleInput Frontend.start 0 "5")
                                       1 "5")
                                    40 "5")) "")
    /\ ((exists k, nth k (Frontend.inputErrors ui') false = true) ->
        posted = None /\ Frontend.requestUnderWay ui' = false
        /\ Frontend.loading ui'
           = Frontend.loading
               (Frontend.handleInput
                  (Frontend.handleInput (Frontend.handleInput Frontend.start 0 "5")
                                        1 "5")
                  40 "5"))
    /\ ((forall k, nth k (Frontend.inputErrors ui') false = false) ->
        posted = Some board /\ Frontend.requestUnderWay ui' = true
        /\ Frontend.loading ui' = true).
Proof.
  apply (solve_click_marks
           (Frontend.handleInput
              (Frontend.handleInput (Frontend.handleInput Frontend.start 0 "5")
                                    1 "5")
              40 "5")).
  - apply handleInput_ok, handleInput_ok, handleInput_ok, start_ok.
  - reflexivity.
  - reflexivity.
Defined.

(** A page with a 5 in the first two cells of the first row and a 5 in
    the middle of the grid: a click on Solve marks the first two cells,
    posts nothing and shows the error. *)
Example two_fives_marked :
  exists ui',
    Frontend.solveClick
      (Frontend.handleInput
         (Frontend.handleInput (Frontend.handleInput Frontend.start 0 "5") 1 "5")
         40 "5")
    = Some (ui', None)
    /\ Frontend.inputErrors ui' = true :: true :: repeat false 79
    /\ Frontend.statusText ui'
       = "Please resolve highlighted conflicts before solving."
    /\ Frontend.statusClass ui' = "status error".
Proof. eexists. split; [vm_compute; reflexivity|]. repeat split. Qed.

(* ================================================================== *)
(** ** The page: typing into a cell, clearing the board *)

Lemma keepDigits_app a b :
  Frontend.keepDigits (a ++ b)%string
  = (Frontend.keepDigits a ++ Frontend.keepDigits b)%string.
Proof.
  induction a as [|c a IH]; [reflexivity|].
  cbn [String.append Frontend.keepDigits].
  destruct (Frontend.isDigit1to9 c); [cbn [String.append]; now rewrite IH | exact IH].
Qed.

Lemma lastChar_snoc a d :
  Frontend.lastChar (a ++ String d "")%string = String d "".
Proof.
  induction a as [|c a IH]; [reflexivity|].
  cbn [String.append Frontend.lastChar].
  destruct (a ++ String d "")%string eqn:E; [|exact IH].
  destruct a; discriminate.
Qed.

Lemma nth_setNth_eq {A} i (v d : A) a :
  (i < List.length a)%nat -> nth i (Frontend.setNth i v a) d = v.
Proof.
  revert i. induction a as [|x a IH]; intros [|i] Hi; simpl in *;
    [lia | lia | reflexivity | apply IH; lia].
Qed.

Lemma nth_setNth_neq {A} i k (v d : A) a :
  k <> i -> nth k (Frontend.setNth i v a) d = nth k a d.
Proof.
  revert i k. induction a as [|x a IH]; intros [|i] [|k] Hne; simpl;
    try reflexivity; [contradiction | apply IH; congruence].
Qed.

Lemma next_right_table :
  forallb (fun i =>
             (Z.to_nat (Frontend.nextIndex (Z.of_nat i) 0 1)
              =? i / 9 * 9 + (i mod 9 + 1) mod 9)%nat)
          (seq 0 81)
  = true.
Proof. vm_compute. reflexivity. Qed.

(** X19 (typing into a cell). On a page of 81 inputs, when the value the
    browser hands to [handleInput] ends, after some digit from 1 to 9,
    with characters that are no such digits, the cell keeps that digit
    alone and the focus moves one cell to the right, from the last cell
    of a row to the first cell of the same row; when the value has no
    digit from 1 to 9 the cell is emptied and the focus stays. The mark
    of the cell is removed and no other cell changes. *)
Theorem typing_keeps_last_digit ui index value :
  List.length (Frontend.inputValues ui) = 81%nat ->
  List.length (Frontend.inputErrors ui) = 81%nat ->
  (index < 81)%nat ->
  (forall pre d post,
     value = (pre ++ String d post)%string ->
     Frontend.isDigit1to9 d = true -> Frontend.keepDigits post = "" ->
     nth index (Frontend.inputValues (Frontend.handleInput ui index value)) ""
     = String d ""
     /\ Frontend.focused (Frontend.handleInput ui index value)
        = Some (index / 9 * 9 + (index mod 9 + 1) mod 9)%nat)
  /\ (Frontend.keepDigits value = "" ->
      nth index (Frontend.inputValues (Frontend.handleInput ui index value)) ""
      = ""
      /\ Frontend.focused (Frontend.handleInput ui index value)
         = Frontend.focused ui)
  /\ nth index (Frontend.inputErrors (Frontend.handleInput ui index value)) true
     = false
  /\ forall k, k <> index ->
       nth k (Frontend.inputValues (Frontend.handleInput ui index value)) ""
       = nth k (Frontend.inputValues ui) "".
Proof.
  intros Hlen Herr Hindex. split; [|split; [|split]].
  - intros pre d post -> Hd Hpost.
    assert (Frontend.lastChar (Frontend.keepDigits (pre ++ String d post))
            = String d "") as Hlast.
    { rewrite keepDigits_app. cbn [Frontend.keepDigits]. rewrite Hd, Hpost.
      apply lastChar_snoc. }
    split.
    + rewrite handleInput_values, Hlast. apply nth_setNth_eq. lia.
    + unfold Frontend.handleInput. cbv zeta. rewrite Hlast.
      cbn [String.eqb negb].
      rewrite moveFocus_arrow;
        [| cbn [Frontend.inputValues]; now rewrite setNth_length
         | lia | simpl; auto].
      f_equal. pose proof next_right_table as H.
      rewrite forallb_forall in H.
      apply Nat.eqb_eq, H, in_seq. lia.
  - intros Hnone. rewrite handleInput_values.
    unfold Frontend.handleInput. cbv zeta. rewrite Hnone.
    cbn [Frontend.lastChar String.eqb negb Frontend.focused].
    split; [apply nth_setNth_eq; lia | reflexivity].
  - unfold Frontend.handleInput. cbv zeta.
    destruct (negb _).
    + unfold Frontend.moveFocus. destruct (Frontend.hasInput _ _);
        cbn [Frontend.inputErrors Frontend.withFocus];
        apply nth_setNth_eq; lia.
    + cbn [Frontend.inputErrors]. apply nth_setNth_eq. lia.
  - intros k Hk. rewrite handleInput_values. now apply nth_setNth_neq.
Qed.

Lemma typing_keeps_last_digit_witness :
  (forall pre d post,
     "x7y" = (pre ++ String d post)%string ->
     Frontend.isDigit1to9 d = true -> Frontend.keepDigits post = "" ->
     nth 8 (Frontend.inputValues (Frontend.handleInput Frontend.start 8 "x7y")) ""
     = String d ""
     /\ Frontend.focused (Frontend.handleInput Frontend.start 8 "x7y")
        = Some (8 / 9 * 9 + (8 mod 9 + 1) mod 9)%nat)
  /\ (Frontend.keepDigits "x7y" = "" ->
      nth 8 (Frontend.inputValues (Frontend.handleInput Frontend.start 8 "x7y")) ""
      = ""
      /\ Frontend.focused (Frontend.handleInput Frontend.start 8 "x7y")
         = Frontend.focused Frontend.start)
  /\ nth 8 (Frontend.inputErrors (Frontend.handleInput Frontend.start 8 "x7y")) true
     = false
  /\ forall k, k <> 8%nat ->
       nth k (Frontend.inputValues (Frontend.handleInput Frontend.start 8 "x7y")) ""
       = nth k (Frontend.inputValues Frontend.start) "".
Proof.
  apply (typing_keeps_last_digit Frontend.start 8 "x7y" eq_refl eq_refl).
  lia.
Defined.

Lemma readCells_empty n :
  Frontend.readCells (repeat "" n) = Some (repeat 0 n).
Proof.
  induction n as [|n IH]; [reflexivity|].
  cbn [repeat Frontend.readCells]. change (Frontend.trim "") with "".
  cbn [String.eqb]. now rewrite IH.
Qed.

Lemma map_const {A B} (b : B) (l : list A) :
  map (fun _ => b) l = repeat b (List.length l).
Proof. induction l as [|x l IH]; simpl; [reflexivity | now rewrite IH]. Qed.

(** X20 (Clear, then Solve). On a page of 81 inputs with no request under
    way, a click on Clear empties every input and solution cell, removes
    every mark and the status and puts the focus on the first cell; a
    click on Solve then posts the board of 81 zeros. *)
Theorem clear_then_solve ui :
  List.length (Frontend.inputValues ui) = 81%nat ->
  List.length (Frontend.inputErrors ui) = 81%nat ->
  Frontend.requestUnderWay ui = false ->
  exists cleared sent,
    Frontend.step ui Frontend.ClickClear = Some cleared
    /\ Frontend.inputValues cleared = repeat "" 81
    /\ Frontend.inputErrors cleared = repeat false 81
    /\ Frontend.solutionValues cleared
       = repeat "" (List.length (Frontend.solutionValues ui))
    /\ Frontend.statusText cleared = ""
    /\ Frontend.focused cleared = Some 0%nat
    /\ Frontend.solveClick cleared = Some (sent, Some (repeat 0 81))
    /\ Frontend.inputErrors sent = repeat false 81.
Proof.
  intros Hlen Herr Hreq.
  exists (Frontend.mkUI (repeat "" 81) (repeat false 81)
            (repeat "" (List.length (Frontend.solutionValues ui)))
            "" "status" (Some 0%nat) (Frontend.loading ui) false).
  eexists. split.
  { cbn [Frontend.step]. cbv zeta.
    unfold Frontend.clearBoard, Frontend.setStatus. cbv zeta.
    cbn [Frontend.inputValues Frontend.inputErrors Frontend.solutionValues
         Frontend.statusText Frontend.statusClass Frontend.focused
         Frontend.loading Frontend.requestUnderWay].
    rewrite !map_const, Hlen, Herr, Hreq. reflexivity. }
  cbn [Frontend.inputValues Frontend.inputErrors Frontend.solutionValues
       Frontend.statusText Frontend.focused].
  do 5 (split; [reflexivity|]).
  unfold Frontend.solveClick, Frontend.readBoard.
  cbn [Frontend.inputValues Frontend.requestUnderWay].
  rewrite readCells_empty.
  assert (Frontend.findConflicts (repeat 0 81) = []) as ->
      by (vm_compute; reflexivity).
  cbn [List.length Nat.ltb Nat.leb]. split; [reflexivity|].
  vm_compute. reflexivity.
Qed.

Lemma clear_then_solve_witness :
  exists cleared sent,
    Frontend.step (Frontend.handleInput Frontend.start 3 "5") Frontend.ClickClear
    = Some cleared
    /\ Frontend.inputValues cleared = repeat "" 81
    /\ Frontend.inputErrors cleared = repeat false 81
    /\ Frontend.solutionValues cleared
       = repeat "" (List.length
                      (Frontend.solutionValues
                         (Frontend.handleInput Frontend.start 3 "5")))
    /\ Frontend.statusText cleared = ""
    /\ Frontend.focused cleared = Some 0%nat
    /\ Frontend.solveClick cleared = Some (sent, Some (repeat 0 81))
    /\ Frontend.inputErrors sent = repeat false 81.
Proof.
  apply (clear_then_solve (Frontend.handleInput Frontend.start 3 "5")
           eq_refl eq_refl eq_refl).
Defined.

(* ================================================================== *)
(** ** The page and the server: one request *)

Lemma handler_outcome check model board st :
  satSound check model ->
  List.length board = 81%nat ->
  Forall (fun v => 0 <= v <= 9) board ->
  exists r st',
    handleSolveRequest check model (Some (boardPayload board)) st = (inr r, st')
    /\ ((exists solution solutionCount,
           r = jsonResponse (SolutionBody solution solutionCount) 200
           /\ isSolutionOf board solution
           /\ (solutionCount = 1 \/ solutionCount = 2))
        \/ r = jsonError "The provided Sudoku board is unsatisfiable." 422).
Proof.
  intros Hsat Hlen HF. rewrite handleSolveRequest_board by assumption.
  destruct (check (constraints board)) eqn:Hc.
  - destruct (sat_reads_solution check model Hsat board Hlen Hc)
      as (I & Hsol & Hr).
    unfold solveSudoku. rewrite solveWith_run by assumption. unfold rounds.
    rewrite Hc, Hr. cbn [respond fst snd].
    eexists _, _. split; [reflexivity|]. left.
    eexists _, _. split; [reflexivity|]. split; [assumption|].
    destruct (check (constraints board ++ [blockingConstraint (gridOf I)])); auto.
  - unfold solveSudoku. rewrite not_sat_throws by (assumption || congruence).
    eexists _, _. split; [reflexivity | now right].
  - unfold solveSudoku. rewrite not_sat_throws by (assumption || congruence).
    eexists _, _. split; [reflexivity | now right].
Qed.

Lemma digitOf_char c v :
  JS.digitOf c = Some v -> c = ascii_of_nat (Z.to_nat v + 48).
Proof.
  unfold JS.digitOf. cbv zeta.
  destruct ((48 <=? nat_of_ascii c) && (nat_of_ascii c <=? 57))%nat eqn:E;
    [|discriminate].
  intros [= <-]. apply andb_true_iff in E as [E1 E2].
  apply Nat.leb_le in E1. rewrite Nat2Z.id.
  replace (nat_of_ascii c - 48 + 48)%nat with (nat_of_ascii c) by lia.
  now rewrite ascii_nat_embedding.
Qed.

Lemma digit_shown c v :
  JS.digitOf c = Some v -> 1 <= v <= 9 ->
  (if v =? 0 then "" else JS.intToString v) = String c "".
Proof.
  intros Hc Hv. rewrite (digitOf_char c v Hc).
  assert (v = 1 \/ v = 2 \/ v = 3 \/ v = 4 \/ v = 5 \/ v = 6
          \/ v = 7 \/ v = 8 \/ v = 9) as H by lia.
  repeat (destruct H as [->|H]; [reflexivity|]). subst v. reflexivity.
Qed.

Lemma solveClick_posted ui sent board :
  Frontend.solveClick ui = Some (sent, Some board) ->
  Frontend.readBoard ui = Some board
  /\ Frontend.solutionValues sent = Frontend.solutionValues ui
  /\ Frontend.inputValues sent = Frontend.inputValues ui.
Proof.
  unfold Frontend.solveClick.
  destruct (Frontend.requestUnderWay ui); [discriminate|].
  destruct (Frontend.readBoard ui) as [b|]; [|discriminate].
  destruct (0 <? _)%nat; [discriminate|].
  intros [= <- <-]. repeat split.
Qed.

(** X21 (from the cells to the solution cells). With a backend that meets
    the contract, when a click on Solve posts the board of a page whose 81
    input cells hold nothing or one digit, the handler of [main.ts]
    answers, and with that answer the page ends the request, leaves the
    input cells as they are and either shows a success and, in the
    solution cells, a grid that obeys the Sudoku rules and repeats every
    input cell that is not empty, or shows the error "The provided Sudoku
    board is unsatisfiable." and leaves the solution cells as they are. *)
Theorem solve_round_trip check model ui sent board st :
  satSound check model ->
  Frontend.cellsOk ui ->
  List.length (Frontend.solutionValues ui) = 81%nat ->
  Frontend.solveClick ui = Some (sent, Some board) ->
  exists r st' shown,
    handleSolveRequest check model (Some (boardPayload board)) st = (inr r, st')
    /\ Frontend.receive sent (Frontend.Responded r) = Some shown
    /\ Frontend.inputValues shown = Frontend.inputValues ui
    /\ Frontend.loading shown = false
    /\ Frontend.requestUnderWay shown = false
    /\ ((Frontend.statusClass shown = "status success"
         /\ exists solution,
              Frontend.readCells (Frontend.solutionValues shown) = Some solution
              /\ validGrid solution
              /\ forall k, nth k (Frontend.inputValues ui) "" <> "" ->
                           nth k (Frontend.solutionValues shown) ""
                           = nth k (Frontend.inputValues ui) "")
        \/ (Frontend.statusClass shown = "status error"
            /\ Frontend.statusText shown
               = "The provided Sudoku board is unsatisfiable."
            /\ Frontend.solutionValues shown = Frontend.solutionValues ui)).
Proof.
  intros Hsat Hok Hsol Hclick.
  destruct (solveClick_posted ui sent board Hclick) as (Hb & Hsv & Hiv).
  destruct (page_board ui Hok) as (b & Hb' & Hlen & HF & HR).
  rewrite Hb in Hb'. injection Hb' as <-.
  destruct (handler_outcome check model board st Hsat Hlen HF)
    as (r & st' & Hr & [(solution & solutionCount & -> & Hsolution & Hcount)| ->]).
  - (* a solution *)
    exists (jsonResponse (SolutionBody solution solutionCount) 200), st'.
    destruct Hsolution as [Hvalid Hclues].
    assert (List.length solution = 81%nat) as Hl by apply Hvalid.
    assert (Forall (fun v => 0 <= v <= 9) solution) as Hrange.
    { apply (validGrid_iff solution Hl) in Hvalid as [Hdom _].
      apply Forall_forall. intros v Hv.
      apply (In_nth _ _ 0) in Hv as (k & Hk & <-).
      specialize (Hdom k ltac:(lia)). lia. }
    assert (Frontend.writeBoard solution (Frontend.solutionValues sent)
            = (map (fun value => if value =? 0 then "" else JS.intToString value)
                   solution, true)) as Hw.
    { unfold Frontend.writeBoard.
      change (Frontend.writeBoardFrom solution 0 (Frontend.solutionValues sent))
        with (Frontend.writeBoardFrom solution (List.length (@nil string))
                ([] ++ Frontend.solutionValues sent)).
      rewrite (writeBoardFrom_ok solution [] _) by (rewrite Hsv; lia).
      rewrite skipn_all2 by (rewrite Hsv; lia). now rewrite app_nil_r. }
    unfold Frontend.receive.
    cbn [Frontend.responseOk status body jsonResponse Z.leb Z.compare
         Pos.compare Pos.compare_cont andb negb].
    rewrite Hl. cbn [Z.of_nat Pos.of_succ_nat Pos.succ Frontend.GRID_SIZE
                     Z.mul Pos.mul Pos.add Z.eqb Pos.eqb negb].
    rewrite Hw. cbv zeta.
    eexists. split; [exact Hr|]. split; [reflexivity|].
    assert (forall u,
              Frontend.solutionValues (Frontend.finish u)
              = Frontend.solutionValues u
              /\ Frontend.inputValues (Frontend.finish u)
                 = Frontend.inputValues u
              /\ Frontend.statusClass (Frontend.finish u)
                 = Frontend.statusClass u) as Hfin by (intros u; repeat split).
    split; [|split; [|split]].
    + destruct ((if solutionCount =? 0 then 1 else solutionCount) =? 1);
        exact Hiv.
    + now destruct ((if solutionCount =? 0 then 1 else solutionCount) =? 1).
    + now destruct ((if solutionCount =? 0 then 1 else solutionCount) =? 1).
    + left.
      assert (Frontend.solutionValues
                (Frontend.finish
                   (if (if solutionCount =? 0 then 1 else solutionCount) =? 1
                    then Frontend.setStatus
                           (Frontend.mkUI (Frontend.inputValues sent)
                              (Frontend.inputErrors sent)
                              (map (fun value =>
                                      if value =? 0 then ""
                                      else JS.intToString value) solution)
                              (Frontend.statusText sent)
                              (Frontend.statusClass sent)
                              (Frontend.focused sent) (Frontend.loading sent)
                              (Frontend.requestUnderWay sent))
                           "Solved! This puzzle has a unique solution."
                           (Some "success")
                    else Frontend.setStatus
                           (Frontend.mkUI (Frontend.inputValues sent)
                              (Frontend.inputErrors sent)
                              (map (fun value =>
                                      if value =? 0 then ""
                                      else JS.intToString value) solution)
                              (Frontend.statusText sent)
                              (Frontend.statusClass sent)
                              (Frontend.focused sent) (Frontend.loading sent)
                              (Frontend.requestUnderWay sent))
                           "Solved! This puzzle has multiple solutions. Showing one example."
                           (Some "success")))
              = map (fun value => if value =? 0 then "" else JS.intToString value)
                    solution) as ->
          by now destruct ((if solutionCount =? 0 then 1 else solutionCount) =? 1).
      split;
        [now destruct ((if solutionCount =? 0 then 1 else solutionCount) =? 1)|].
      exists solution. split; [now apply readCells_shown|].
      split; [assumption|].
      intros k Hk.
      assert (k < 81)%nat as Hk81.
      { destruct (Nat.lt_ge_cases k 81) as [H|H]; [assumption|].
        exfalso. apply Hk. apply nth_overflow. destruct Hok as [-> _]. lia. }
      pose proof (Forall2_nth _ _ _ k "" 0 HR
                    ltac:(destruct Hok as [-> _]; lia)) as Hcell.
      cbv beta in Hcell.
      destruct Hcell as [[E _]|(c & Ec & Hc & Hv)]; [contradiction|].
      rewrite Ec.
      assert (nth_error solution k = Some (nth k board 0)) as Hs.
      { apply Hclues; [apply nth_error_nth'; lia | lia]. }
      rewrite (nth_indep _ ""
                 ((fun value => if value =? 0 then "" else JS.intToString value) 0))
        by (rewrite length_map; lia).
      rewrite (map_nth (fun value => if value =? 0 then "" else JS.intToString value)).
      rewrite (nth_error_nth _ _ 0 Hs). now apply digit_shown.
  - (* no solution *)
    exists (jsonError "The provided Sudoku board is unsatisfiable." 422), st'.
    eexists. split; [exact Hr|]. split; [reflexivity|].
    split; [exact Hiv|]. split; [reflexivity|]. split; [reflexivity|].
    right. split; [reflexivity|]. split; [reflexivity | exact Hsv].
Qed.

Lemma solve_round_trip_witness :
  exists r st' shown,
    handleSolveRequest (Toy.check [Toy.solved]) (Toy.model [Toy.solved])
                       (Some (boardPayload (repeat 0 81))) initial
    = (inr r, st')
    /\ Frontend.receive
         (Frontend.withRequest
            (Frontend.setLoading
               (Frontend.highlightConflicts
                  (Frontend.setStatus Frontend.start "Solving…" None) [])
               true) true)
         (Frontend.Responded r) = Some shown
    /\ Frontend.inputValues shown = Frontend.inputValues Frontend.start
    /\ Frontend.loading shown = false
    /\ Frontend.requestUnderWay shown = false
    /\ ((Frontend.statusClass shown = "status success"
         /\ exists solution,
              Frontend.readCells (Frontend.solutionValues shown) = Some solution
              /\ validGrid solution
              /\ forall k, nth k (Frontend.inputValues Frontend.start) "" <> "" ->
                           nth k (Frontend.solutionValues shown) ""
                           = nth k (Frontend.inputValues Frontend.start) "")
        \/ (Frontend.statusClass shown = "status error"
            /\ Frontend.statusText shown
               = "The provided Sudoku board is unsatisfiable."
            /\ Frontend.solutionValues shown
               = Frontend.solutionValues Frontend.start)).
Proof.
  assert (Frontend.solveClick Frontend.start
          = Some (Frontend.withRequest
                    (Frontend.setLoading
                       (Frontend.highlightConflicts
                          (Frontend.setStatus Frontend.start "Solving…" None) [])
                       true) true,
                  Some (repeat 0 81))) as Hclick by (vm_compute; reflexivity).
  exact (solve_round_trip (Toy.check [Toy.solved]) (Toy.model [Toy.solved])
           Frontend.start _ (repeat 0 81) initial
           (toy_satSound [Toy.solved]) start_ok eq_refl Hclick).
Defined.

(* ================================================================== *)
(** ** The constraint demo: the loop that finds every solution *)

Lemma csp_readSolution m st :
  fst (Csp.readSolution m st)
  = map (fun v => (Csp.toString (m v) =? "True")%string) Csp.variables
  /\ Csp.assertions (snd (Csp.readSolution m st)) = Csp.assertions st.
Proof. split; reflexivity. Qed.

Lemma csp_values_read (model : list Csp.Z3Expr -> Csp.Z3Bool -> Csp.Z3Bool)
      cs I :
  (forall v, In v Csp.variables -> model cs v = Csp.BoolVal (Csp.evalBool I v)) ->
  map (fun v => (Csp.toString (model cs v) =? "True")%string) Csp.variables
  = Csp.valuesOf I.
Proof.
  intros H. unfold Csp.valuesOf. apply map_ext_in. intros v Hv.
  rewrite (H v Hv). now destruct (Csp.evalBool I v).
Qed.

Lemma csp_block_holds I values :
  List.length values = 9%nat ->
  Csp.holds I (Csp.blockClause values) = true <-> Csp.valuesOf I <> values.
Proof.
  intros Hlen.
  destruct values as [|v0 [|v1 [|v2 [|v3 [|v4 [|v5 [|v6 [|v7 [|v8 [|]]]]]]]]]];
    try discriminate Hlen. clear Hlen.
  assert (forall (v : bool) x,
            Csp.holds I (if v then Csp.Not x else Csp.Is x) = false
            <-> Csp.evalBool I x = v) as Hlit.
  { intros [] x; cbn [Csp.holds]; destruct (Csp.evalBool I x); simpl;
      split; congruence. }
  cbn. rewrite <- not_false_iff_true, !orb_false_iff, !Hlit.
  split.
  - intros H E. apply H.
    injection E as E0 E1 E2 E3 E4 E5 E6 E7 E8. repeat split; assumption.
  - intros H (E0 & E1 & E2 & E3 & E4 & E5 & E6 & E7 & E8 & _). apply H.
    rewrite <- E0, <- E1, <- E2, <- E3, <- E4, <- E5, <- E6, <- E7, <- E8.
    reflexivity.
Qed.

Lemma csp_base_ext I J :
  (forall v, In v Csp.variables -> Csp.evalBool I v = Csp.evalBool J v) ->
  Csp.satisfiesb I Csp.base = Csp.satisfiesb J Csp.base.
Proof.
  intros H.
  assert (forall name, In name Csp.varNames -> I name = J name) as Hn.
  { intros name Hin. apply (H (Csp.Bool name)).
    simpl in Hin. unfold Csp.variables.
    repeat (destruct Hin as [<-|Hin]; [simpl; tauto|]). destruct Hin. }
  unfold Csp.satisfiesb, Csp.base, Csp.constraint1, Csp.constraint2,
    Csp.constraint3, Csp.constraint4, Csp.constraint5.
  cbn [forallb Csp.holds Csp.evalInt Csp.evalBool map fold_right
       Csp.a Csp.b Csp.c Csp.d Csp.e Csp.f Csp.g Csp.h Csp.i].
  rewrite !Hn by (simpl; tauto). reflexivity.
Qed.

Lemma csp_values_assignment values :
  List.length values = 9%nat -> Csp.valuesOf (Csp.assignmentOf values) = values.
Proof.
  intros Hlen.
  destruct values as [|v0 [|v1 [|v2 [|v3 [|v4 [|v5 [|v6 [|v7 [|v8 [|]]]]]]]]]];
    try discriminate Hlen. reflexivity.
Qed.

Lemma csp_assignment_values I v :
  In v Csp.variables ->
  Csp.evalBool (Csp.assignmentOf (Csp.valuesOf I)) v = Csp.evalBool I v.
Proof.
  intros Hv. unfold Csp.variables in Hv. simpl in Hv.
  repeat (destruct Hv as [<-|Hv]; [reflexivity|]). destruct Hv.
Qed.

Lemma csp_in_allLists l : In l (Csp.allLists (List.length l)).
Proof.
  induction l as [|x l IH]; [now left|].
  cbn [List.length Csp.allLists]. apply in_flat_map. exists l.
  split; [assumption|]. destruct x; simpl; auto.
Qed.

Lemma csp_allLists_length n l : In l (Csp.allLists n) -> List.length l = n.
Proof.
  revert l. induction n as [|n IH]; intros l Hin.
  - destruct Hin as [<-|[]]. reflexivity.
  - cbn [Csp.allLists] in Hin. apply in_flat_map in Hin as (l' & Hl' & Hin).
    destruct Hin as [<-|[<-|[]]]; simpl; now rewrite (IH l' Hl').
Qed.

Lemma csp_satisfies_b I cs :
  Csp.satisfies I cs <-> Csp.satisfiesb I cs = true.
Proof.
  unfold Csp.satisfies, Csp.satisfiesb. now rewrite forallb_forall.
Qed.

(** The solutions are the values of the interpretations that satisfy the
    five constraints. *)
Lemma csp_in_solutions I :
  Csp.satisfies I Csp.base <-> In (Csp.valuesOf I) Csp.solutions.
Proof.
  unfold Csp.solutions. rewrite filter_In, csp_satisfies_b.
  rewrite (csp_base_ext (Csp.assignmentOf (Csp.valuesOf I)) I)
    by (intros v Hv; now apply csp_assignment_values).
  split; [|tauto]. intros H. split; [|assumption].
  exact (csp_in_allLists (Csp.valuesOf I)).
Qed.

Lemma csp_solution_spec values :
  In values Csp.solutions <->
  List.length values = 9%nat /\ Csp.satisfies (Csp.assignmentOf values) Csp.base.
Proof.
  unfold Csp.solutions. rewrite filter_In, csp_satisfies_b. split.
  - intros [H1 H2]. split; [now apply csp_allLists_length | assumption].
  - intros [H1 H2]. split; [|assumption]. rewrite <- H1. apply csp_in_allLists.
Qed.

Lemma csp_solutions_count : List.length Csp.solutions = 10%nat.
Proof. vm_compute. reflexivity. Qed.

Lemma csp_solutions_NoDup : NoDup Csp.solutions.
Proof.
  assert (nodup (list_eq_dec Bool.bool_dec) Csp.solutions = Csp.solutions) as <-
      by (vm_compute; reflexivity).
  apply NoDup_nodup.
Qed.

Lemma csp_satisfies_blocks I found :
  (forall values, In values found -> List.length values = 9%nat) ->
  Csp.satisfies I (Csp.base ++ map Csp.blockClause found)
  <-> Csp.satisfies I Csp.base /\ ~ In (Csp.valuesOf I) found.
Proof.
  intros Hlen. unfold Csp.satisfies. split.
  - intros H. split.
    + intros c Hc. apply H, in_app_iff. now left.
    + intros Hin.
      assert (Csp.holds I (Csp.blockClause (Csp.valuesOf I)) = true) as Hb.
      { apply H, in_app_iff. right. now apply in_map. }
      apply csp_block_holds in Hb; [now apply Hb | reflexivity].
  - intros [Hbase Hnew] c Hc. apply in_app_iff in Hc as [Hc|Hc];
      [now apply Hbase|].
    apply in_map_iff in Hc as (values & <- & Hin).
    apply csp_block_holds; [now apply Hlen|]. congruence.
Qed.

Section CspLoop.

Variable check : list Csp.Z3Expr -> Z3CheckResult.
Variable model : list Csp.Z3Expr -> Csp.Z3Bool -> Csp.Z3Bool.
Hypothesis Hsat : Csp.satSound check model.

(** The loop ends, within ten rounds after which nothing is left to
    find. *)
Lemma csp_findAll fuel : forall found st,
  Csp.assertions st = Csp.base ++ map Csp.blockClause found ->
  NoDup found ->
  (forall values, In values found -> In values Csp.solutions) ->
  (11 <= fuel + List.length found)%nat ->
  exists st' more,
    Csp.findAll check model fuel st (List.length found)
    = Some (st', List.length (found ++ more))
    /\ Csp.assertions st' = Csp.base ++ map Csp.blockClause (found ++ more)
    /\ NoDup (found ++ more)
    /\ (forall values, In values (found ++ more) -> In values Csp.solutions)
    /\ check (Csp.assertions st') <> sat.
Proof.
  induction fuel as [|fuel IH]; intros found st Hst Hnd Hsol Hfuel.
  - exfalso.
    assert (List.length found <= List.length Csp.solutions)%nat as H
        by (apply NoDup_incl_length; assumption).
    rewrite csp_solutions_count in H. lia.
  - cbn [Csp.findAll]. destruct (check (Csp.assertions st)) eqn:Hc.
    + (* one more solution *)
      cbn [Z3.checkToString String.eqb Ascii.eqb Bool.eqb]. cbv zeta.
      destruct (Hsat _ Hc) as (I & HI & Hm).
      pose proof (csp_readSolution
                    (model (Csp.assertions st))
                    (Csp.log ("Solution "
                              ++ JS.natToString (S (List.length found)) ++ ":")
                             st)) as [Hvalues Hassert].
      destruct (Csp.readSolution _ _) as [values st2]. cbn [fst snd] in *.
      rewrite (csp_values_read model (Csp.assertions st) I Hm) in Hvalues.
      subst values.
      assert (forall values, In values found -> List.length values = 9%nat)
        as Hlen
          by (intros values Hin;
              exact (proj1 (proj1 (csp_solution_spec values) (Hsol values Hin)))).
      rewrite Hst in HI. apply (csp_satisfies_blocks I found Hlen) in HI
        as [Hbase Hnew].
      assert (NoDup (found ++ [Csp.valuesOf I])) as Hnd'.
      { apply NoDup_app; [assumption | repeat constructor; intros [] |].
        intros x Hx [<-|[]]. contradiction. }
      assert (forall values, In values (found ++ [Csp.valuesOf I]) ->
                             In values Csp.solutions) as Hsol'.
      { intros values Hin. apply in_app_iff in Hin as [Hin|[<-|[]]];
          [now apply Hsol | now apply csp_in_solutions]. }
      destruct (IH (found ++ [Csp.valuesOf I])
                   (Csp.log "" (Csp.add (Csp.blockClause (Csp.valuesOf I)) st2)))
        as (st' & more & Hrun & Hst' & Hnd'' & Hsol'' & Hend).
      * cbn [Csp.log Csp.add Csp.assertions]. cbn [Csp.log Csp.assertions] in Hassert.
        rewrite Hassert, Hst, map_app, <- app_assoc. reflexivity.
      * assumption.
      * assumption.
      * rewrite length_app. simpl. lia.
      * rewrite length_app in Hrun. cbn [List.length] in Hrun.
        rewrite Nat.add_1_r in Hrun.
        exists st', (Csp.valuesOf I :: more).
        replace (found ++ Csp.valuesOf I :: more)
          with ((found ++ [Csp.valuesOf I]) ++ more)
          by (rewrite <- app_assoc; reflexivity).
        split; [exact Hrun|]. split; [assumption|].
        split; [assumption|]. split; assumption.
    + exists st, []. rewrite !app_nil_r.
      split; [reflexivity|]. split; [assumption|]. split; [assumption|].
      split; [assumption | congruence].
    + exists st, []. rewrite !app_nil_r.
      split; [reflexivity|]. split; [assumption|]. split; [assumption|].
      split; [assumption | congruence].
Qed.

End CspLoop.

Lemma csp_try_satSound candidates :
  Csp.satSound (Csp.tryCheck candidates) (Csp.tryModel candidates).
Proof.
  intros cs Hc. unfold Csp.tryCheck, Csp.tryModel in *.
  destruct (find (fun values => Csp.satisfiesb (Csp.assignmentOf values) cs)
                 candidates) as [values|] eqn:E; [|discriminate].
  apply find_some in E as [_ E].
  exists (Csp.assignmentOf values). split; [now apply csp_satisfies_b|].
  reflexivity.
Qed.

Lemma csp_try_unsatSound candidates : Csp.unsatSound (Csp.tryCheck candidates).
Proof.
  intros cs Hc. unfold Csp.tryCheck in Hc.
  destruct (find _ candidates); discriminate.
Qed.

(** X22 (every solution, once). With a backend that meets the contract,
    the demo script ends, its loop after at most ten rounds: fuel for
    eleven is enough. When the first check does not say "sat" it prints
    that there is no solution. Otherwise each round blocks one solution
    of the five constraints, no solution is found twice, the last line
    gives their number, between 1 and 10, and when the check that ends the
    loop says "unsat" they are all ten solutions. *)
Theorem all_solutions_once check model fuel :
  Csp.satSound check model ->
  Csp.unsatSound check ->
  (11 <= fuel)%nat ->
  exists st,
    Csp.main check model fuel = Some st
    /\ (check Csp.base <> sat ->
        Csp.assertions st = Csp.base
        /\ last (Csp.output st) "" = "✗ UNSAT - No solution exists!")
    /\ (check Csp.base = sat ->
        exists found,
          Csp.assertions st = Csp.base ++ map Csp.blockClause found
          /\ NoDup found
          /\ (forall values, In values found ->
                List.length values = 9%nat
                /\ Csp.satisfies (Csp.assignmentOf values) Csp.base)
          /\ (1 <= List.length found <= 10)%nat
          /\ last (Csp.output st) ""
             = (Csp.nl ++ "Total unique solutions: "
                       ++ JS.natToString (List.length found))%string
          /\ check (Csp.assertions st) <> sat
          /\ (check (Csp.assertions st) = unsat ->
              List.length found = 10%nat
              /\ forall values,
                   List.length values = 9%nat ->
                   Csp.satisfies (Csp.assignmentOf values) Csp.base ->
                   In values found)).
Proof.
  intros Hsat Hunsat Hfuel. unfold Csp.main. cbv zeta.
  match goal with
  | |- context [Z3.checkToString (check ?cs)] => change cs with Csp.base
  end.
  destruct (check Csp.base) eqn:Hc.
  - (* the loop *)
    cbn [Z3.checkToString String.eqb Ascii.eqb Bool.eqb].
    match goal with
    | |- context [Csp.findAll check model fuel ?s 0] => set (st1 := s)
    end.
    destruct (csp_findAll check model Hsat fuel [] st1)
      as (st' & found & Hrun & Hst' & Hnd & Hsol & Hend).
    + reflexivity.
    + constructor.
    + intros values [].
    + simpl. lia.
    + cbn [List.length app] in *. rewrite Hrun.
      eexists. split; [reflexivity|]. split; [congruence|]. intros _.
      exists found. cbn [Csp.log Csp.assertions Csp.output].
      split; [assumption|]. split; [assumption|].
      split;
        [intros values Hin;
         exact (proj1 (csp_solution_spec values) (Hsol values Hin))|].
      assert (List.length found <= 10)%nat as Hle.
      { rewrite <- csp_solutions_count. now apply NoDup_incl_length. }
      assert (forall values, In values found -> List.length values = 9%nat)
        as Hlen
          by (intros values Hin;
              exact (proj1 (proj1 (csp_solution_spec values) (Hsol values Hin)))).
      split.
      { split; [|assumption].
        destruct found as [|first rest]; [|simpl; lia].
        exfalso. apply Hend. rewrite Hst'. cbn [map]. now rewrite app_nil_r. }
      split; [apply last_last|]. split; [assumption|].
      intros Hu.
      assert (forall values, In values Csp.solutions -> In values found) as Hall.
      { intros values Hin.
        destruct (in_dec (list_eq_dec Bool.bool_dec) values found) as [|Hnot];
          [assumption|].
        exfalso. apply (Hunsat _ Hu (Csp.assignmentOf values)).
        rewrite Hst'. apply (csp_satisfies_blocks _ found Hlen).
        apply csp_solution_spec in Hin as [Hl Hs].
        split; [assumption|]. now rewrite csp_values_assignment. }
      split.
      * apply Nat.le_antisymm; [assumption|].
        rewrite <- csp_solutions_count.
        apply NoDup_incl_length; [apply csp_solutions_NoDup | exact Hall].
      * intros values Hl Hs. apply Hall. now apply csp_solution_spec.
  - cbn [Z3.checkToString String.eqb Ascii.eqb Bool.eqb].
    eexists. split; [reflexivity|]. split; [|discriminate]. intros _.
    split; [reflexivity | apply last_last].
  - cbn [Z3.checkToString String.eqb Ascii.eqb Bool.eqb].
    eexists. split; [reflexivity|]. split; [|discriminate]. intros _.
    split; [reflexivity | apply last_last].
Qed.

Lemma all_solutions_once_witness :
  exists st,
    Csp.main (Csp.tryCheck Csp.solutions) (Csp.tryModel Csp.solutions) 11
    = Some st
    /\ (Csp.tryCheck Csp.solutions Csp.base <> sat ->
        Csp.assertions st = Csp.base
        /\ last (Csp.output st) "" = "✗ UNSAT - No solution exists!")
    /\ (Csp.tryCheck Csp.solutions Csp.base = sat ->
        exists found,
          Csp.assertions st = Csp.base ++ map Csp.blockClause found
          /\ NoDup found
          /\ (forall values, In values found ->
                List.length values = 9%nat
                /\ Csp.satisfies (Csp.assignmentOf values) Csp.base)
          /\ (1 <= List.length found <= 10)%nat
          /\ last (Csp.output st) ""
             = (Csp.nl ++ "Total unique solutions: "
                       ++ JS.natToString (List.length found))%string
          /\ Csp.tryCheck Csp.solutions (Csp.assertions st) <> sat
          /\ (Csp.tryCheck Csp.solutions (Csp.assertions st) = unsat ->
              List.length found = 10%nat
              /\ forall values,
                   List.length values = 9%nat ->
                   Csp.satisfies (Csp.assignmentOf values) Csp.base ->
                   In values found)).
Proof.
  apply (all_solutions_once (Csp.tryCheck Csp.solutions)
           (Csp.tryModel Csp.solutions) 11
           (csp_try_satSound Csp.solutions) (csp_try_unsatSound Csp.solutions)).
  lia.
Defined.

(* ================================================================== *)
(** ** The page: the cells [createGrid] makes *)

Lemma createGrid_table isInput :
  (List.length (Frontend.createGrid isInput) =? 81)%nat
  && forallb (fun k =>
       let cell := nth k (Frontend.createGrid isInput)
                       (Frontend.mkCell "" "" "" "" "" false) in
       match Frontend.numberOfDigits (Frontend.dataIndex cell),
             Frontend.numberOfDigits (Frontend.dataRow cell),
             Frontend.numberOfDigits (Frontend.dataCol cell) with
       | Some index, Some row, Some col =>
           (index =? Z.of_nat k) && (row =? Z.of_nat (k / 9))
           && (col =? Z.of_nat (k mod 9))
       | _, _, _ => false
       end
       && Bool.eqb (Frontend.readOnly cell) (negb isInput)
       && forallb (fun j =>
            let other := nth j (Frontend.createGrid isInput)
                             (Frontend.mkCell "" "" "" "" "" false) in
            let sameAccent :=
              (Frontend.dataSubgridAccent cell
               =? Frontend.dataSubgridAccent other)%string in
            if ((k / 9 / 3 =? j / 9 / 3) && (k mod 9 / 3 =? j mod 9 / 3))%nat
            then sameAccent
            else if ((k / 9 / 3 =? j / 9 / 3) && (S (k mod 9 / 3) =? j mod 9 / 3))%nat
                    || ((S (k / 9 / 3) =? j / 9 / 3) && (k mod 9 / 3 =? j mod 9 / 3))%nat
                 then negb sameAccent
                 else true)
            (seq 0 81))
       (seq 0 81)
  = true.
Proof. destruct isInput; vm_compute; reflexivity. Qed.

(** X23 (the cells of a grid). [createGrid] makes 81 cells. The input at
    position [k] of the array carries the index [k], which is what the
    handlers read to find their cell, and its cell the row [k / 9] and the
    column [k mod 9]; the inputs are read-only exactly in the solution
    grid. Two cells of one box have the same accent, and the cells of two
    boxes that share a side have different accents. *)
Theorem grid_cells isInput k j :
  (k < 81)%nat -> (j < 81)%nat ->
  List.length (Frontend.createGrid isInput) = 81%nat
  /\ Frontend.numberOfDigits
       (Frontend.dataIndex (nth k (Frontend.createGrid isInput)
                                (Frontend.mkCell "" "" "" "" "" false)))
     = Some (Z.of_nat k)
  /\ Frontend.numberOfDigits
       (Frontend.dataRow (nth k (Frontend.createGrid isInput)
                              (Frontend.mkCell "" "" "" "" "" false)))
     = Some (Z.of_nat (k / 9))
  /\ Frontend.numberOfDigits
       (Frontend.dataCol (nth k (Frontend.createGrid isInput)
                              (Frontend.mkCell "" "" "" "" "" false)))
     = Some (Z.of_nat (k mod 9))
  /\ Frontend.readOnly (nth k (Frontend.createGrid isInput)
                            (Frontend.mkCell "" "" "" "" "" false))
     = negb isInput
  /\ ((k / 9 / 3 = j / 9 / 3)%nat -> (k mod 9 / 3 = j mod 9 / 3)%nat ->
      Frontend.dataSubgridAccent (nth k (Frontend.createGrid isInput)
                                      (Frontend.mkCell "" "" "" "" "" false))
      = Frontend.dataSubgridAccent (nth j (Frontend.createGrid isInput)
                                        (Frontend.mkCell "" "" "" "" "" false)))
  /\ (((k / 9 / 3 = j / 9 / 3)%nat /\ (S (k mod 9 / 3) = j mod 9 / 3)%nat)
      \/ ((S (k / 9 / 3) = j / 9 / 3)%nat /\ (k mod 9 / 3 = j mod 9 / 3)%nat) ->
      Frontend.dataSubgridAccent (nth k (Frontend.createGrid isInput)
                                      (Frontend.mkCell "" "" "" "" "" false))
      <> Frontend.dataSubgridAccent (nth j (Frontend.createGrid isInput)
                                         (Frontend.mkCell "" "" "" "" "" false))).
Proof.
  intros Hk Hj. pose proof (createGrid_table isInput) as H.
  apply andb_true_iff in H as [Hlen H]. apply Nat.eqb_eq in Hlen.
  rewrite forallb_forall in H.
  specialize (H k (proj2 (in_seq 81 0 k) ltac:(lia))). cbv zeta in H.
  set (d := Frontend.mkCell "" "" "" "" "" false) in *.
  set (cell := nth k (Frontend.createGrid isInput) d) in *.
  apply andb_true_iff in H as [H Hacc]. apply andb_true_iff in H as [H Hro].
  rewrite forallb_forall in Hacc.
  specialize (Hacc j (proj2 (in_seq 81 0 j) ltac:(lia))).
  set (other := nth j (Frontend.createGrid isInput) d) in *.
  destruct (Frontend.numberOfDigits (Frontend.dataIndex cell)) as [index|];
    [|discriminate].
  destruct (Frontend.numberOfDigits (Frontend.dataRow cell)) as [row|];
    [|discriminate].
  destruct (Frontend.numberOfDigits (Frontend.dataCol cell)) as [col|];
    [|discriminate].
  apply andb_true_iff in H as [H Hcol]. apply andb_true_iff in H as [Hidx Hrow].
  apply Z.eqb_eq in Hidx, Hrow, Hcol. apply Bool.eqb_prop in Hro.
  split; [assumption|]. split; [congruence|]. split; [congruence|].
  split; [congruence|]. split; [assumption|]. split.
  - intros E1 E2. apply Nat.eqb_eq in E1, E2. rewrite E1, E2 in Hacc.
    now apply String.eqb_eq.
  - intros Hside.
    destruct ((k / 9 / 3 =? j / 9 / 3) && (k mod 9 / 3 =? j mod 9 / 3))%nat eqn:Esame.
    + exfalso. apply andb_true_iff in Esame as [E1 E2].
      apply Nat.eqb_eq in E1, E2. lia.
    + assert ((((k / 9 / 3 =? j / 9 / 3) && (S (k mod 9 / 3) =? j mod 9 / 3))
               || ((S (k / 9 / 3) =? j / 9 / 3) && (k mod 9 / 3 =? j mod 9 / 3)))%nat
              = true) as Eside.
      { apply orb_true_iff.
        destruct Hside as [[E1 E2]|[E1 E2]]; [left | right];
          apply andb_true_iff; split; now apply Nat.eqb_eq. }
      rewrite Eside in Hacc. apply negb_true_iff in Hacc.
      now apply String.eqb_neq.
Qed.

Lemma grid_cells_witness :
  List.length (Frontend.createGrid true) = 81%nat
  /\ Frontend.numberOfDigits
       (Frontend.dataIndex (nth 40 (Frontend.createGrid true)
                                (Frontend.mkCell "" "" "" "" "" false)))
     = Some (Z.of_nat 40)
  /\ Frontend.numberOfDigits
       (Frontend.dataRow (nth 40 (Frontend.createGrid true)
                              (Frontend.mkCell "" "" "" "" "" false)))
     = Some (Z.of_nat (40 / 9))
  /\ Frontend.numberOfDigits
       (Frontend.dataCol (nth 40 (Frontend.createGrid true)
                              (Frontend.mkCell "" "" "" "" "" false)))
     = Some (Z.of_nat (40 mod 9))
  /\ Frontend.readOnly (nth 40 (Frontend.createGrid true)
                            (Frontend.mkCell "" "" "" "" "" false))
     = negb true
  /\ ((40 / 9 / 3 = 43 / 9 / 3)%nat -> (40 mod 9 / 3 = 43 mod 9 / 3)%nat ->
      Frontend.dataSubgridAccent (nth 40 (Frontend.createGrid true)
                                      (Frontend.mkCell "" "" "" "" "" false))
      = Frontend.dataSubgridAccent (nth 43 (Frontend.createGrid true)
                                        (Frontend.mkCell "" "" "" "" "" false)))
  /\ (((40 / 9 / 3 = 43 / 9 / 3)%nat /\ (S (40 mod 9 / 3) = 43 mod 9 / 3)%nat)
      \/ ((S (40 / 9 / 3) = 43 / 9 / 3)%nat /\ (40 mod 9 / 3 = 43 mod 9 / 3)%nat) ->
      Frontend.dataSubgridAccent (nth 40 (Frontend.createGrid true)
                                      (Frontend.mkCell "" "" "" "" "" false))
      <> Frontend.dataSubgridAccent (nth 43 (Frontend.createGrid true)
                                         (Frontend.mkCell "" "" "" "" "" false))).
Proof. apply (grid_cells true 40 43); lia. Defined.
